(** * Distillation-curve interconversion: a shallow embedding of [bp_conversions.py]

    The development follows the Python class [Oil] of [bp_conversions.py] and the
    interpolator it relies on, [scipy.interpolate.PchipInterpolator].

    Conventions of the embedding.
    - A Python float is idealised as a real number ([R]): no rounding, no overflow.
      A float operation whose result is not a real number (NaN, an infinity, a
      complex number) is modelled by [None] in [option R].  The properties below
      are to be read with this in mind: a property that states which curve or
      which formula the code computes is stated over the reals; a property that
      states that the code succeeds bounds its inputs to the range in which
      binary64 neither overflows nor loses the order of two values; and where
      rounding decides a property (the round trip of [convert_temperature]), the
      code is also embedded on binary64 floats ([convert_temperature_binary64]).
    - Exceptions are modelled by the sum type [result]; every exception the
      modelled code can raise is a Python [ValueError] (or a [KeyError] for a
      dictionary lookup), told apart here by the constructor of [error].
    - A Python [str] is a [string] holding its UTF-8 encoding; [str.upper] maps
      the ASCII letters and the characters outside ASCII whose upper-case form is
      made of ASCII letters (see [upper]).
    - A Python [dict] keyed by floats is an association list in insertion order.
    - Code around the class (the static method [read_d86_csv], and the checks of
      the web service of [distillation_api.py] in front of the constructor) raises
      exceptions of other kinds; it is modelled with the type [outcome], and
      file contents are given by the rows that [csv.reader] yields. *)

From Stdlib Require Import Floats.
From Stdlib Require Import Reals Lra Lia Psatz List String Ascii ZArith Bool.
From Bignums Require Import BigZ.
Import ListNotations.
Open Scope R_scope.

(** ** Exceptions *)

Inductive error : Type :=
| UnknownInputType (input_type : string)   (* Oil.__init__: "Unknown input_type: ..." *)
| UnsupportedUnit                          (* convert_temperature: "Unsupported ..._unit" *)
| TooFewPoints                             (* scipy: `x` must contain at least 2 elements *)
| LengthMismatch                           (* scipy: the length of `y` doesn't match `x` *)
| NotIncreasing                            (* scipy: `x` must be strictly increasing *)
| NotFinite                                (* scipy: `y` holds a value that is not a finite real number *)
| KeyError.                                (* lookup of an absent dictionary key *)

Inductive result (A : Type) : Type :=
| Ok (a : A)
| Err (e : error).
Arguments Ok {A} a.
Arguments Err {A} e.

Definition bind {A B : Type} (r : result A) (f : A -> result B) : result B :=
  match r with
  | Ok a => f a
  | Err e => Err e
  end.

Notation "x <- e ;; k" := (bind e (fun x => k))
  (at level 61, e at next level, right associativity).
Notation "' p <- e ;; k" := (bind e (fun p => k))
  (at level 61, p pattern, e at next level, right associativity).

Fixpoint mapM {A B : Type} (f : A -> result B) (l : list A) : result (list B) :=
  match l with
  | [] => Ok []
  | a :: l' => b <- f a ;; bs <- mapM f l' ;; Ok (b :: bs)
  end.

(** ** Float operations that can leave the reals *)

(** [x ** y].  For a positive base this is [exp (y * ln x)].  For a zero base the
    float result is [0.0] (positive exponent), [1.0] (zero exponent) or an
    infinity.  For a negative base the result is NaN (numpy floats) or a complex
    number (Python floats) when the exponent is not an integer, which is the case
    of every exponent this program uses.

    Not modelled: the power of a Python float whose result exceeds the largest
    binary64 number raises [OverflowError] (for the exponents of this program,
    bases above about 1e185).  The properties that state a success therefore
    bound the temperatures they speak of. *)
Definition fpow (x y : R) : option R :=
  if Rlt_dec 0 x then Some (Rpower x y)
  else if Req_dec_T x 0 then
         if Rlt_dec 0 y then Some 0
         else if Req_dec_T y 0 then Some 1 else None
       else None.

(** A value that is not a real number makes the next [PchipInterpolator] built
    from it raise a [ValueError]: "`y` must contain only finite values" for a
    NaN or an infinity, "`PchipInterpolator` only works with real values" for a
    complex number.  The model does not tell the two messages apart, and raises
    where the value arises. *)
Definition finite (o : option R) : result R :=
  match o with
  | Some v => Ok v
  | None => Err NotFinite
  end.

(** [numpy.sign] *)
Definition sign (x : R) : R :=
  if Rlt_dec 0 x then 1 else if Rlt_dec x 0 then -1 else 0.

(** ** Strings *)

(** [str.upper] on an ASCII character: the letters a to z. *)
Definition upper_ascii (a : ascii) : ascii :=
  let n := nat_of_ascii a in
  if (97 <=? n)%nat && (n <=? 122)%nat then ascii_of_nat (n - 32) else a.

(** [str.upper] on the characters outside ASCII whose upper-case form is made of
    ASCII letters only, by their UTF-8 bytes.  In Unicode these are: U+00DF
    (sharp s, "SS"), U+0131 (dotless i, "I"), U+017F (long s, "S") and the
    ligatures U+FB00 to U+FB06 ("FF", "FI", "FL", "FFI", "FFL", "ST", "ST"). *)
Definition upper_2 (a b : ascii) : option string :=
  match N_of_ascii a, N_of_ascii b with
  | 195, 159 => Some "SS"
  | 196, 177 => Some "I"
  | 197, 191 => Some "S"
  | _, _ => None
  end%N%string.

Definition upper_3 (a b c : ascii) : option string :=
  match N_of_ascii a, N_of_ascii b, N_of_ascii c with
  | 239, 172, 128 => Some "FF"
  | 239, 172, 129 => Some "FI"
  | 239, 172, 130 => Some "FL"
  | 239, 172, 131 => Some "FFI"
  | 239, 172, 132 => Some "FFL"
  | 239, 172, 133 => Some "ST"
  | 239, 172, 134 => Some "ST"
  | _, _, _ => None
  end%N%string.

(** [str.upper], on the UTF-8 encoding of the string.  Every other character
    outside ASCII is left as it is, where Python replaces it by its upper-case
    form; that form holds a character outside ASCII other than the degree
    sign, as the character itself does.  The program only compares an
    upper-cased string with its own keys (the family tags and the unit names,
    made of ASCII characters and the degree sign), and on whether the
    upper-cased string is such a key the model and [str.upper] agree. *)
Fixpoint upper (s : string) : string :=
  match s with
  | EmptyString => EmptyString
  | String a s1 =>
      match s1 with
      | EmptyString => String (upper_ascii a) EmptyString
      | String b s2 =>
          match upper_2 a b with
          | Some u => u ++ upper s2
          | None =>
              match s2 with
              | EmptyString => String (upper_ascii a) (upper s1)
              | String c s3 =>
                  match upper_3 a b c with
                  | Some u => u ++ upper s3
                  | None => String (upper_ascii a) (upper s1)
                  end
              end
          end
      end
  end.

Fixpoint str_get (k : string) (d : list (string * string)) : option string :=
  match d with
  | [] => None
  | (k', v) :: d' => if String.eqb k k' then Some v else str_get k d'
  end.

Fixpoint str_in (k : string) (l : list string) : bool :=
  match l with
  | [] => false
  | k' :: l' => String.eqb k k' || str_in k l'
  end.

(** ** Dictionaries keyed by floats, in insertion order *)

Definition dict : Type := list (R * R).

Fixpoint dict_get (k : R) (d : dict) : option R :=
  match d with
  | [] => None
  | (k', v) :: d' => if Req_dec_T k k' then Some v else dict_get k d'
  end.

Fixpoint dict_set (k v : R) (d : dict) : dict :=
  match d with
  | [] => [(k, v)]
  | (k', v') :: d' =>
      if Req_dec_T k k' then (k, v) :: d' else (k', v') :: dict_set k v d'
  end.

Definition dict_mem (k : R) (d : dict) : bool :=
  match dict_get k d with
  | Some _ => true
  | None => false
  end.

(** [d[k]] *)
Definition dict_item (k : R) (d : dict) : result R :=
  match dict_get k d with
  | Some v => Ok v
  | None => Err KeyError
  end.

(** [{point[0]: point[1] for point in l}] *)
Definition dict_of (l : list (R * R)) : dict :=
  fold_left (fun d p => dict_set (fst p) (snd p) d) l [].

(** Constant tables keyed by integers. *)
Fixpoint table_get (k : Z) (t : list (Z * (R * R))) : result (R * R) :=
  match t with
  | [] => Err KeyError
  | (k', v) :: t' => if Z.eqb k k' then Ok v else table_get k t'
  end.

(** [sorted] on a list of [[vol, temp]] pairs: lists compare lexicographically. *)
Definition pair_le (p q : R * R) : bool :=
  if Rlt_dec (fst p) (fst q) then true
  else if Rlt_dec (fst q) (fst p) then false
  else if Rle_dec (snd p) (snd q) then true else false.

Fixpoint insert_sorted (p : R * R) (l : list (R * R)) : list (R * R) :=
  match l with
  | [] => [p]
  | q :: l' => if pair_le q p then q :: insert_sorted p l' else p :: l
  end.

Definition sorted (l : list (R * R)) : list (R * R) :=
  fold_left (fun acc p => insert_sorted p acc) l [].

(** ** The interpolator: [scipy.interpolate.PchipInterpolator]

    The class is library code and is not part of the repository.  It is the
    "Monotonic Curve" of the specification: built from at least two points with
    strictly increasing abscissae, a shape-preserving piecewise cubic, evaluated
    outside its knots with the polynomial of the boundary segment. *)

Module PchipInterpolator.

(** The piecewise polynomial: breakpoints [x] and, for each interval, the
    coefficients [(c0, c1, c2, c3)] of [c0*s^3 + c1*s^2 + c2*s + c3]. *)
Record t : Type := mk { x : list R; c : list (R * R * R * R) }.

(** [numpy.diff] *)
Fixpoint diff (l : list R) : list R :=
  match l with
  | a :: ((b :: _) as l') => (b - a) :: diff l'
  | _ => []
  end.

(** elementwise [a / b] *)
Fixpoint div_lists (a b : list R) : list R :=
  match a, b with
  | u :: a', v :: b' => (u / v) :: div_lists a' b'
  | _, _ => []
  end.

Definition Rneqb (a b : R) : bool := if Req_dec_T a b then false else true.
Definition Reqb (a b : R) : bool := if Req_dec_T a b then true else false.
Definition Rleb (a b : R) : bool := if Rle_dec a b then true else false.
Definition Rltb (a b : R) : bool := if Rlt_dec a b then true else false.

(** Modelled from the spec: the input checks of the Monotonic Curve (fewer than
    two points, abscissae not strictly increasing), in the order in which the
    library's [prepare_input] makes them. *)
Definition prepare_input (x y : list R) : result unit :=
  if (List.length x <? 2)%nat then Err TooFewPoints
  else if negb (List.length x =? List.length y)%nat then Err LengthMismatch
  else if existsb (fun dx => Rleb dx 0) (diff x) then Err NotIncreasing
  else Ok tt.

(** One-sided three-point estimate of the derivative at an end point. *)
Definition _edge_case (h0 h1 m0 m1 : R) : R :=
  let d := ((2 * h0 + h1) * m0 - h0 * m1) / (h0 + h1) in
  let mask := Rneqb (sign d) (sign m0) in
  let mask2 := Rneqb (sign m0) (sign m1) && Rltb (3 * Rabs m0) (Rabs d) in
  if mask then 0 else if mask2 then 3 * m0 else d.

(** Derivative at an interior knot from the spacings and slopes of the two
    segments that meet there: zero at a local extremum, else the weighted
    harmonic mean of the slopes. *)
Definition interior_derivative (h0 h1 m0 m1 : R) : R :=
  let w1 := 2 * h1 + h0 in
  let w2 := h1 + 2 * h0 in
  let condition := Rneqb (sign m1) (sign m0) || Reqb m1 0 || Reqb m0 0 in
  if condition then 0 else 1 / ((w1 / m0 + w2 / m1) / (w1 + w2)).

(** [dk[1:-1]], computed from the slices [hk[:-1]], [hk[1:]], [mk[:-1]], [mk[1:]]. *)
Fixpoint interior (hk mk : list R) : list R :=
  match hk, mk with
  | h0 :: ((h1 :: _) as hk'), m0 :: ((m1 :: _) as mk') =>
      interior_derivative h0 h1 m0 m1 :: interior hk' mk'
  | _, _ => []
  end.

(** Modelled from the spec: the knot derivatives of the shape-preserving cubic,
    by the PCHIP rule the library implements ([_find_derivatives]). *)
Definition _find_derivatives (x y : list R) : list R :=
  let hk := diff x in
  let mk := div_lists (diff y) hk in
  match y with
  | [_; _] => [nth 0 mk 0; nth 0 mk 0]
  | _ =>
      let n := List.length hk in
      _edge_case (nth 0 hk 0) (nth 1 hk 0) (nth 0 mk 0) (nth 1 mk 0)
      :: interior hk mk
      ++ [_edge_case (nth (n - 1) hk 0) (nth (n - 2) hk 0)
                     (nth (n - 1) mk 0) (nth (n - 2) mk 0)]
  end.

(** Coefficients of the cubic Hermite spline through [(x, y)] with knot
    derivatives [dydx] ([CubicHermiteSpline.__init__]). *)
Definition segment (x0 x1 y0 y1 d0 d1 : R) : R * R * R * R :=
  let dx := x1 - x0 in
  let slope := (y1 - y0) / dx in
  let t := (d0 + d1 - 2 * slope) / dx in
  (t / dx, (slope - d0) / dx - t, d0, y0).

Fixpoint hermite (x y dydx : list R) : list (R * R * R * R) :=
  match x, y, dydx with
  | x0 :: ((x1 :: _) as x'), y0 :: ((y1 :: _) as y'), d0 :: ((d1 :: _) as d') =>
      segment x0 x1 y0 y1 d0 d1 :: hermite x' y' d'
  | _, _, _ => []
  end.

(** Modelled from the spec: construction of the Monotonic Curve,
    [PchipInterpolator(x, y)]. *)
Definition __init__ (x y : list R) : result t :=
  _ <- prepare_input x y ;;
  Ok (mk x (hermite x y (_find_derivatives x y))).

(** The interval used for [xval]: the one that contains it, the first one below
    the knots, the last one above them (and at the last knot). *)
Fixpoint find_interval (x : list R) (xval : R) : nat :=
  match x with
  | _ :: ((x1 :: _ :: _) as x') =>
      if Rlt_dec xval x1 then 0%nat else S (find_interval x' xval)
  | _ => 0%nat
  end.

Definition evaluate_poly1 (s : R) (co : R * R * R * R) : R :=
  let '(c0, c1, c2, c3) := co in
  c3 + c2 * s + c1 * (s * s) + c0 * (s * s * s).

(** Modelled from the spec: evaluation of the Monotonic Curve at any real
    abscissa, [interp(xval)]. *)
Definition __call__ (p : t) (xval : R) : R :=
  let i := find_interval (x p) xval in
  evaluate_poly1 (xval - nth i (x p) 0) (nth i (c p) (0, 0, 0, 0)).

End PchipInterpolator.

(** ** The class [Oil] *)

Module Oil.

Record t : Type := mk {
  Density : R;
  input_type : string;
  D86 : list (R * R);
  original_temperatures : list R;
  original_volperc_distilled : list R;
  D86_interp : PchipInterpolator.t;
  TBP_interp : PchipInterpolator.t;
  Daubert_TBP_interp : PchipInterpolator.t;
  D2887_interp : PchipInterpolator.t;
  VABP : R;
  MeABP : option R;
  SG : R;
  WatsonK : option R
}.

Definition vol_distl_list : list Z := [0; 10; 30; 50; 70; 90; 95]%Z.

(** *** Temperature units *)

Definition unit_map : list (string * string) :=
  [ ("C", "C"); ("°C", "C"); ("CELSIUS", "C"); ("DEG C", "C");
    ("K", "K"); ("KELVIN", "K");
    ("F", "F"); ("°F", "F"); ("FAHRENHEIT", "F");
    ("R", "R"); ("°R", "R"); ("RANKINE", "R") ]%string.

(** [convert_temperature], the floats idealised as real numbers. *)
Definition convert_temperature (value : R) (from_unit to_unit : string) : result R :=
  match str_get (upper from_unit) unit_map, str_get (upper to_unit) unit_map with
  | None, _ => Err UnsupportedUnit
  | Some _, None => Err UnsupportedUnit
  | Some from_unit, Some to_unit =>
      if String.eqb from_unit to_unit then Ok value
      else
        celsius <-
          (if String.eqb from_unit "C" then Ok value
           else if String.eqb from_unit "K" then Ok (value - 273.15)
           else if String.eqb from_unit "F" then Ok ((value - 32) * 5.0 / 9.0)
           else if String.eqb from_unit "R" then Ok ((value - 491.67) * 5.0 / 9.0)
           else Err UnsupportedUnit) ;;
        if String.eqb to_unit "C" then Ok celsius
        else if String.eqb to_unit "K" then Ok (celsius + 273.15)
        else if String.eqb to_unit "F" then Ok (celsius * 9.0 / 5.0 + 32)
        else if String.eqb to_unit "R" then Ok ((celsius + 273.15) * 9.0 / 5.0)
        else Err UnsupportedUnit
  end.


(** [a * x ** b] for a coefficient pair [(a, b)] of a correlation table, inside
    the construction of a curve. *)
Definition power_law (ab : R * R) (x : R) : result R :=
  p <- finite (fpow x (snd ab)) ;;
  Ok (fst ab * p).

(** [PchipInterpolator([point[0] for point in l], [point[1] for point in l])] *)
Definition interpolator_of (l : list (R * R)) : result PchipInterpolator.t :=
  PchipInterpolator.__init__ (map fst l) (map snd l).

(** *** API (1993): D86 to TBP *)

Definition API_constants : list (Z * (R * R)) :=
  [ (0%Z, (0.9167, 1.0019)); (10%Z, (0.5277, 1.0900)); (30%Z, (0.7429, 1.0425));
    (50%Z, (0.8920, 1.0176)); (70%Z, (0.8705, 1.0226)); (90%Z, (0.9490, 1.0110));
    (95%Z, (0.8008, 1.0355)) ].

Definition API_D86_TBP (d86 : list (R * R))
  : result (PchipInterpolator.t * PchipInterpolator.t) :=
  D86_interp <- interpolator_of d86 ;;
  TBP_list <-
    mapM (fun vol =>
            ab <- table_get vol API_constants ;;
            let D86 := PchipInterpolator.__call__ D86_interp (IZR vol) in
            D86_r <- convert_temperature D86 "C" "R" ;;
            TBP_rankin <- power_law ab D86_r ;;
            TBP <- convert_temperature TBP_rankin "R" "C" ;;
            Ok (IZR vol, TBP))
         vol_distl_list ;;
  TBP_interp <- interpolator_of TBP_list ;;
  Ok (D86_interp, TBP_interp).

(** *** Daubert: D86 to TBP *)

Definition Daubert_constants : list (Z * (R * R)) :=
  [ (1%Z, (7.4012, 0.6024)); (2%Z, (4.9004, 0.7164)); (3%Z, (3.0305, 0.8008));
    (4%Z, (0.8718, 1.0258)); (5%Z, (2.5282, 0.8200)); (6%Z, (3.0419, 0.7750));
    (7%Z, (0.1180, 1.6606)) ].

Definition dist_required : list Z := [0; 10; 30; 50; 70; 90; 95]%Z.

(** First block of [Daubert_ASTM_D86_TBP]: the dictionary [D86_dict_r] as it
    stands when the correlations are applied. *)
Definition Daubert_D86_dict_r (D86 : list (R * R)) : result dict :=
  let D86_dict := dict_of D86 in
  D86_dict_r <-
    mapM (fun '(dist, temp) =>
            temp_F <- convert_temperature temp "C" "F" ;; Ok (dist, temp_F))
         D86_dict ;;
  let missing_point :=
    existsb (fun dist => negb (dict_mem (IZR dist) D86_dict_r)) dist_required in
  if missing_point then
    D86_r_interp <- interpolator_of D86 ;;
    Ok (fold_left
          (fun d dist =>
             dict_set (IZR dist) (PchipInterpolator.__call__ D86_r_interp (IZR dist)) d)
          dist_required D86_dict_r)
  else Ok D86_dict_r.

(** Second block: the anchor at 50% and the increments, giving [TBP_r_list]. *)
Definition Daubert_TBP_r_list (D86_dict_r : dict) : result (list (R * R)) :=
  c4 <- table_get 4 Daubert_constants ;;
  T50 <- dict_item 50 D86_dict_r ;;
  TBP_50 <- power_law c4 T50 ;;
  T10 <- dict_item 10 D86_dict_r ;;
  T0 <- dict_item 0 D86_dict_r ;;
  let dT1_D86 := T10 - T0 in
  T30 <- dict_item 30 D86_dict_r ;;
  let dT2_D86 := T30 - T10 in
  let dT3_D86 := T50 - T30 in
  T70 <- dict_item 70 D86_dict_r ;;
  let dT5_D86 := T70 - T50 in
  T90 <- dict_item 90 D86_dict_r ;;
  let dT6_D86 := T90 - T70 in
  T95 <- dict_item 95 D86_dict_r ;;
  let dT7_D86 := T95 - T90 in
  c1 <- table_get 1 Daubert_constants ;; dT1 <- power_law c1 dT1_D86 ;;
  c2 <- table_get 2 Daubert_constants ;; dT2 <- power_law c2 dT2_D86 ;;
  c3 <- table_get 3 Daubert_constants ;; dT3 <- power_law c3 dT3_D86 ;;
  c5 <- table_get 5 Daubert_constants ;; dT5 <- power_law c5 dT5_D86 ;;
  c6 <- table_get 6 Daubert_constants ;; dT6 <- power_law c6 dT6_D86 ;;
  c7 <- table_get 7 Daubert_constants ;; dT7 <- power_law c7 dT7_D86 ;;
  let TBP_30 := TBP_50 - dT3 in
  let TBP_10 := TBP_30 - dT2 in
  let TBP_0 := TBP_10 - dT1 in
  let TBP_70 := TBP_50 + dT5 in
  let TBP_90 := TBP_70 + dT6 in
  let TBP_95 := TBP_90 + dT7 in
  Ok [ (0, TBP_0); (10, TBP_10); (30, TBP_30); (50, TBP_50);
       (70, TBP_70); (90, TBP_90); (95, TBP_95) ].

Definition Daubert_ASTM_D86_TBP (D86 : list (R * R)) : result PchipInterpolator.t :=
  D86_dict_r <- Daubert_D86_dict_r D86 ;;
  TBP_r_list <- Daubert_TBP_r_list D86_dict_r ;;
  TBP_list <-
    mapM (fun '(vol, temp_F) =>
            temp <- convert_temperature temp_F "F" "C" ;; Ok (vol, temp))
         TBP_r_list ;;
  interpolator_of TBP_list.

(** *** D86 to D2887 *)

Definition key_points : list Z := [0; 10; 30; 50; 70; 90; 100]%Z.

(** The dictionary [D2887_points] is filled once per key of [key_points]; the
    keys are distinct, so its items are the list built here, in this order. *)
Definition D86_to_D2887 (D86 : list (R * R)) : result PchipInterpolator.t :=
  D86_interp <- interpolator_of D86 ;;
  let D86_50_C := PchipInterpolator.__call__ D86_interp 50 in
  D86_50_F <- convert_temperature D86_50_C "C" "F" ;;
  SD_50_F <- finite (fpow (D86_50_F / 0.77601) (1.0 / 1.0395)) ;;
  SD_50_C <- convert_temperature SD_50_F "F" "C" ;;
  '(_, TBP_interp) <- API_D86_TBP D86 ;;
  let D2887_points :=
    map (fun vol =>
           if Z.eqb vol 50 then (50, SD_50_C)
           else
             let tbp_temp := PchipInterpolator.__call__ TBP_interp (IZR vol) in
             let d86_temp := PchipInterpolator.__call__ D86_interp (IZR vol) in
             let weight_tbp := 0.85 in
             (IZR vol, d86_temp + weight_tbp * (tbp_temp - d86_temp)))
        key_points in
  let D2887_list := sorted D2887_points in
  interpolator_of D2887_list.

(** *** D2887 to D86 *)

Definition riazi_d86_coefficients : list (Z * (R * R)) :=
  [ (0%Z, (0.9965, 0.9985)); (10%Z, (0.9970, 0.9988)); (30%Z, (0.9975, 0.9990));
    (50%Z, (0.9977, 0.9992)); (70%Z, (0.9975, 0.9990)); (90%Z, (0.9968, 0.9986));
    (100%Z, (0.9960, 0.9982)) ].

(** The loop body shared by [D2887_to_D86] and [D2887_to_TBP_direct]: one key
    point of the converted curve, from the table [coefficients]. *)
Definition riazi_point (coefficients : list (Z * (R * R)))
  (D2887_interp : PchipInterpolator.t) (vol : Z) : result (R * R) :=
  let d2887_temp_C := PchipInterpolator.__call__ D2887_interp (IZR vol) in
  let d2887_temp_R := d2887_temp_C * 9 / 5 + 491.67 in
  ab <- table_get vol coefficients ;;
  d86_temp_R <- power_law ab d2887_temp_R ;;
  let d86_temp_C := (d86_temp_R - 491.67) * 5 / 9 in
  Ok (IZR vol, d86_temp_C).

(** The list returned by the source holds a NaN where a power is not a real
    number, and [Oil.__init__] passes it at once to [PchipInterpolator], which
    raises; the model raises here. *)
Definition D2887_to_D86 (D2887 : list (R * R)) : result (list (R * R)) :=
  D2887_interp <- interpolator_of D2887 ;;
  D86_points <- mapM (riazi_point riazi_d86_coefficients D2887_interp) key_points ;;
  let D86_list := sorted D86_points in
  Ok D86_list.

(** *** TBP to D86 *)

Definition table_get_default (k : Z) (t : list (Z * (R * R))) (default : R * R) : R * R :=
  match table_get k t with
  | Ok v => v
  | Err _ => default
  end.

Definition TBP_to_D86 (TBP : list (R * R)) : result (list (R * R)) :=
  TBP_interp <- interpolator_of TBP ;;
  mapM (fun vol =>
          let '(a, b) := table_get_default vol API_constants (0.9167, 1.0019) in
          let TBP_temp := PchipInterpolator.__call__ TBP_interp (IZR vol) in
          TBP_R <- convert_temperature TBP_temp "C" "R" ;;
          p <- finite (fpow (TBP_R / a) (1.0 / b)) ;;
          let D86_R := p in
          D86_C <- convert_temperature D86_R "R" "C" ;;
          Ok (IZR vol, D86_C))
       [0; 10; 30; 50; 70; 90; 95; 100]%Z.

(** *** Curves kept as given *)

Definition D2887_to_D2887_interp (D2887 : list (R * R)) : result PchipInterpolator.t :=
  interpolator_of D2887.

Definition TBP_to_TBP_interp (TBP : list (R * R)) : result PchipInterpolator.t :=
  interpolator_of TBP.

(** *** D2887 to TBP *)

Definition riazi_tbp_coefficients : list (Z * (R * R)) :=
  [ (0%Z, (1.0010, 1.0005)); (10%Z, (1.0008, 1.0004)); (30%Z, (1.0005, 1.0003));
    (50%Z, (1.0003, 1.0002)); (70%Z, (1.0005, 1.0003)); (90%Z, (1.0008, 1.0004));
    (100%Z, (1.0010, 1.0005)) ].

Definition D2887_to_TBP_direct (D2887 : list (R * R)) : result PchipInterpolator.t :=
  D2887_interp <- interpolator_of D2887 ;;
  TBP_points <- mapM (riazi_point riazi_tbp_coefficients D2887_interp) key_points ;;
  let TBP_list := sorted TBP_points in
  interpolator_of TBP_list.

(** *** Bulk properties *)

(** The Fahrenheit interpolator built by [VABP_] and [MeABP_]. *)
Definition D86_interop_F (original_temperatures : list R)
  (D86_interop_C : PchipInterpolator.t) : result PchipInterpolator.t :=
  temps_F <- mapM (fun temp => convert_temperature temp "C" "F") original_temperatures ;;
  PchipInterpolator.__init__ (PchipInterpolator.x D86_interop_C) temps_F.

Definition VABP_ (original_temperatures : list R) (D86_interop_C : PchipInterpolator.t)
  : result R :=
  F <- D86_interop_F original_temperatures D86_interop_C ;;
  let VABP_val :=
    (PchipInterpolator.__call__ F 10 + PchipInterpolator.__call__ F 30
     + PchipInterpolator.__call__ F 50 + PchipInterpolator.__call__ F 70
     + PchipInterpolator.__call__ F 90) / 5 in
  Ok VABP_val.

Definition MeABP_ (original_temperatures : list R) (D86_interop_C : PchipInterpolator.t)
  : result (option R) :=
  VABP_val <- VABP_ original_temperatures D86_interop_C ;;
  F <- D86_interop_F original_temperatures D86_interop_C ;;
  let SL := (PchipInterpolator.__call__ F 90 - PchipInterpolator.__call__ F 10) / (90 - 10) in
  Ok (match fpow (VABP_val - 32) 0.6667, fpow SL 0.333 with
      | Some p, Some q =>
          let delta := exp (-0.94402 - 0.00865 * p + 2.99791 * q) in
          Some (VABP_val - delta)
      | _, _ => None
      end).

(** [WatsonK_] sets [self.SG] and returns the factor; a zero [SG] gives an
    infinity or a NaN. *)
Definition WatsonK_ (MeABP : option R) (Density : R) : R * option R :=
  let SG := Density / 999.013 in
  (SG,
   match MeABP with
   | Some MeABP_val =>
       match fpow (MeABP_val + 460) (1 / 3) with
       | Some p => if Req_dec_T SG 0 then None else Some (p / SG)
       | None => None
       end
   | None => None
   end).

(** *** Construction *)

(** The statements after the dispatch on [input_type]. *)
Definition properties (Density : R) (input_type : string) (D86 : list (R * R))
  (D86_interp TBP_interp Daubert_TBP_interp D2887_interp : PchipInterpolator.t)
  : result t :=
  let original_temperatures := map snd D86 in
  let original_volperc_distilled := map fst D86 in
  VABP <- VABP_ original_temperatures D86_interp ;;
  MeABP <- MeABP_ original_temperatures D86_interp ;;
  let '(SG, WatsonK) := WatsonK_ MeABP Density in
  Ok (mk Density input_type D86 original_temperatures original_volperc_distilled
         D86_interp TBP_interp Daubert_TBP_interp D2887_interp
         VABP MeABP SG WatsonK).

Definition __init__ (distillation_input : list (R * R)) (Density : R)
  (input_type : string) : result t :=
  if String.eqb (upper input_type) "D86" then
    '(D86_interp, TBP_interp) <- API_D86_TBP distillation_input ;;
    Daubert_TBP_interp <- Daubert_ASTM_D86_TBP distillation_input ;;
    D2887_interp <- D86_to_D2887 distillation_input ;;
    properties Density input_type distillation_input
               D86_interp TBP_interp Daubert_TBP_interp D2887_interp
  else if str_in (upper input_type) ["D2887"; "SIMDIS"]%string then
    d86_data <- D2887_to_D86 distillation_input ;;
    '(D86_interp, _) <- API_D86_TBP d86_data ;;
    TBP_interp <- D2887_to_TBP_direct distillation_input ;;
    Daubert_TBP_interp <- Daubert_ASTM_D86_TBP d86_data ;;
    D2887_interp <- D2887_to_D2887_interp distillation_input ;;
    properties Density input_type d86_data
               D86_interp TBP_interp Daubert_TBP_interp D2887_interp
  else if String.eqb (upper input_type) "TBP" then
    d86_data <- TBP_to_D86 distillation_input ;;
    '(D86_interp, _) <- API_D86_TBP d86_data ;;
    TBP_interp <- TBP_to_TBP_interp distillation_input ;;
    Daubert_TBP_interp <- Daubert_ASTM_D86_TBP d86_data ;;
    D2887_interp <- D86_to_D2887 d86_data ;;
    properties Density input_type d86_data
               D86_interp TBP_interp Daubert_TBP_interp D2887_interp
  else Err (UnknownInputType input_type).

End Oil.

(** ** Statements about the code, used by the properties below *)

(** A unit string the converter recognises. *)
Definition recognized (unit : string) : Prop :=
  exists u, str_get (upper unit) Oil.unit_map = Some u.

(** A list of reals that is strictly increasing. *)
Definition increasing (l : list R) : Prop :=
  forall i, (S i < List.length l)%nat -> nth i l 0 < nth (S i) l 0.

(** A list of reals in which each value exceeds the one before by at least
    [gap]. *)
Definition spaced (gap : R) (l : list R) : Prop :=
  forall i, (S i < List.length l)%nat -> nth i l 0 + gap <= nth (S i) l 0.

(** Spacing and slope of the [i]-th segment of the data [(x, y)]. *)
Definition spacing (x : list R) (i : nat) : R := nth (S i) x 0 - nth i x 0.
Definition slope (x y : list R) (i : nat) : R :=
  (nth (S i) y 0 - nth i y 0) / spacing x i.

(** The dictionary [D86_dict_r] of [Daubert_ASTM_D86_TBP] before any missing
    key is filled in, and the flag [missing_point]. *)
Definition D86_dict_F (D86 : list (R * R)) : dict :=
  map (fun '(dist, temp) => (dist, temp * 9.0 / 5.0 + 32)) (dict_of D86).

Definition missing_point (D86 : list (R * R)) : bool :=
  existsb (fun dist => negb (dict_mem (IZR dist) (D86_dict_F D86))) Oil.dist_required.

(** [a^m * b^n < c^p * d^q] on integers, evaluated on machine-word integers. *)
Definition pow_lt_check (a m b n c p d q : Z) : bool :=
  BigZ.ltb
    (BigZ.mul (BigZ.pow (BigZ.of_Z a) (BigZ.of_Z m)) (BigZ.pow (BigZ.of_Z b) (BigZ.of_Z n)))
    (BigZ.mul (BigZ.pow (BigZ.of_Z c) (BigZ.of_Z p)) (BigZ.pow (BigZ.of_Z d) (BigZ.of_Z q))).

(** One key point of a Riazi conversion, as a formula: Celsius to Rankine, the
    power law [a * T^b], back to Celsius. *)
Definition riazi_value (ab : R * R) (temp_C : R) : R :=
  (fst ab * Rpower (temp_C * 9 / 5 + 491.67) (snd ab) - 491.67) * 5 / 9.

(** The inverse of the API relation for the 50% point,
    [(T_R / 0.77601)^(1/1.0395)], from and to Celsius. *)
Definition inverse_API_50 (temp_C : R) : R :=
  (Rpower ((temp_C * 9 / 5 + 491.67) / 0.77601) (1 / 1.0395) - 491.67) * 5 / 9.

(** Curves used as concrete inputs: the seven-point curve and the three-point
    curve of the test suite, a two-point curve, a D86 curve given at the seven
    Daubert keys, and a D86 curve whose last point is at 95 %vol. *)
Definition curve7 : list (R * R) :=
  [(0, 160); (10, 170); (30, 190); (50, 225); (70, 260); (90, 280); (100, 290)].
Definition curve3 : list (R * R) := [(0, 160); (50, 225); (100, 290)].
Definition curve2 : list (R * R) := [(0, 160); (100, 290)].
Definition curve_daubert : list (R * R) :=
  [(0, 160); (10, 170); (30, 190); (50, 225); (70, 260); (90, 280); (95, 285)].
Definition curve95 : list (R * R) := [(0, 100); (50, 200); (95, 209)].

(** The interpolant that [PchipInterpolator] returns when its checks pass. *)
Definition interpolant (l : list (R * R)) : PchipInterpolator.t :=
  PchipInterpolator.mk (map fst l)
    (PchipInterpolator.hermite (map fst l) (map snd l)
       (PchipInterpolator._find_derivatives (map fst l) (map snd l))).

(** What [D2887_to_D86] returns on [curve7]. *)
Definition curve7_as_D86 : list (R * R) :=
  [ (0, riazi_value (0.9965, 0.9985) 160); (10, riazi_value (0.9970, 0.9988) 170);
    (30, riazi_value (0.9975, 0.9990) 190); (50, riazi_value (0.9977, 0.9992) 225);
    (70, riazi_value (0.9975, 0.9990) 260); (90, riazi_value (0.9968, 0.9986) 280);
    (100, riazi_value (0.9960, 0.9982) 290) ].

(** The D86 curve of a sample read in Fahrenheit. *)
Definition D86_F (s : Oil.t) (v : R) : R :=
  PchipInterpolator.__call__ (Oil.D86_interp s) v * 9.0 / 5.0 + 32.

(** One key point of [TBP_to_D86], as a formula: Celsius to Rankine, the
    inverse power law [(T / a)^(1/b)], back to Celsius. *)
Definition API_inverse_value (ab : R * R) (temp_C : R) : R :=
  (Rpower ((temp_C + 273.15) * 9.0 / 5.0 / fst ab) (1.0 / snd ab) - 491.67) * 5.0 / 9.0.

(** The key points of [TBP_to_D86]. *)
Definition TBP_key_points : list Z := [0; 10; 30; 50; 70; 90; 95; 100]%Z.

(** A TBP curve given at the eight key points, and what [TBP_to_D86] returns
    on it. *)
Definition curve_TBP : list (R * R) :=
  [(0, 140); (10, 170); (30, 195); (50, 230); (70, 265); (90, 290); (95, 300); (100, 310)].
Definition curve_TBP_as_D86 : list (R * R) :=
  [ (0, API_inverse_value (0.9167, 1.0019) 140); (10, API_inverse_value (0.5277, 1.0900) 170);
    (30, API_inverse_value (0.7429, 1.0425) 195); (50, API_inverse_value (0.8920, 1.0176) 230);
    (70, API_inverse_value (0.8705, 1.0226) 265); (90, API_inverse_value (0.9490, 1.0110) 290);
    (95, API_inverse_value (0.8008, 1.0355) 300); (100, API_inverse_value (0.9167, 1.0019) 310) ].

(** The family tags [Oil.__init__] accepts, compared with the upper-cased tag. *)
Definition accepted_tags : list string := ["D86"; "D2887"; "SIMDIS"; "TBP"]%string.

(** An exception raised by the curve computations, not by the family dispatch. *)
Definition curve_error (e : error) : Prop :=
  match e with
  | UnknownInputType _ => False
  | _ => True
  end.

(** A computation that never raises the unknown-family exception. *)
Definition dispatched {A : Type} (r : result A) : Prop :=
  forall e, r = Err e -> curve_error e.

(** ** Code around the class: exceptions of other kinds *)

(** A computation that returns or raises an exception of type [E]. *)
Inductive outcome (E A : Type) : Type :=
| Returns (a : A)
| Raises (e : E).
Arguments Returns {E A} a.
Arguments Raises {E A} e.

Definition and_then {E A B : Type} (r : outcome E A) (f : A -> outcome E B)
  : outcome E B :=
  match r with
  | Returns a => f a
  | Raises e => Raises e
  end.

Fixpoint for_each {E A B : Type} (f : A -> outcome E B) (l : list A)
  : outcome E (list B) :=
  match l with
  | [] => Returns []
  | a :: l' =>
      and_then (f a) (fun b => and_then (for_each f l') (fun bs => Returns (b :: bs)))
  end.

(** ** [Oil.read_d86_csv]

    The file is given by the rows [csv.reader] yields, each a list of strings.
    The function only stores what [float] returns, so the float type [F] and
    the reading [float] of a string ([None] for a [ValueError]) are
    parameters. *)

Module read_csv.

Inductive exception : Type :=
| StopIteration       (* next() on a reader with no row *)
| IndexError          (* row[i] on a row with too few fields *)
| ValueError          (* float() on a string that is not a number *)
| UnboundLocalError.  (* a local variable read before it is assigned *)

Section read_d86_csv.

Variable F : Type.
Variable float : string -> option F.

(** [row[i]] *)
Definition item (row : list string) (i : nat) : outcome exception string :=
  match nth_error row i with
  | Some s => Returns s
  | None => Raises IndexError
  end.

(** [float(row[i])] *)
Definition float_item (row : list string) (i : nat) : outcome exception F :=
  and_then (item row i)
    (fun s => match float s with
              | Some v => Returns v
              | None => Raises ValueError
              end).

(** The [try] statement on the first row.  Its last statement reads [row],
    which is assigned only by the loop that follows. *)
Definition first_row_block (first_row : list string) : outcome exception unit :=
  match and_then (float_item first_row 0)
          (fun _ => and_then (float_item first_row 1)
                      (fun _ => @Raises exception unit UnboundLocalError)) with
  | Raises ValueError =>
      and_then (item first_row 0)
        (fun x_header => and_then (item first_row 1) (fun y_header => Returns tt))
  | r => r
  end.

(** The body of the loop over the remaining rows. *)
Definition loop_body (row : list string) : outcome exception (F * F) :=
  and_then (float_item row 0)
    (fun x0 => and_then (float_item row 1)
       (fun y0 => and_then (float_item row 0)
          (fun a => and_then (float_item row 1) (fun b => Returns (a, b))))).

Definition read_d86_csv (rows : list (list string)) : outcome exception (list (F * F)) :=
  match rows with
  | [] => Raises StopIteration
  | first_row :: rest =>
      and_then (first_row_block first_row) (fun _ => for_each loop_body rest)
  end.

End read_d86_csv.

End read_csv.

(** A reading of unsigned decimal integers, used as a concrete [float]. *)
Fixpoint digits_value (s : string) (acc : nat) : option nat :=
  match s with
  | EmptyString => Some acc
  | String a s' =>
      let n := nat_of_ascii a in
      if (48 <=? n)%nat && (n <=? 57)%nat then digits_value s' (10 * acc + (n - 48))
      else None
  end.

Definition digits_float (s : string) : option R :=
  match s with
  | EmptyString => None
  | _ => option_map INR (digits_value s 0)
  end.

(** ** The web service: [distillation_api.py] *)

Module distillation_api.

Record DistillationPoint : Type := mkDistillationPoint {
  volume_percent : R;
  temperature_c : R
}.

Record ConversionRequest : Type := mkConversionRequest {
  distillation_data : list DistillationPoint;
  density_kg_m3 : R;
  input_type : string;
  output_types : list string
}.



Inductive exception : Type :=
| NotStrictlyIncreasing            (* ValueError: "Temperatures must be strictly increasing" *)
| OutsideTypicalBounds             (* ValueError: "Temperature range outside typical bounds" *)
| InvalidInputType (s : string)    (* ValueError: "Invalid input_type: ..." *)
| FromOil (e : error).             (* an exception of the class Oil *)

Definition validate_input_data (data : list DistillationPoint) : outcome exception bool :=
  let temps := map temperature_c data in
  if negb (forallb (fun i => PchipInterpolator.Rltb (nth i temps 0) (nth (i + 1) temps 0))
                   (seq 0 (List.length temps - 1)))
  then Raises NotStrictlyIncreasing
  else if existsb (fun t => PchipInterpolator.Rltb t (-50) || PchipInterpolator.Rltb 400 t)
                  temps
  then Raises OutsideTypicalBounds
  else Returns true.

(** The statements of the route [convert_curves] up to and including the
    construction of the sample. *)
Definition convert_curves_oil (request : ConversionRequest) : outcome exception Oil.t :=
  and_then (validate_input_data (distillation_data request))
    (fun _ =>
       let raw_data :=
         map (fun p => (volume_percent p, temperature_c p)) (distillation_data request) in
       if negb (str_in (upper (input_type request)) ["D86"; "D2887"; "TBP"]%string)
       then Raises (InvalidInputType (input_type request))
       else
         match Oil.__init__ raw_data (density_kg_m3 request) (input_type request) with
         | Ok oil => Returns oil
         | Err e => Raises (FromOil e)
         end).

(** The handlers of the route: [except ValueError] answers 400, any other
    exception 500.  A [KeyError] is the one modelled exception that is not a
    [ValueError]. *)
Definition status_code (e : exception) : Z :=
  match e with
  | FromOil KeyError => 500
  | _ => 400
  end.

End distillation_api.

(** A computation whose exceptions all satisfy [P], and the exceptions other
    than the [KeyError] of a dictionary lookup. *)
Definition raises_only {A : Type} (P : error -> Prop) (r : result A) : Prop :=
  forall e, r = Err e -> P e.

Definition not_KeyError (e : error) : Prop := e <> KeyError.

(** * Properties of the embedding *)

(** ** Tactics *)

(** Decide the comparisons of reals met in a goal with [lra]. *)
Ltac rdec_with tac :=
  repeat match goal with
    | |- context [Rlt_dec ?a ?b] =>
        destruct (Rlt_dec a b); [ try (exfalso; tac) | try (exfalso; tac) ]
    | |- context [Rle_dec ?a ?b] =>
        destruct (Rle_dec a b); [ try (exfalso; tac) | try (exfalso; tac) ]
    | |- context [Req_dec_T ?a ?b] =>
        destruct (Req_dec_T a b); [ try (exfalso; tac) | try (exfalso; tac) ]
    end.
Ltac rdec := rdec_with lra.

(** ** Temperature units *)

Lemma convert_C_F (v : R) :
  Oil.convert_temperature v "C" "F" = Ok (v * 9.0 / 5.0 + 32).
Proof. reflexivity. Qed.

Lemma convert_F_C (v : R) :
  Oil.convert_temperature v "F" "C" = Ok ((v - 32) * 5.0 / 9.0).
Proof. reflexivity. Qed.

Lemma convert_C_R (v : R) :
  Oil.convert_temperature v "C" "R" = Ok ((v + 273.15) * 9.0 / 5.0).
Proof. reflexivity. Qed.

Lemma convert_R_C (v : R) :
  Oil.convert_temperature v "R" "C" = Ok ((v - 491.67) * 5.0 / 9.0).
Proof. reflexivity. Qed.

Lemma unit_map_values (k u : string) :
  str_get k Oil.unit_map = Some u ->
  u = "C"%string \/ u = "K"%string \/ u = "F"%string \/ u = "R"%string.
Proof.
  unfold Oil.unit_map; simpl.
  repeat (destruct (String.eqb k _);
          [ intros H; injection H as <-; auto | ]).
  discriminate.
Qed.




(** ** The interpolator *)

Import PchipInterpolator.

Lemma diff_length (l : list R) : List.length (diff l) = pred (List.length l).
Proof.
  induction l as [|a [|b l] IH]; simpl in *; auto.
Qed.

Lemma diff_nth (l : list R) (i : nat) :
  (S i < List.length l)%nat -> nth i (diff l) 0 = nth (S i) l 0 - nth i l 0.
Proof.
  revert i; induction l as [|a [|b l] IH]; intros i Hi; simpl in Hi; try lia.
  destruct i as [|i]; [reflexivity|].
  change (diff (a :: b :: l)) with ((b - a) :: diff (b :: l)).
  change (nth (S i) ((b - a) :: diff (b :: l)) 0) with (nth i (diff (b :: l)) 0).
  rewrite IH by (simpl; lia). reflexivity.
Qed.

Lemma div_lists_length (a b : list R) :
  List.length (div_lists a b) = Nat.min (List.length a) (List.length b).
Proof.
  revert b; induction a as [|u a IH]; intros [|v b]; simpl; auto.
Qed.

Lemma div_lists_nth (a b : list R) (i : nat) :
  (i < List.length a)%nat -> (i < List.length b)%nat ->
  nth i (div_lists a b) 0 = nth i a 0 / nth i b 0.
Proof.
  revert b i; induction a as [|u a IH]; intros [|v b] i Ha Hb; simpl in *; try lia.
  destruct i; [reflexivity|]. apply IH; lia.
Qed.

Lemma interior_length (hk mk : list R) :
  List.length hk = List.length mk ->
  List.length (interior hk mk) = pred (List.length hk).
Proof.
  revert mk; induction hk as [|h0 [|h1 hk] IH]; intros [|m0 [|m1 mk]] H;
    simpl in *; try lia; auto.
  f_equal. apply (IH (m1 :: mk)). simpl. lia.
Qed.

Lemma interior_nth (hk mk : list R) (i : nat) :
  List.length hk = List.length mk -> (S i < List.length hk)%nat ->
  nth i (interior hk mk) 0
  = interior_derivative (nth i hk 0) (nth (S i) hk 0) (nth i mk 0) (nth (S i) mk 0).
Proof.
  revert mk i; induction hk as [|h0 [|h1 hk] IH]; intros [|m0 [|m1 mk]] i H Hi;
    simpl in H, Hi; try lia.
  destruct i as [|i]; [reflexivity|].
  change (nth (S i) (interior (h0 :: h1 :: hk) (m0 :: m1 :: mk)) 0)
    with (nth i (interior (h1 :: hk) (m1 :: mk)) 0).
  rewrite (IH (m1 :: mk)) by (simpl; lia). reflexivity.
Qed.

Lemma hermite_length (x y d : list R) :
  List.length x = List.length y -> List.length x = List.length d ->
  List.length (hermite x y d) = pred (List.length x).
Proof.
  revert y d; induction x as [|x0 [|x1 x] IH]; intros [|y0 [|y1 y]] [|d0 [|d1 d]] H1 H2;
    simpl in *; try lia; auto.
  f_equal. apply (IH (y1 :: y) (d1 :: d)); simpl; lia.
Qed.

Lemma hermite_nth (x y d : list R) (i : nat) :
  List.length x = List.length y -> List.length x = List.length d ->
  (S i < List.length x)%nat ->
  nth i (hermite x y d) (0, 0, 0, 0)
  = segment (nth i x 0) (nth (S i) x 0) (nth i y 0) (nth (S i) y 0)
            (nth i d 0) (nth (S i) d 0).
Proof.
  revert y d i; induction x as [|x0 [|x1 x] IH];
    intros [|y0 [|y1 y]] [|d0 [|d1 d]] i H1 H2 Hi; simpl in H1, H2, Hi; try lia.
  destruct i as [|i]; [reflexivity|].
  change (nth (S i) (hermite (x0 :: x1 :: x) (y0 :: y1 :: y) (d0 :: d1 :: d)) (0,0,0,0))
    with (nth i (hermite (x1 :: x) (y1 :: y) (d1 :: d)) (0,0,0,0)).
  rewrite (IH (y1 :: y) (d1 :: d)) by (simpl; lia). reflexivity.
Qed.

Lemma Rleb_false (a b : R) : Rleb a b = false <-> b < a.
Proof. unfold Rleb; destruct (Rle_dec a b); split; intros; try discriminate; try lra; auto. Qed.

Lemma existsb_nth_false (f : R -> bool) (l : list R) :
  existsb f l = false <-> forall i, (i < List.length l)%nat -> f (nth i l 0) = false.
Proof.
  induction l as [|a l IH]; simpl.
  - split; auto. intros _ i Hi; lia.
  - rewrite orb_false_iff, IH. split.
    + intros [Ha Hl] [|i] Hi; auto. apply Hl; lia.
    + intros H; split; [apply (H 0%nat); lia | intros i Hi; apply (H (S i)); lia].
Qed.

Lemma prepare_input_ok (x y : list R) :
  prepare_input x y = Ok tt <->
  (2 <= List.length x)%nat /\ List.length x = List.length y /\ increasing x.
Proof.
  unfold prepare_input.
  destruct (Nat.ltb_spec (List.length x) 2) as [H2|H2].
  { split; [discriminate | lia]. }
  destruct (Nat.eqb_spec (List.length x) (List.length y)) as [He|He]; simpl.
  2: { split; [discriminate | intros (_ & E & _); contradiction]. }
  destruct (existsb (fun dx => Rleb dx 0) (diff x)) eqn:E.
  - split; [discriminate|]. intros (_ & _ & Hinc).
    assert (existsb (fun dx => Rleb dx 0) (diff x) = false); [|congruence].
    apply existsb_nth_false. intros i Hi. rewrite diff_length in Hi.
    apply Rleb_false. rewrite diff_nth by lia.
    specialize (Hinc i ltac:(lia)). lra.
  - split; [intros _ | reflexivity]. repeat split; auto.
    intros i Hi. rewrite existsb_nth_false in E.
    specialize (E i). rewrite diff_length in E. specialize (E ltac:(lia)).
    apply Rleb_false in E. rewrite diff_nth in E by lia. lra.
Qed.

Lemma pos_combination (w1 w2 w3 w4 v1 v2 v3 v4 : R) :
  0 <= w1 -> 0 <= w2 -> 0 <= w3 -> 0 <= w4 -> 0 < w1 + w2 + w3 + w4 ->
  0 < v1 -> 0 < v2 -> 0 < v3 -> 0 < v4 ->
  0 < w1 * v1 + w2 * v2 + w3 * v3 + w4 * v4.
Proof.
  intros.
  assert (0 <= w1 * v1) by (apply Rmult_le_pos; lra).
  assert (0 <= w2 * v2) by (apply Rmult_le_pos; lra).
  assert (0 <= w3 * v3) by (apply Rmult_le_pos; lra).
  assert (0 <= w4 * v4) by (apply Rmult_le_pos; lra).
  destruct (Rlt_le_dec 0 w1) as [P|P]; [assert (0 < w1 * v1) by (apply Rmult_lt_0_compat; lra); lra|].
  destruct (Rlt_le_dec 0 w2) as [P2|P2]; [assert (0 < w2 * v2) by (apply Rmult_lt_0_compat; lra); lra|].
  destruct (Rlt_le_dec 0 w3) as [P3|P3]; [assert (0 < w3 * v3) by (apply Rmult_lt_0_compat; lra); lra|].
  assert (0 < w4) by lra.
  assert (0 < w4 * v4) by (apply Rmult_lt_0_compat; lra); lra.
Qed.

Lemma sq_form_pos (X Y : R) : X <> Y -> 0 < X * X + X * Y + Y * Y.
Proof.
  intros H.
  assert (0 < (X - Y) * (X - Y)) by (apply Rsqr_pos_lt; lra).
  assert (0 <= (X + Y) * (X + Y)) by apply Rle_0_sqr.
  nra.
Qed.

Lemma segment_increasing (x0 x1 y0 y1 d0 d1 s1 s2 : R) :
  x0 < x1 -> y0 < y1 ->
  0 <= d0 <= 3 * ((y1 - y0) / (x1 - x0)) ->
  0 <= d1 <= 3 * ((y1 - y0) / (x1 - x0)) ->
  0 <= s1 -> s1 < s2 -> s2 <= x1 - x0 ->
  evaluate_poly1 s1 (segment x0 x1 y0 y1 d0 d1)
  < evaluate_poly1 s2 (segment x0 x1 y0 y1 d0 d1).
Proof.
  intros Hx Hy Hd0 Hd1 Hs1 Hs Hs2.
  unfold evaluate_poly1, segment.
  set (h := x1 - x0) in *.
  set (m := (y1 - y0) / h) in *.
  assert (Hh : 0 < h) by (unfold h; lra).
  assert (Hm : 0 < m) by (unfold m; apply Rdiv_lt_0_compat; lra).
  set (a := s1) in *. set (b := s2) in *.
  set (A := h - a). set (B := h - b).
  assert (V00 : 0 < 3 * h * (a + b) - 2 * (a * a + a * b + b * b)).
  { assert (0 <= a * (h - a)) by (apply Rmult_le_pos; lra).
    assert (0 <= b * (h - b)) by (apply Rmult_le_pos; lra).
    assert (0 < b * (h - a)) by (apply Rmult_lt_0_compat; lra).
    assert (0 <= a * (h - b)) by (apply Rmult_le_pos; lra).
    nra. }
  assert (V10 : 0 < A * A + A * B + B * B) by (apply sq_form_pos; unfold A, B; lra).
  assert (V01 : 0 < a * a + a * b + b * b) by (apply sq_form_pos; lra).
  assert (V11 : 0 < (h - 2 * a) * (h - 2 * a) + (h - 2 * a) * (h - 2 * b) + (h - 2 * b) * (h - 2 * b))
    by (apply sq_form_pos; lra).
  pose proof (pos_combination
                ((3 * m - d0) * (3 * m - d1)) (d0 * (3 * m - d1))
                ((3 * m - d0) * d1) (d0 * d1)
                (m * (3 * h * (a + b) - 2 * (a * a + a * b + b * b)))
                (m * (A * A + A * B + B * B))
                (m * (a * a + a * b + b * b))
                (m * ((h - 2 * a) * (h - 2 * a) + (h - 2 * a) * (h - 2 * b) + (h - 2 * b) * (h - 2 * b)))) as P.
  assert (Hsum : 0 < (3 * m - d0) * (3 * m - d1) + d0 * (3 * m - d1) + (3 * m - d0) * d1 + d0 * d1).
  { replace ((3 * m - d0) * (3 * m - d1) + d0 * (3 * m - d1) + (3 * m - d0) * d1 + d0 * d1) with (9 * (m * m)) by ring. nra. }
  specialize (P ltac:(apply Rmult_le_pos; lra) ltac:(apply Rmult_le_pos; lra)
                ltac:(apply Rmult_le_pos; lra) ltac:(apply Rmult_le_pos; lra) Hsum
                ltac:(apply Rmult_lt_0_compat; lra) ltac:(apply Rmult_lt_0_compat; lra)
                ltac:(apply Rmult_lt_0_compat; lra) ltac:(apply Rmult_lt_0_compat; lra)).
  apply Rlt_0_minus.
  match goal with |- 0 < ?e =>
    replace e with ((b - a) * / (9 * (m * m) * (h * h)) *
      ((3 * m - d0) * (3 * m - d1) * (m * (3 * h * (a + b) - 2 * (a * a + a * b + b * b))) +
       d0 * (3 * m - d1) * (m * (A * A + A * B + B * B)) +
       (3 * m - d0) * d1 * (m * (a * a + a * b + b * b)) +
       d0 * d1 * (m * ((h - 2 * a) * (h - 2 * a) + (h - 2 * a) * (h - 2 * b) + (h - 2 * b) * (h - 2 * b)))))
  end.
  - apply Rmult_lt_0_compat; [ | exact P].
    apply Rmult_lt_0_compat; [lra | ].
    apply Rinv_0_lt_compat. 
    assert (0 < m * m) by (apply Rmult_lt_0_compat; lra).
    assert (0 < h * h) by (apply Rmult_lt_0_compat; lra).
    assert (0 < (m * m) * (h * h)) by (apply Rmult_lt_0_compat; lra). lra.
  - unfold A, B. field. split; lra.
Qed.

(** Spacings and slopes as entries of [hk] and [mk]. *)
Lemma hk_nth (x : list R) (i : nat) :
  (S i < List.length x)%nat -> nth i (diff x) 0 = spacing x i.
Proof. intros; unfold spacing; now apply diff_nth. Qed.

Lemma mk_nth (x y : list R) (i : nat) :
  List.length x = List.length y -> (S i < List.length x)%nat ->
  nth i (div_lists (diff y) (diff x)) 0 = slope x y i.
Proof.
  intros E Hi. unfold slope, spacing.
  rewrite div_lists_nth by (rewrite diff_length; lia).
  rewrite !diff_nth by lia. reflexivity.
Qed.

Lemma mk_length (x y : list R) :
  List.length x = List.length y ->
  List.length (div_lists (diff y) (diff x)) = pred (List.length x).
Proof. intros E. rewrite div_lists_length, !diff_length. lia. Qed.

Lemma find_derivatives_length (x y : list R) :
  (2 <= List.length x)%nat -> List.length x = List.length y ->
  List.length (_find_derivatives x y) = List.length x.
Proof.
  intros H2 E. unfold _find_derivatives.
  destruct y as [|a [|b [|c0 y]]]; simpl in E; try lia.
  - simpl. lia.
  - cbn [List.length]. rewrite length_app, interior_length.
    + rewrite diff_length. simpl. lia.
    + rewrite mk_length by (simpl; lia). rewrite diff_length. reflexivity.
Qed.

Lemma find_derivatives_two (x y : list R) :
  List.length x = 2%nat -> List.length y = 2%nat ->
  _find_derivatives x y = [slope x y 0; slope x y 0].
Proof.
  intros Hx Hy. unfold _find_derivatives.
  destruct y as [|a [|b [|c0 y]]]; simpl in Hy; try lia.
  rewrite mk_nth by (simpl; lia). reflexivity.
Qed.

Lemma find_derivatives_first (x y : list R) :
  (3 <= List.length x)%nat -> List.length x = List.length y ->
  nth 0 (_find_derivatives x y) 0
  = _edge_case (spacing x 0) (spacing x 1) (slope x y 0) (slope x y 1).
Proof.
  intros H3 E. unfold _find_derivatives.
  destruct y as [|a [|b [|c0 y]]]; simpl in E; try lia.
  cbn [nth]. rewrite !hk_nth, !mk_nth by (simpl; lia). reflexivity.
Qed.

Lemma find_derivatives_inner (x y : list R) (i : nat) :
  (3 <= List.length x)%nat -> List.length x = List.length y ->
  (S (S i) < List.length x)%nat ->
  nth (S i) (_find_derivatives x y) 0
  = interior_derivative (spacing x i) (spacing x (S i)) (slope x y i) (slope x y (S i)).
Proof.
  intros H3 E Hi. unfold _find_derivatives.
  destruct y as [|a [|b [|c0 y]]]; simpl in E; try lia.
  cbn [nth].
  assert (El : List.length (diff x) = List.length (div_lists (diff (a :: b :: c0 :: y)) (diff x))).
  { rewrite mk_length by (simpl; lia). now rewrite diff_length. }
  rewrite app_nth1 by (rewrite interior_length by exact El; rewrite diff_length; lia).
  rewrite interior_nth by (try exact El; rewrite diff_length; lia).
  rewrite !hk_nth, !mk_nth by (simpl; lia). reflexivity.
Qed.

Lemma find_derivatives_last (x y : list R) (n : nat) :
  List.length x = S (S (S n)) -> List.length x = List.length y ->
  nth (S (S n)) (_find_derivatives x y) 0
  = _edge_case (spacing x (S n)) (spacing x n) (slope x y (S n)) (slope x y n).
Proof.
  intros H3 E. unfold _find_derivatives.
  destruct y as [|a [|b [|c0 y]]]; simpl in E; try lia.
  cbn [nth].
  assert (El : List.length (diff x) = List.length (div_lists (diff (a :: b :: c0 :: y)) (diff x))).
  { rewrite mk_length by (simpl; lia). now rewrite diff_length. }
  assert (Li : List.length (interior (diff x) (div_lists (diff (a :: b :: c0 :: y)) (diff x))) = S n).
  { rewrite interior_length by exact El. rewrite diff_length. lia. }
  rewrite app_nth2 by lia. rewrite Li, Nat.sub_diag. cbn [nth].
  rewrite diff_length, H3.
  replace (pred (S (S (S n))) - 1)%nat with (S n) by lia.
  replace (pred (S (S (S n))) - 2)%nat with n by lia.
  rewrite !hk_nth, !mk_nth by (simpl; lia). reflexivity.
Qed.

Lemma sign_pos (v : R) : 0 < v -> sign v = 1.
Proof. intros; unfold sign; rdec; reflexivity. Qed.

Lemma sign_neg (v : R) : v < 0 -> sign v = -1.
Proof. intros; unfold sign; rdec; reflexivity. Qed.

Lemma sign_zero : sign 0 = 0.
Proof. unfold sign; rdec; reflexivity. Qed.

Lemma Rneqb_refl (a : R) : Rneqb a a = false.
Proof. unfold Rneqb. destruct (Req_dec_T a a); [reflexivity | contradiction]. Qed.

Lemma Rneqb_diff (a b : R) : a <> b -> Rneqb a b = true.
Proof. intros; unfold Rneqb. destruct (Req_dec_T a b); [contradiction | reflexivity]. Qed.

Lemma Reqb_diff (a b : R) : a <> b -> Reqb a b = false.
Proof. intros; unfold Reqb. destruct (Req_dec_T a b); [contradiction | reflexivity]. Qed.

Lemma edge_case_bounds (h0 h1 m0 m1 : R) :
  0 < h0 -> 0 < h1 -> 0 < m0 -> 0 < m1 ->
  0 <= _edge_case h0 h1 m0 m1 <= 3 * m0.
Proof.
  intros Hh0 Hh1 Hm0 Hm1. unfold _edge_case.
  set (d := ((2 * h0 + h1) * m0 - h0 * m1) / (h0 + h1)).
  assert (Hd : d * (h0 + h1) = (2 * h0 + h1) * m0 - h0 * m1)
    by (unfold d; field; lra).
  assert (Hup : d <= 3 * m0).
  { apply Rmult_le_reg_r with (h0 + h1); [lra|]. rewrite Hd.
    assert (0 < h0 * m1) by (apply Rmult_lt_0_compat; lra).
    assert (0 < h0 * m0) by (apply Rmult_lt_0_compat; lra).
    assert (0 < h1 * m0) by (apply Rmult_lt_0_compat; lra).
    nra. }
  rewrite (sign_pos m0), (sign_pos m1) by assumption.
  rewrite (Rneqb_refl 1). cbn [andb].
  destruct (Rlt_dec 0 d) as [P|N].
  - rewrite (sign_pos d) by assumption. rewrite Rneqb_refl. lra.
  - rewrite Rneqb_diff; [lra|].
    unfold sign. destruct (Rlt_dec 0 d); [contradiction|].
    destruct (Rlt_dec d 0); lra.
Qed.

Lemma interior_derivative_pos (h0 h1 m0 m1 : R) :
  0 < h0 -> 0 < h1 -> 0 < m0 -> 0 < m1 ->
  interior_derivative h0 h1 m0 m1
  = (3 * (h0 + h1)) * m0 * m1 / ((2 * h1 + h0) * m1 + (h1 + 2 * h0) * m0).
Proof.
  intros Hh0 Hh1 Hm0 Hm1. unfold interior_derivative.
  rewrite (sign_pos m0), (sign_pos m1) by assumption.
  rewrite Rneqb_refl, !Reqb_diff by lra. cbn [orb].
  assert (0 < (2 * h1 + h0) * m1) by (apply Rmult_lt_0_compat; lra).
  assert (0 < (h1 + 2 * h0) * m0) by (apply Rmult_lt_0_compat; lra).
  field. repeat split; lra.
Qed.

Lemma interior_derivative_bounds (h0 h1 m0 m1 : R) :
  0 < h0 -> 0 < h1 -> 0 < m0 -> 0 < m1 ->
  0 <= interior_derivative h0 h1 m0 m1 <= 3 * m0
  /\ interior_derivative h0 h1 m0 m1 <= 3 * m1.
Proof.
  intros Hh0 Hh1 Hm0 Hm1. rewrite interior_derivative_pos by assumption.
  set (D := (2 * h1 + h0) * m1 + (h1 + 2 * h0) * m0).
  assert (P1 : 0 < h1 * m1) by (apply Rmult_lt_0_compat; lra).
  assert (P2 : 0 < h0 * m1) by (apply Rmult_lt_0_compat; lra).
  assert (P3 : 0 < h1 * m0) by (apply Rmult_lt_0_compat; lra).
  assert (P4 : 0 < h0 * m0) by (apply Rmult_lt_0_compat; lra).
  assert (HD : 0 < D) by (unfold D; nra).
  assert (Hm : 0 < m0 * m1) by (apply Rmult_lt_0_compat; lra).
  assert (Q1 : 0 < h0 * (m0 * m1)) by (apply Rmult_lt_0_compat; lra).
  assert (Q2 : 0 < h1 * (m0 * m1)) by (apply Rmult_lt_0_compat; lra).
  assert (Q3 : 0 < h0 * (m0 * m0)) by (apply Rmult_lt_0_compat; nra).
  assert (Q4 : 0 < h1 * (m0 * m0)) by (apply Rmult_lt_0_compat; nra).
  assert (Q5 : 0 < h0 * (m1 * m1)) by (apply Rmult_lt_0_compat; nra).
  assert (Q6 : 0 < h1 * (m1 * m1)) by (apply Rmult_lt_0_compat; nra).
  repeat split.
  - apply Rlt_le, Rdiv_lt_0_compat; [nra | exact HD].
  - apply Rmult_le_reg_r with D; [exact HD|].
    unfold Rdiv. rewrite Rmult_assoc, Rinv_l by lra. unfold D. nra.
  - apply Rmult_le_reg_r with D; [exact HD|].
    unfold Rdiv. rewrite Rmult_assoc, Rinv_l by lra. unfold D. nra.
Qed.

Lemma increasing_spacing (x : list R) (i : nat) :
  increasing x -> (S i < List.length x)%nat -> 0 < spacing x i.
Proof. intros H Hi. specialize (H i Hi). unfold spacing. lra. Qed.

Lemma increasing_slope (x y : list R) (i : nat) :
  increasing x -> increasing y -> List.length x = List.length y ->
  (S i < List.length x)%nat -> 0 < slope x y i.
Proof.
  intros Hx Hy E Hi. unfold slope.
  apply Rdiv_lt_0_compat; [|now apply increasing_spacing].
  specialize (Hy i ltac:(lia)). lra.
Qed.

Lemma derivative_bounds (x y : list R) (i : nat) :
  increasing x -> increasing y -> List.length x = List.length y ->
  (S i < List.length x)%nat ->
  0 <= nth i (_find_derivatives x y) 0 <= 3 * slope x y i
  /\ 0 <= nth (S i) (_find_derivatives x y) 0 <= 3 * slope x y i.
Proof.
  intros Hx Hy E Hi.
  assert (Hh : forall j, (S j < List.length x)%nat -> 0 < spacing x j)
    by (intros; now apply increasing_spacing).
  assert (Hm : forall j, (S j < List.length x)%nat -> 0 < slope x y j)
    by (intros; now apply increasing_slope).
  destruct (Nat.eq_dec (List.length x) 2) as [E2|N2].
  - rewrite find_derivatives_two by lia.
    assert (i = 0%nat) by lia. subst i. cbn [nth].
    specialize (Hm 0%nat Hi). lra.
  - assert (H3 : (3 <= List.length x)%nat) by lia.
    split.
    + destruct i as [|i].
      * rewrite find_derivatives_first by assumption.
        apply edge_case_bounds; auto; apply Hh || apply Hm; lia.
      * rewrite find_derivatives_inner by (try assumption; lia).
        destruct (interior_derivative_bounds (spacing x i) (spacing x (S i))
                    (slope x y i) (slope x y (S i))) as [[A B] C];
          try (apply Hh || apply Hm; lia). lra.
    + destruct (Nat.eq_dec (S (S i)) (List.length x)) as [El|Nl].
      * destruct i as [|i]; [lia|].
        rewrite (find_derivatives_last x y i) by (try assumption; lia).
        apply edge_case_bounds; apply Hh || apply Hm; lia.
      * rewrite find_derivatives_inner by (try assumption; lia).
        destruct (interior_derivative_bounds (spacing x i) (spacing x (S i))
                    (slope x y i) (slope x y (S i))) as [[A B] C];
          try (apply Hh || apply Hm; lia). lra.
Qed.

(** The interval chosen for an abscissa. *)
Lemma find_interval_spec (x : list R) (v : R) :
  (2 <= List.length x)%nat ->
  let i := find_interval x v in
  (S i < List.length x)%nat
  /\ ((S (S i) < List.length x)%nat -> v < nth (S i) x 0)
  /\ ((0 < i)%nat -> nth i x 0 <= v).
Proof.
  induction x as [|x0 [|x1 [|x2 x]] IH]; intros H2; simpl in H2; try lia.
  - simpl. repeat split; intros; lia.
  - specialize (IH ltac:(simpl; lia)).
    change (find_interval (x0 :: x1 :: x2 :: x) v)
      with (if Rlt_dec v x1 then 0%nat else S (find_interval (x1 :: x2 :: x) v)).
    destruct (Rlt_dec v x1) as [L|L].
    + cbn zeta. repeat split; [simpl; lia | intros _; exact L | intros; lia].
    + cbn zeta in *. destruct IH as (A & B & C6).
      set (j := find_interval (x1 :: x2 :: x) v) in *.
      repeat split.
      * simpl in *; lia.
      * intros Hj. apply B. simpl in *; lia.
      * intros _. change (nth (S j) (x0 :: x1 :: x2 :: x) 0) with (nth j (x1 :: x2 :: x) 0).
        destruct j as [|j]; [simpl; lra | apply C6; lia].
Qed.

Lemma find_interval_mono (x : list R) (v1 v2 : R) :
  v1 <= v2 -> (find_interval x v1 <= find_interval x v2)%nat.
Proof.
  intros Hv. induction x as [|x0 [|x1 [|x2 x]] IH]; simpl; try lia.
  change (find_interval (x1 :: x2 :: x) v1) with (find_interval (x1 :: x2 :: x) v1) in IH.
  destruct (Rlt_dec v1 x1), (Rlt_dec v2 x1); try lia; try lra.
  apply le_n_S. exact IH.
Qed.

Lemma increasing_lt (l : list R) (i j : nat) :
  increasing l -> (i < j)%nat -> (j < List.length l)%nat -> nth i l 0 < nth j l 0.
Proof.
  intros H Hij Hj. induction j as [|j IH]; [lia|].
  destruct (Nat.eq_dec i j) as [->|N].
  - apply H; lia.
  - apply Rlt_trans with (nth j l 0); [apply IH; lia | apply H; lia].
Qed.

Lemma increasing_le (l : list R) (i j : nat) :
  increasing l -> (i <= j)%nat -> (j < List.length l)%nat -> nth i l 0 <= nth j l 0.
Proof.
  intros H Hij Hj. destruct (Nat.eq_dec i j) as [->|N]; [lra|].
  apply Rlt_le, increasing_lt; auto; lia.
Qed.

Lemma find_interval_lower (x : list R) (v : R) :
  (2 <= List.length x)%nat -> nth 0 x 0 <= v -> nth (find_interval x v) x 0 <= v.
Proof.
  intros H2 H0. destruct (find_interval_spec x v H2) as (_ & _ & C6).
  destruct (find_interval x v); [exact H0 | apply C6; lia].
Qed.

Lemma find_interval_upper (x : list R) (v : R) :
  (2 <= List.length x)%nat -> v <= nth (List.length x - 1) x 0 ->
  v <= nth (S (find_interval x v)) x 0.
Proof.
  intros H2 Hl. destruct (find_interval_spec x v H2) as (A & B & _).
  destruct (Nat.eq_dec (S (S (find_interval x v))) (List.length x)) as [E|N].
  - replace (S (find_interval x v)) with (List.length x - 1)%nat by lia. exact Hl.
  - apply Rlt_le, B. lia.
Qed.

(** The value of an interpolant, through the segment that is used. *)
Lemma call_segment (x y : list R) (p : t) (v : R) :
  __init__ x y = Ok p ->
  let i := find_interval x v in
  __call__ p v
  = evaluate_poly1 (v - nth i x 0)
      (segment (nth i x 0) (nth (S i) x 0) (nth i y 0) (nth (S i) y 0)
               (nth i (_find_derivatives x y) 0) (nth (S i) (_find_derivatives x y) 0)).
Proof.
  unfold __init__. destruct (prepare_input x y) as [[]|e] eqn:E; [|discriminate].
  cbn [bind]. intros H; injection H as <-.
  apply prepare_input_ok in E. destruct E as (H2 & El & Hinc).
  cbn zeta. unfold __call__. cbn [PchipInterpolator.x PchipInterpolator.c].
  destruct (find_interval_spec x v H2) as (A & _).
  rewrite hermite_nth; auto.
  rewrite find_derivatives_length; auto.
Qed.

Lemma init_ok (x y : list R) (p : t) :
  __init__ x y = Ok p ->
  (2 <= List.length x)%nat /\ List.length x = List.length y /\ increasing x
  /\ PchipInterpolator.x p = x.
Proof.
  unfold __init__. destruct (prepare_input x y) as [[]|e] eqn:E; [|discriminate].
  cbn [bind]. intros H; injection H as <-.
  apply prepare_input_ok in E. tauto.
Qed.

Lemma init_succeeds (x y : list R) :
  (2 <= List.length x)%nat -> List.length x = List.length y -> increasing x ->
  exists p, __init__ x y = Ok p.
Proof.
  intros H2 E Hi. unfold __init__.
  assert (P : prepare_input x y = Ok tt) by (apply prepare_input_ok; auto).
  rewrite P. cbn [bind]. eexists; reflexivity.
Qed.

Lemma segment_left (x0 x1 y0 y1 d0 d1 : R) :
  evaluate_poly1 0 (segment x0 x1 y0 y1 d0 d1) = y0.
Proof. unfold evaluate_poly1, segment. ring. Qed.

Lemma segment_right (x0 x1 y0 y1 d0 d1 : R) :
  x0 <> x1 -> evaluate_poly1 (x1 - x0) (segment x0 x1 y0 y1 d0 d1) = y1.
Proof. intros H. unfold evaluate_poly1, segment. field. lra. Qed.

(** The interpolant passes through its knots. *)
Lemma call_at_knot (x y : list R) (p : t) (k : nat) :
  __init__ x y = Ok p -> (k < List.length x)%nat ->
  __call__ p (nth k x 0) = nth k y 0.
Proof.
  intros Hp Hk. rewrite (call_segment x y p _ Hp). cbn zeta.
  destruct (init_ok _ _ _ Hp) as (H2 & El & Hinc & _).
  set (v := nth k x 0). set (i := find_interval x v).
  destruct (find_interval_spec x v H2) as (A & B & C6). fold i in A, B, C6.
  assert (Lo : nth i x 0 <= v).
  { apply find_interval_lower; auto. apply increasing_le; auto; lia. }
  assert (Up : v <= nth (S i) x 0).
  { apply find_interval_upper; auto. apply increasing_le; auto; lia. }
  assert (Hik : (i <= k)%nat).
  { destruct (Nat.le_gt_cases i k); auto.
    assert (nth k x 0 < nth i x 0) by (apply increasing_lt; auto; lia).
    unfold v in Lo; lra. }
  assert (Hki : (k <= S i)%nat).
  { destruct (Nat.le_gt_cases k (S i)); auto.
    assert (nth (S i) x 0 < nth k x 0) by (apply increasing_lt; auto; lia).
    unfold v in Up; lra. }
  destruct (Nat.eq_dec i k) as [E|N].
  - unfold v. rewrite E. replace (nth k x 0 - nth k x 0) with 0 by ring.
    apply segment_left.
  - assert (Ek : k = S i) by lia. unfold v. rewrite Ek.
    apply segment_right. specialize (Hinc i A). lra.
Qed.

(** Between two knots with increasing ordinates the interpolant is strictly
    increasing. *)
Lemma call_segment_increasing (x y : list R) (i : nat) (a b : R) :
  increasing x -> increasing y -> List.length x = List.length y ->
  (S i < List.length x)%nat ->
  nth i x 0 <= a -> a < b -> b <= nth (S i) x 0 ->
  evaluate_poly1 (a - nth i x 0)
      (segment (nth i x 0) (nth (S i) x 0) (nth i y 0) (nth (S i) y 0)
               (nth i (_find_derivatives x y) 0) (nth (S i) (_find_derivatives x y) 0))
  < evaluate_poly1 (b - nth i x 0)
      (segment (nth i x 0) (nth (S i) x 0) (nth i y 0) (nth (S i) y 0)
               (nth i (_find_derivatives x y) 0) (nth (S i) (_find_derivatives x y) 0)).
Proof.
  intros Hx Hy El Hi Ha Hab Hb.
  destruct (derivative_bounds x y i Hx Hy El Hi) as [D0 D1].
  unfold slope, spacing in D0, D1.
  apply segment_increasing; auto; try lra.
  apply Hy; lia.
Qed.

Theorem pchip_increasing (x y : list R) (p : t) (v1 v2 : R) :
  __init__ x y = Ok p -> increasing y ->
  nth 0 x 0 <= v1 -> v1 < v2 -> v2 <= nth (List.length x - 1) x 0 ->
  __call__ p v1 < __call__ p v2.
Proof.
  intros Hp Hy H1 H12 H2.
  destruct (init_ok _ _ _ Hp) as (Hn & El & Hx & _).
  rewrite (call_segment x y p v1 Hp), (call_segment x y p v2 Hp). cbn zeta.
  set (i1 := find_interval x v1). set (i2 := find_interval x v2).
  destruct (find_interval_spec x v1 Hn) as (A1 & B1 & C1). fold i1 in A1, B1, C1.
  destruct (find_interval_spec x v2 Hn) as (A2 & B2 & C2). fold i2 in A2, B2, C2.
  assert (L1 : nth i1 x 0 <= v1) by (apply find_interval_lower; auto).
  assert (L2 : nth i2 x 0 <= v2) by (apply find_interval_lower; auto; lra).
  assert (U2 : v2 <= nth (S i2) x 0) by (apply find_interval_upper; auto).
  assert (M : (i1 <= i2)%nat) by (apply find_interval_mono; lra).
  destruct (Nat.eq_dec i1 i2) as [E|N].
  - rewrite E in *. apply call_segment_increasing; auto.
  - assert (U1 : v1 < nth (S i1) x 0) by (apply B1; lia).
    pose proof (call_segment_increasing x y i1 v1 (nth (S i1) x 0) Hx Hy El A1 L1 U1
                  ltac:(lra)) as S1.
    rewrite segment_right in S1 by (specialize (Hx i1 A1); lra).
    assert (S2 : nth (S i1) y 0 <= nth i2 y 0)
      by (apply increasing_le; auto; lia).
    assert (S3 : nth i2 y 0 <=
       evaluate_poly1 (v2 - nth i2 x 0)
         (segment (nth i2 x 0) (nth (S i2) x 0) (nth i2 y 0) (nth (S i2) y 0)
            (nth i2 (_find_derivatives x y) 0) (nth (S i2) (_find_derivatives x y) 0))).
    { destruct (Req_dec_T (nth i2 x 0) v2) as [E|NE].
      - rewrite <- E. replace (nth i2 x 0 - nth i2 x 0) with 0 by ring.
        rewrite segment_left. lra.
      - pose proof (call_segment_increasing x y i2 (nth i2 x 0) v2 Hx Hy El A2
                      ltac:(lra) ltac:(lra) U2) as S3.
        replace (nth i2 x 0 - nth i2 x 0) with 0 in S3 by ring.
        rewrite segment_left in S3. lra. }
    lra.
Qed.

(** *** An increasing affine change of the ordinates *)

Lemma sign_scale (al v : R) : 0 < al -> sign (al * v) = sign v.
Proof.
  intros Ha.
  destruct (Rtotal_order v 0) as [N | [Z | P]].
  - rewrite !sign_neg; auto. nra.
  - subst v. now rewrite Rmult_0_r.
  - rewrite !sign_pos; auto. nra.
Qed.

Lemma edge_case_scale (al h0 h1 m0 m1 : R) :
  0 < al ->
  _edge_case h0 h1 (al * m0) (al * m1) = al * _edge_case h0 h1 m0 m1.
Proof.
  intros Ha. unfold _edge_case.
  replace (((2 * h0 + h1) * (al * m0) - h0 * (al * m1)) / (h0 + h1))
    with (al * (((2 * h0 + h1) * m0 - h0 * m1) / (h0 + h1)))
    by (unfold Rdiv; ring).
  set (d := ((2 * h0 + h1) * m0 - h0 * m1) / (h0 + h1)).
  rewrite !sign_scale by assumption.
  rewrite !Rabs_mult, (Rabs_pos_eq al) by lra.
  assert (E : Rltb (3 * (al * Rabs m0)) (al * Rabs d) = Rltb (3 * Rabs m0) (Rabs d)).
  { unfold Rltb. destruct (Rlt_dec (3 * (al * Rabs m0)) (al * Rabs d)),
      (Rlt_dec (3 * Rabs m0) (Rabs d)); auto; exfalso; nra. }
  rewrite E.
  destruct (Rneqb (sign d) (sign m0)); [ring|].
  destruct (Rneqb (sign m0) (sign m1) && Rltb (3 * Rabs m0) (Rabs d)); ring.
Qed.

Lemma Reqb_scale (al v : R) : 0 < al -> Reqb (al * v) 0 = Reqb v 0.
Proof.
  intros Ha. unfold Reqb.
  destruct (Req_dec_T (al * v) 0), (Req_dec_T v 0); auto; exfalso; nra.
Qed.

Lemma interior_derivative_scale (al h0 h1 m0 m1 : R) :
  0 < al ->
  interior_derivative h0 h1 (al * m0) (al * m1) = al * interior_derivative h0 h1 m0 m1.
Proof.
  intros Ha. unfold interior_derivative.
  rewrite !sign_scale, !Reqb_scale by assumption.
  destruct (Rneqb (sign m1) (sign m0) || Reqb m1 0 || Reqb m0 0); [ring|].
  unfold Rdiv. rewrite !(Rinv_mult al).
  replace ((2 * h1 + h0) * (/ al * / m0) + (h1 + 2 * h0) * (/ al * / m1))
    with (/ al * ((2 * h1 + h0) * / m0 + (h1 + 2 * h0) * / m1)) by ring.
  rewrite !Rinv_mult, !Rinv_inv. ring.
Qed.

Lemma nth_map_in (f : R -> R) (l : list R) (i : nat) :
  (i < List.length l)%nat -> nth i (map f l) 0 = f (nth i l 0).
Proof.
  intros Hi. rewrite (nth_indep _ 0 (f 0)) by (rewrite length_map; exact Hi).
  apply map_nth.
Qed.

Lemma slope_affine (al be : R) (x y : list R) (i : nat) :
  (S i < List.length y)%nat ->
  slope x (map (fun v => al * v + be) y) i = al * slope x y i.
Proof.
  intros Hi. unfold slope. rewrite !nth_map_in by lia. unfold Rdiv. ring.
Qed.

Lemma find_derivatives_affine (al be : R) (x y : list R) (i : nat) :
  0 < al -> (2 <= List.length x)%nat -> List.length x = List.length y ->
  (i < List.length x)%nat ->
  nth i (_find_derivatives x (map (fun v => al * v + be) y)) 0
  = al * nth i (_find_derivatives x y) 0.
Proof.
  intros Ha H2 El Hi.
  set (f := fun v => al * v + be).
  assert (El' : List.length x = List.length (map f y)) by (rewrite length_map; exact El).
  destruct (Nat.eq_dec (List.length x) 2) as [E2|N2].
  - rewrite !find_derivatives_two by (rewrite ?length_map; lia).
    unfold f. rewrite slope_affine by lia.
    destruct i as [|[|i]]; cbn [nth]; try reflexivity. lia.
  - assert (H3 : (3 <= List.length x)%nat) by lia.
    destruct i as [|i].
    + rewrite !find_derivatives_first by assumption.
      unfold f. rewrite !slope_affine by lia. now apply edge_case_scale.
    + destruct (Nat.eq_dec (S (S i)) (List.length x)) as [El2|Nl].
      * destruct i as [|i]; [lia|].
        rewrite !(find_derivatives_last x _ i) by (try assumption; lia).
        unfold f. rewrite !slope_affine by lia. now apply edge_case_scale.
      * rewrite !find_derivatives_inner by (try assumption; lia).
        unfold f. rewrite !slope_affine by lia. now apply interior_derivative_scale.
Qed.

Lemma segment_affine (al be x0 x1 y0 y1 d0 d1 s : R) :
  evaluate_poly1 s (segment x0 x1 (al * y0 + be) (al * y1 + be) (al * d0) (al * d1))
  = al * evaluate_poly1 s (segment x0 x1 y0 y1 d0 d1) + be.
Proof. unfold evaluate_poly1, segment, Rdiv. ring. Qed.

(** Interpolating ordinates transformed by [v |-> al * v + be] with [al > 0] is
    the same as transforming the interpolant. *)
Theorem pchip_affine (al be : R) (x y : list R) (p q : t) (v : R) :
  0 < al ->
  __init__ x y = Ok p ->
  __init__ x (map (fun v => al * v + be) y) = Ok q ->
  __call__ q v = al * __call__ p v + be.
Proof.
  intros Ha Hp Hq.
  destruct (init_ok _ _ _ Hp) as (H2 & El & Hx & _).
  rewrite (call_segment _ _ _ v Hp), (call_segment _ _ _ v Hq). cbn zeta.
  destruct (find_interval_spec x v H2) as (A & _).
  set (i := find_interval x v) in *.
  rewrite !nth_map_in by lia.
  rewrite !find_derivatives_affine by (auto; lia).
  apply segment_affine.
Qed.

(** ** The error monad *)

Lemma bind_ok {A B : Type} (r : result A) (f : A -> result B) (b : B) :
  bind r f = Ok b -> exists a, r = Ok a /\ f a = Ok b.
Proof. destruct r as [a|e]; simpl; [eauto | discriminate]. Qed.

Lemma mapM_map {A B : Type} (f : A -> result B) (g : A -> B) (l : list A) :
  (forall a, In a l -> f a = Ok (g a)) -> mapM f l = Ok (map g l).
Proof.
  induction l as [|a l IH]; intros H; simpl; [reflexivity|].
  rewrite (H a) by (now left). cbn [bind].
  rewrite IH by (intros; apply H; now right). reflexivity.
Qed.

Lemma mapM_inv {A B : Type} (f : A -> result B) (l : list A) (r : list B) :
  mapM f l = Ok r -> Forall2 (fun a b => f a = Ok b) l r.
Proof.
  revert r; induction l as [|a l IH]; intros r H; simpl in H.
  - injection H as <-. constructor.
  - apply bind_ok in H. destruct H as (b & Hb & H).
    apply bind_ok in H. destruct H as (bs & Hbs & H).
    injection H as <-. constructor; auto.
Qed.

(** Peel the successful steps off a computation that returned [Ok]. *)
Ltac inv_ok H :=
  repeat match type of H with
    | bind _ _ = Ok _ =>
        let a := fresh "a" in let E := fresh "E" in
        apply bind_ok in H; destruct H as (a & E & H)
    | (let '(_, _) := ?p in _) = Ok _ => destruct p eqn:?
    end.

(** ** Bulk properties *)

Lemma interpolator_of_ok (l : list (R * R)) (p : t) :
  Oil.interpolator_of l = Ok p ->
  (2 <= List.length l)%nat /\ increasing (map fst l) /\ x p = map fst l.
Proof.
  intros H. destruct (init_ok _ _ _ H) as (H2 & _ & Hi & Hx).
  rewrite length_map in H2. auto.
Qed.

Lemma temps_F_map (temps : list R) :
  mapM (fun temp => Oil.convert_temperature temp "C" "F") temps
  = Ok (map (fun v => 9 / 5 * v + 32) temps).
Proof.
  apply mapM_map. intros a _. rewrite convert_C_F. f_equal. lra.
Qed.

(** The Fahrenheit interpolator of [VABP_] and [MeABP_] is the conversion to
    Fahrenheit of the Celsius interpolator. *)
Lemma D86_interop_F_call (D86 : list (R * R)) (p F : t) (v : R) :
  Oil.interpolator_of D86 = Ok p ->
  Oil.D86_interop_F (map snd D86) p = Ok F ->
  __call__ F v = __call__ p v * 9.0 / 5.0 + 32.
Proof.
  intros Hp HF. unfold Oil.D86_interop_F in HF. rewrite temps_F_map in HF.
  cbn [bind] in HF.
  destruct (interpolator_of_ok _ _ Hp) as (_ & _ & Hx). rewrite Hx in HF.
  assert (Ha : 0 < 9 / 5) by lra.
  rewrite (pchip_affine (9 / 5) 32 (map fst D86) (map snd D86) p F v Ha Hp HF). lra.
Qed.

Lemma D86_interop_F_succeeds (D86 : list (R * R)) (p : t) :
  Oil.interpolator_of D86 = Ok p ->
  exists F, Oil.D86_interop_F (map snd D86) p = Ok F.
Proof.
  intros Hp. unfold Oil.D86_interop_F. rewrite temps_F_map. cbn [bind].
  destruct (init_ok _ _ _ Hp) as (H2 & El & Hi & Hx). rewrite Hx.
  apply init_succeeds; auto. now rewrite !length_map.
Qed.

Lemma properties_succeeds (Density : R) (tag : string) (D86 : list (R * R))
  (p tbp dau d2887 : t) :
  Oil.interpolator_of D86 = Ok p ->
  exists s, Oil.properties Density tag D86 p tbp dau d2887 = Ok s.
Proof.
  intros Hp. destruct (D86_interop_F_succeeds _ _ Hp) as (F & HF).
  unfold Oil.properties, Oil.MeABP_, Oil.VABP_. rewrite HF. cbn [bind].
  destruct (Oil.WatsonK_ _ Density). eexists; reflexivity.
Qed.

(** ** Construction: what a successful [Oil.__init__] went through *)

Lemma properties_inv (Density : R) (tag : string) (D86 : list (R * R))
  (p tbp dau d2887 : t) (s : Oil.t) :
  Oil.properties Density tag D86 p tbp dau d2887 = Ok s ->
  exists VABP MeABP,
    Oil.VABP_ (map snd D86) p = Ok VABP /\
    Oil.MeABP_ (map snd D86) p = Ok MeABP /\
    s = Oil.mk Density tag D86 (map snd D86) (map fst D86) p tbp dau d2887
          VABP MeABP (fst (Oil.WatsonK_ MeABP Density)) (snd (Oil.WatsonK_ MeABP Density)).
Proof.
  unfold Oil.properties. intros H. inv_ok H.
  injection H as <-. exists a, a0.
  match goal with W : Oil.WatsonK_ _ _ = _ |- _ => rewrite W end.
  repeat split; assumption.
Qed.

Lemma API_D86_TBP_inv (d86 : list (R * R)) (p q : t) :
  Oil.API_D86_TBP d86 = Ok (p, q) ->
  Oil.interpolator_of d86 = Ok p /\ x q = map IZR Oil.vol_distl_list.
Proof.
  unfold Oil.API_D86_TBP. intros H.
  apply bind_ok in H. destruct H as (p' & E1 & H).
  apply bind_ok in H. destruct H as (l & E2 & H).
  apply bind_ok in H. destruct H as (q' & E3 & H).
  injection H as -> ->.
  split; [assumption|].
  destruct (interpolator_of_ok _ _ E3) as (_ & _ & ->).
  apply mapM_inv in E2. clear - E2.
  induction E2 as [|vol pt l r H _ IH]; [reflexivity|].
  cbn [map]. rewrite IH. f_equal.
  inv_ok H. injection H as <-. reflexivity.
Qed.

Lemma init_inv (pts : list (R * R)) (d : R) (tag : string) (s : Oil.t) :
  Oil.__init__ pts d tag = Ok s ->
  exists d86 p tbp dau d2887,
    Oil.properties d tag d86 p tbp dau d2887 = Ok s /\
    Oil.interpolator_of d86 = Ok p /\
    Oil.Daubert_ASTM_D86_TBP d86 = Ok dau /\
    ( (upper tag = "D86"%string /\ d86 = pts /\
       Oil.API_D86_TBP pts = Ok (p, tbp) /\ Oil.D86_to_D2887 pts = Ok d2887)
      \/ (str_in (upper tag) ["D2887"; "SIMDIS"]%string = true /\
          Oil.D2887_to_D86 pts = Ok d86 /\
          Oil.D2887_to_TBP_direct pts = Ok tbp /\
          Oil.interpolator_of pts = Ok d2887)
      \/ (upper tag = "TBP"%string /\
          Oil.TBP_to_D86 pts = Ok d86 /\
          Oil.interpolator_of pts = Ok tbp /\
          Oil.D86_to_D2887 d86 = Ok d2887) ).
Proof.
  unfold Oil.__init__. intros H.
  destruct (String.eqb_spec (upper tag) "D86") as [E86|N86].
  - apply bind_ok in H. destruct H as ([p tbp] & E1 & H).
    apply bind_ok in H. destruct H as (dau & E2 & H).
    apply bind_ok in H. destruct H as (d2887 & E3 & H).
    exists pts, p, tbp, dau, d2887.
    split; [assumption|]. split; [now apply API_D86_TBP_inv in E1|].
    split; [assumption|]. left. auto.
  - destruct (str_in (upper tag) ["D2887"; "SIMDIS"]%string) eqn:E28.
    + apply bind_ok in H. destruct H as (d86 & E0 & H).
      apply bind_ok in H. destruct H as ([p q] & E1 & H).
      apply bind_ok in H. destruct H as (tbp & E2 & H).
      apply bind_ok in H. destruct H as (dau & E3 & H).
      apply bind_ok in H. destruct H as (d2887 & E4 & H).
      exists d86, p, tbp, dau, d2887.
      split; [assumption|]. split; [now apply API_D86_TBP_inv in E1|].
      split; [assumption|]. right; left. auto.
    + destruct (String.eqb_spec (upper tag) "TBP") as [ET|NT]; [|discriminate].
      apply bind_ok in H. destruct H as (d86 & E0 & H).
      apply bind_ok in H. destruct H as ([p q] & E1 & H).
      apply bind_ok in H. destruct H as (tbp & E2 & H).
      apply bind_ok in H. destruct H as (dau & E3 & H).
      apply bind_ok in H. destruct H as (d2887 & E4 & H).
      exists d86, p, tbp, dau, d2887.
      split; [assumption|]. split; [now apply API_D86_TBP_inv in E1|].
      split; [assumption|]. right; right. auto.
Qed.

(** ** Powers *)

Lemma fpow_pos (x y : R) : 0 < x -> fpow x y = Some (Rpower x y).
Proof. intros H. unfold fpow. destruct (Rlt_dec 0 x); [reflexivity | contradiction]. Qed.

Lemma fpow_nonneg (x y : R) : 0 <= x -> 0 < y -> exists p, fpow x y = Some p.
Proof.
  intros Hx Hy. unfold fpow.
  destruct (Rlt_dec 0 x); [eauto|].
  destruct (Req_dec_T x 0); [|lra].
  destruct (Rlt_dec 0 y); [eauto | contradiction].
Qed.

Lemma power_law_pos (a b x : R) :
  0 < x -> Oil.power_law (a, b) x = Ok (a * Rpower x b).
Proof. intros H. unfold Oil.power_law. cbn [fst snd]. now rewrite fpow_pos. Qed.

Lemma power_law_nonneg (a b x : R) :
  0 <= x -> 0 < b -> exists v, Oil.power_law (a, b) x = Ok v.
Proof.
  intros Hx Hb. unfold Oil.power_law. cbn [fst snd].
  destruct (fpow_nonneg x b Hx Hb) as (p & ->). cbn. eauto.
Qed.

(** ** Sorting a list whose keys already increase *)

Lemma insert_sorted_last (p : R * R) (l : list (R * R)) :
  (forall q, In q l -> fst q < fst p) -> insert_sorted p l = l ++ [p].
Proof.
  induction l as [|q l IH]; intros H; [reflexivity|].
  cbn [insert_sorted]. unfold pair_le.
  destruct (Rlt_dec (fst q) (fst p)) as [_|N]; [|exfalso; apply N, H; now left].
  cbn [app]. f_equal. apply IH. intros; apply H; now right.
Qed.

Lemma sorted_fold (acc l : list (R * R)) :
  (forall i j, (i < j)%nat -> (j < List.length (acc ++ l))%nat ->
               fst (nth i (acc ++ l) (0, 0)) < fst (nth j (acc ++ l) (0, 0))) ->
  fold_left (fun acc p => insert_sorted p acc) l acc = acc ++ l.
Proof.
  revert acc; induction l as [|p l IH]; intros acc H; cbn [fold_left].
  - now rewrite app_nil_r.
  - rewrite insert_sorted_last.
    + rewrite IH; rewrite <- app_assoc; [reflexivity | exact H].
    + intros q Hq. destruct (In_nth _ _ (0, 0) Hq) as (i & Hi & <-).
      specialize (H i (List.length acc) Hi).
      rewrite app_nth1 in H by exact Hi.
      rewrite app_nth2, Nat.sub_diag in H by lia.
      apply H. rewrite length_app. simpl. lia.
Qed.

Lemma sorted_increasing (l : list (R * R)) :
  increasing (map fst l) -> sorted l = l.
Proof.
  intros H. unfold sorted. rewrite sorted_fold; [reflexivity|].
  cbn [app]. intros i j Hij Hj.
  pose proof (increasing_lt (map fst l) i j H Hij) as L.
  rewrite length_map in L. specialize (L Hj).
  rewrite (nth_indep (map fst l) 0 (fst (0, 0))) in L by (rewrite length_map; lia).
  rewrite (nth_indep (map fst l) 0 (fst (0, 0)) (n := j)) in L by (rewrite length_map; lia).
  rewrite !(map_nth fst) in L. exact L.
Qed.

(** Concrete lists of reals that increase. *)
Ltac increasing_list :=
  let i := fresh "i" in let Hi := fresh "Hi" in
  intros i Hi; cbn [List.length map] in Hi;
  repeat (destruct i as [|i]; [cbn [nth map fst snd]; lra|]);
  exfalso; lia.

Lemma vol_distl_list_increasing : increasing (map IZR Oil.vol_distl_list).
Proof. unfold Oil.vol_distl_list. increasing_list. Qed.

Lemma key_points_increasing : increasing (map IZR Oil.key_points).
Proof. unfold Oil.key_points. increasing_list. Qed.

(** ** Dictionaries *)

Lemma dict_get_set_same (k v : R) (d : dict) : dict_get k (dict_set k v d) = Some v.
Proof.
  induction d as [|[k' v'] d IH]; cbn [dict_set dict_get].
  - destruct (Req_dec_T k k); [reflexivity | contradiction].
  - destruct (Req_dec_T k k') as [E|N]; cbn [dict_get].
    + destruct (Req_dec_T k k); [reflexivity | contradiction].
    + destruct (Req_dec_T k k'); [contradiction | exact IH].
Qed.

Lemma dict_get_set_other (k k0 v : R) (d : dict) :
  k <> k0 -> dict_get k (dict_set k0 v d) = dict_get k d.
Proof.
  intros N. induction d as [|[k' v'] d IH]; cbn [dict_set dict_get].
  - destruct (Req_dec_T k k0); [contradiction | reflexivity].
  - destruct (Req_dec_T k0 k') as [E|N']; cbn [dict_get].
    + subst k'. destruct (Req_dec_T k k0); [contradiction | reflexivity].
    + destruct (Req_dec_T k k'); [reflexivity | exact IH].
Qed.

(** Filling a dictionary with [F key] at each key of a list. *)
Lemma dict_fill_keeps (F : R -> R) (keys : list Z) (d : dict) (k : R) :
  dict_get k d = Some (F k) ->
  dict_get k (fold_left (fun d dist => dict_set (IZR dist) (F (IZR dist)) d) keys d)
  = Some (F k).
Proof.
  revert d; induction keys as [|k0 keys IH]; intros d H; cbn [fold_left]; [exact H|].
  apply IH. destruct (Req_dec_T k (IZR k0)) as [->|N].
  - apply dict_get_set_same.
  - now rewrite dict_get_set_other.
Qed.

Lemma dict_fill_get (F : R -> R) (keys : list Z) (d : dict) (k : Z) :
  In k keys ->
  dict_get (IZR k) (fold_left (fun d dist => dict_set (IZR dist) (F (IZR dist)) d) keys d)
  = Some (F (IZR k)).
Proof.
  revert d; induction keys as [|k0 keys IH]; intros d H; [destruct H|].
  cbn [fold_left]. destruct H as [->|H].
  - apply dict_fill_keeps, dict_get_set_same.
  - now apply IH.
Qed.

Lemma dict_get_map (f : R -> R) (d : dict) (k : R) :
  dict_get k (map (fun '(dist, temp) => (dist, f temp)) d)
  = option_map f (dict_get k d).
Proof.
  induction d as [|[k' v'] d IH]; [reflexivity|].
  cbn [map dict_get]. destruct (Req_dec_T k k'); [reflexivity | exact IH].
Qed.

Lemma dict_of_get_fold (l : list (R * R)) (d : dict) (k v : R) :
  dict_get k (fold_left (fun d p => dict_set (fst p) (snd p) d) l d) = Some v ->
  In (k, v) l \/ dict_get k d = Some v.
Proof.
  revert d; induction l as [|[k0 v0] l IH]; intros d H; cbn [fold_left] in H; [now right|].
  destruct (IH _ H) as [I|G]; [left; now right|].
  cbn [fst snd] in G. destruct (Req_dec_T k k0) as [->|N].
  - rewrite dict_get_set_same in G. injection G as ->. left; now left.
  - rewrite dict_get_set_other in G by exact N. now right.
Qed.

Lemma dict_of_get (l : list (R * R)) (k v : R) :
  dict_get k (dict_of l) = Some v -> In (k, v) l.
Proof.
  intros H. destruct (dict_of_get_fold l [] k v H) as [I|G]; [exact I | discriminate].
Qed.

(** ** Sufficient conditions for the curve constructions to succeed *)

Lemma mapM_succeeds {A B : Type} (f : A -> result B) (l : list A) :
  (forall a, In a l -> exists b, f a = Ok b) -> exists r, mapM f l = Ok r.
Proof.
  induction l as [|a l IH]; intros H; cbn [mapM]; [eauto|].
  destruct (H a (or_introl eq_refl)) as (b & ->).
  destruct IH as (r & ->); [intros; apply H; now right|].
  cbn. eauto.
Qed.

Lemma mapM_fst {A : Type} (f : A -> result (R * R)) (g : A -> R) (l : list A)
  (r : list (R * R)) :
  (forall a b, f a = Ok b -> fst b = g a) ->
  mapM f l = Ok r -> map fst r = map g l.
Proof.
  intros Hf H. apply mapM_inv in H.
  induction H as [|a b l r H _ IH]; [reflexivity|].
  cbn [map]. rewrite IH, (Hf a b H). reflexivity.
Qed.

Lemma table_get_API (vol : Z) :
  In vol Oil.vol_distl_list -> exists a b, table_get vol Oil.API_constants = Ok (a, b).
Proof.
  intros H. repeat (destruct H as [<-|H]; [eexists; eexists; reflexivity|]).
  destruct H.
Qed.

Lemma interpolator_of_succeeds (l : list (R * R)) :
  (2 <= List.length l)%nat -> increasing (map fst l) ->
  exists p, Oil.interpolator_of l = Ok p.
Proof.
  intros H2 Hi. apply init_succeeds; rewrite ?length_map; auto.
Qed.

Lemma API_D86_TBP_succeeds (d86 : list (R * R)) (p : t) :
  Oil.interpolator_of d86 = Ok p ->
  (forall vol, In vol Oil.vol_distl_list -> -273.15 < __call__ p (IZR vol)) ->
  exists q, Oil.API_D86_TBP d86 = Ok (p, q).
Proof.
  intros Hp Hpos. unfold Oil.API_D86_TBP. rewrite Hp. cbn [bind].
  match goal with |- context [mapM ?f ?l] => destruct (mapM_succeeds f l) as (r & Hr) end.
  { intros vol Hin. destruct (table_get_API vol Hin) as (a & b & ->). cbn [bind].
    rewrite convert_C_R. cbn [bind].
    rewrite power_law_pos by (specialize (Hpos vol Hin); lra). cbn [bind].
    rewrite convert_R_C. cbn [bind]. eauto. }
  rewrite Hr. cbn [bind].
  assert (Hk : map fst r = map IZR Oil.vol_distl_list).
  { apply mapM_fst with (2 := Hr). intros vol b H. inv_ok H. now injection H as <-. }
  destruct (interpolator_of_succeeds r) as (q & ->).
  - rewrite <- (length_map fst), Hk. simpl. lia.
  - rewrite Hk. apply vol_distl_list_increasing.
  - cbn. eauto.
Qed.

(** The Daubert increments need nonnegative gaps and a nonnegative anchor. *)
Lemma Daubert_TBP_r_list_succeeds (d : dict) (T0 T10 T30 T50 T70 T90 T95 : R) :
  dict_get 0 d = Some T0 -> dict_get 10 d = Some T10 -> dict_get 30 d = Some T30 ->
  dict_get 50 d = Some T50 -> dict_get 70 d = Some T70 -> dict_get 90 d = Some T90 ->
  dict_get 95 d = Some T95 ->
  0 <= T50 -> T0 <= T10 -> T10 <= T30 -> T30 <= T50 -> T50 <= T70 -> T70 <= T90 ->
  T90 <= T95 ->
  exists l, Oil.Daubert_TBP_r_list d = Ok l.
Proof.
  intros G0 G10 G30 G50 G70 G90 G95 P50 L1 L2 L3 L5 L6 L7.
  unfold Oil.Daubert_TBP_r_list, dict_item.
  rewrite G0, G10, G30, G50, G70, G90, G95.
  change (table_get 4 Oil.Daubert_constants) with (@Ok (R * R) (0.8718, 1.0258)).
  change (table_get 1 Oil.Daubert_constants) with (@Ok (R * R) (7.4012, 0.6024)).
  change (table_get 2 Oil.Daubert_constants) with (@Ok (R * R) (4.9004, 0.7164)).
  change (table_get 3 Oil.Daubert_constants) with (@Ok (R * R) (3.0305, 0.8008)).
  change (table_get 5 Oil.Daubert_constants) with (@Ok (R * R) (2.5282, 0.8200)).
  change (table_get 6 Oil.Daubert_constants) with (@Ok (R * R) (3.0419, 0.7750)).
  change (table_get 7 Oil.Daubert_constants) with (@Ok (R * R) (0.1180, 1.6606)).
  cbn [bind].
  destruct (power_law_nonneg 0.8718 1.0258 T50) as (v50 & ->); [lra | lra |]. cbn [bind].
  destruct (power_law_nonneg 7.4012 0.6024 (T10 - T0)) as (v1 & ->); [lra | lra |]. cbn [bind].
  destruct (power_law_nonneg 4.9004 0.7164 (T30 - T10)) as (v2 & ->); [lra | lra |]. cbn [bind].
  destruct (power_law_nonneg 3.0305 0.8008 (T50 - T30)) as (v3 & ->); [lra | lra |]. cbn [bind].
  destruct (power_law_nonneg 2.5282 0.8200 (T70 - T50)) as (v5 & ->); [lra | lra |]. cbn [bind].
  destruct (power_law_nonneg 3.0419 0.7750 (T90 - T70)) as (v6 & ->); [lra | lra |]. cbn [bind].
  destruct (power_law_nonneg 0.1180 1.6606 (T95 - T90)) as (v7 & ->); [lra | lra |]. cbn [bind].
  eauto.
Qed.

Lemma Daubert_TBP_r_list_keys (d : dict) (l : list (R * R)) :
  Oil.Daubert_TBP_r_list d = Ok l -> map fst l = map IZR Oil.dist_required.
Proof.
  unfold Oil.Daubert_TBP_r_list. intros H. inv_ok H. injection H as <-. reflexivity.
Qed.

Lemma Daubert_inv (D86 : list (R * R)) (q : t) :
  Oil.Daubert_ASTM_D86_TBP D86 = Ok q ->
  exists d l,
    Oil.Daubert_D86_dict_r D86 = Ok d /\ Oil.Daubert_TBP_r_list d = Ok l /\
    Oil.interpolator_of (map (fun '(vol, temp_F) => (vol, (temp_F - 32) * 5.0 / 9.0)) l) = Ok q.
Proof.
  unfold Oil.Daubert_ASTM_D86_TBP. intros H.
  apply bind_ok in H. destruct H as (d & Ed & H).
  apply bind_ok in H. destruct H as (l & El & H).
  apply bind_ok in H. destruct H as (l' & El' & H).
  exists d, l. repeat split; auto.
  rewrite (mapM_map _ (fun '(vol, temp_F) => (vol, (temp_F - 32) * 5.0 / 9.0))) in El'.
  - now injection El' as <-.
  - intros [vol tF] _. rewrite convert_F_C. reflexivity.
Qed.

Lemma Daubert_knots (D86 : list (R * R)) (q : t) :
  Oil.Daubert_ASTM_D86_TBP D86 = Ok q -> x q = map IZR Oil.dist_required.
Proof.
  intros H. destruct (Daubert_inv _ _ H) as (d & l & _ & Hl & Hq).
  destruct (interpolator_of_ok _ _ Hq) as (_ & _ & ->).
  rewrite map_map. rewrite <- (Daubert_TBP_r_list_keys _ _ Hl).
  apply map_ext. now intros [vol tF].
Qed.

Lemma Daubert_succeeds (D86 : list (R * R)) (d : dict) (l : list (R * R)) :
  Oil.Daubert_D86_dict_r D86 = Ok d -> Oil.Daubert_TBP_r_list d = Ok l ->
  exists q, Oil.Daubert_ASTM_D86_TBP D86 = Ok q.
Proof.
  intros Hd Hl. unfold Oil.Daubert_ASTM_D86_TBP. rewrite Hd. cbn [bind]. rewrite Hl. cbn [bind].
  rewrite (mapM_map _ (fun '(vol, temp_F) => (vol, (temp_F - 32) * 5.0 / 9.0)))
    by (intros [vol tF] _; rewrite convert_F_C; reflexivity).
  cbn [bind]. apply interpolator_of_succeeds.
  - rewrite length_map, <- (length_map fst), (Daubert_TBP_r_list_keys _ _ Hl). simpl. lia.
  - rewrite map_map.
    replace (map (fun x0 => fst (let '(vol, temp_F) := x0 in (vol, (temp_F - 32) * 5.0 / 9.0))) l)
      with (map fst l) by (apply map_ext; now intros [vol tF]).
    rewrite (Daubert_TBP_r_list_keys _ _ Hl). unfold Oil.dist_required. increasing_list.
Qed.

(** ** The dictionary of [Daubert_ASTM_D86_TBP] *)

Lemma Daubert_D86_dict_r_unfold (D86 : list (R * R)) :
  Oil.Daubert_D86_dict_r D86
  = if missing_point D86 then
      D86_r_interp <- Oil.interpolator_of D86 ;;
      Ok (fold_left
            (fun d dist =>
               dict_set (IZR dist) (__call__ D86_r_interp (IZR dist)) d)
            Oil.dist_required (D86_dict_F D86))
    else Ok (D86_dict_F D86).
Proof.
  unfold Oil.Daubert_D86_dict_r.
  rewrite (mapM_map _ (fun '(dist, temp) => (dist, temp * 9.0 / 5.0 + 32)))
    by (intros [dist temp] _; rewrite convert_C_F; reflexivity).
  reflexivity.
Qed.

(** When a required key is absent, every required key receives the value of
    the interpolator built on the Celsius data. *)
Lemma Daubert_dict_missing (D86 : list (R * R)) (p : t) :
  Oil.interpolator_of D86 = Ok p -> missing_point D86 = true ->
  exists d, Oil.Daubert_D86_dict_r D86 = Ok d /\
            forall k, In k Oil.dist_required ->
                      dict_get (IZR k) d = Some (__call__ p (IZR k)).
Proof.
  intros Hp Hm. rewrite Daubert_D86_dict_r_unfold, Hm, Hp. cbn [bind].
  eexists; split; [reflexivity|].
  intros k Hk. now apply (dict_fill_get (__call__ p)).
Qed.

Lemma existsb_false_in {A : Type} (f : A -> bool) (l : list A) :
  existsb f l = false -> forall a, In a l -> f a = false.
Proof.
  intros H a Ha. destruct (f a) eqn:E; [|reflexivity].
  assert (existsb f l = true) by (apply existsb_exists; eauto). congruence.
Qed.

(** When the seven keys are present, they hold the temperatures of the input
    converted to Fahrenheit. *)
Lemma Daubert_dict_present (D86 : list (R * R)) :
  missing_point D86 = false ->
  Oil.Daubert_D86_dict_r D86 = Ok (D86_dict_F D86) /\
  forall k, In k Oil.dist_required ->
            exists temp, dict_get (IZR k) (dict_of D86) = Some temp /\
                         dict_get (IZR k) (D86_dict_F D86) = Some (temp * 9.0 / 5.0 + 32).
Proof.
  intros Hm. rewrite Daubert_D86_dict_r_unfold, Hm. split; [reflexivity|].
  intros k Hk. unfold missing_point in Hm.
  pose proof (existsb_false_in _ _ Hm k Hk) as Hm'. clear Hm. rename Hm' into Hm.
  cbv beta in Hm.
  apply negb_false_iff in Hm. unfold dict_mem, D86_dict_F in *.
  rewrite dict_get_map in *.
  destruct (dict_get (IZR k) (dict_of D86)) as [temp|]; [|discriminate].
  exists temp. split; reflexivity.
Qed.

Lemma call_at_point (D86 : list (R * R)) (p : t) (k temp : R) :
  Oil.interpolator_of D86 = Ok p -> In (k, temp) D86 -> __call__ p k = temp.
Proof.
  intros Hp Hin. destruct (In_nth _ _ (0, 0) Hin) as (i & Hi & E).
  assert (Ek : nth i (map fst D86) 0 = k).
  { rewrite (nth_indep _ 0 (fst (0, 0))) by (now rewrite length_map).
    rewrite (map_nth fst), E. reflexivity. }
  assert (Et : nth i (map snd D86) 0 = temp).
  { rewrite (nth_indep _ 0 (snd (0, 0))) by (now rewrite length_map).
    rewrite (map_nth snd), E. reflexivity. }
  rewrite <- Ek, <- Et. apply call_at_knot; [exact Hp | now rewrite length_map].
Qed.

(** In both cases the seven values are one increasing affine image of the
    interpolated D86 curve: Celsius as it is, or Fahrenheit. *)
Lemma Daubert_dict_values (D86 : list (R * R)) (p : t) :
  Oil.interpolator_of D86 = Ok p ->
  exists d al be,
    Oil.Daubert_D86_dict_r D86 = Ok d /\ 1 <= al /\ 0 <= be /\
    forall k, In k Oil.dist_required ->
              dict_get (IZR k) d = Some (al * __call__ p (IZR k) + be).
Proof.
  intros Hp. destruct (missing_point D86) eqn:Hm.
  - destruct (Daubert_dict_missing D86 p Hp Hm) as (d & Hd & Hv).
    exists d, 1, 0. repeat split; try lra; auto.
    intros k Hk. rewrite (Hv k Hk). f_equal. ring.
  - destruct (Daubert_dict_present D86 Hm) as (Hd & Hv).
    exists (D86_dict_F D86), (9 / 5), 32. repeat split; try lra; auto.
    intros k Hk. destruct (Hv k Hk) as (temp & G & ->).
    apply dict_of_get in G. rewrite (call_at_point D86 p _ _ Hp G). f_equal. lra.
Qed.

(** ** Success of the D86-side constructions *)

Lemma call_nondecreasing (x y : list R) (p : t) (v1 v2 : R) :
  __init__ x y = Ok p -> increasing y ->
  nth 0 x 0 <= v1 -> v1 <= v2 -> v2 <= nth (List.length x - 1) x 0 ->
  __call__ p v1 <= __call__ p v2.
Proof.
  intros Hp Hy H1 H12 H2. destruct (Req_dec_T v1 v2) as [->|N]; [lra|].
  apply Rlt_le, (pchip_increasing x y); auto. lra.
Qed.

Lemma call_ge_first (x y : list R) (p : t) (v : R) :
  __init__ x y = Ok p -> increasing y ->
  nth 0 x 0 <= v -> v <= nth (List.length x - 1) x 0 ->
  nth 0 y 0 <= __call__ p v.
Proof.
  intros Hp Hy H1 H2. destruct (init_ok _ _ _ Hp) as (Hn & _).
  rewrite <- (call_at_knot x y p 0 Hp) by lia.
  apply (call_nondecreasing x y); auto. lra.
Qed.

Lemma D86_to_D2887_keys (SD : R) (f : Z -> R) :
  map fst (map (fun vol => if Z.eqb vol 50 then (50, SD) else (IZR vol, f vol))
               Oil.key_points)
  = map IZR Oil.key_points.
Proof. reflexivity. Qed.

Lemma D86_to_D2887_succeeds (D86 : list (R * R)) (p q : t) :
  Oil.API_D86_TBP D86 = Ok (p, q) -> 0 <= __call__ p 50 * 9.0 / 5.0 + 32 ->
  exists r, Oil.D86_to_D2887 D86 = Ok r.
Proof.
  intros HA H50. destruct (API_D86_TBP_inv _ _ _ HA) as (Hp & _).
  unfold Oil.D86_to_D2887. rewrite Hp. cbn [bind].
  rewrite convert_C_F. cbn [bind].
  destruct (fpow_nonneg ((__call__ p 50 * 9.0 / 5.0 + 32) / 0.77601) (1.0 / 1.0395))
    as (sd & ->); [ | lra | ].
  { apply Rmult_le_pos; [exact H50 | lra]. }
  cbn [finite bind]. rewrite convert_F_C. cbn [bind]. rewrite HA. cbn [bind].
  rewrite sorted_increasing
    by (rewrite D86_to_D2887_keys; apply key_points_increasing).
  apply interpolator_of_succeeds.
  - rewrite length_map. simpl. lia.
  - rewrite D86_to_D2887_keys. apply key_points_increasing.
Qed.

Lemma D86_to_D2887_knots (D86 : list (R * R)) (r : t) :
  Oil.D86_to_D2887 D86 = Ok r -> x r = map IZR Oil.key_points.
Proof.
  unfold Oil.D86_to_D2887. intros H.
  apply bind_ok in H. destruct H as (p & _ & H).
  apply bind_ok in H. destruct H as (F50 & _ & H).
  apply bind_ok in H. destruct H as (sd & _ & H).
  apply bind_ok in H. destruct H as (sdc & _ & H).
  apply bind_ok in H. destruct H as ([p' q] & _ & H).
  rewrite sorted_increasing in H
    by (rewrite D86_to_D2887_keys; apply key_points_increasing).
  destruct (interpolator_of_ok _ _ H) as (_ & _ & ->).
  apply D86_to_D2887_keys.
Qed.

Lemma dist_required_range (k : Z) : In k Oil.dist_required -> 0 <= IZR k <= 95.
Proof.
  intros H. repeat (destruct H as [<-|H]; [lra|]). destruct H.
Qed.

(** A canonical D86 point list that covers 0..95 %vol with increasing,
    nonnegative Celsius temperatures passes every D86-side construction. *)
Lemma canonical_succeeds (d86 : list (R * R)) (p : t) :
  Oil.interpolator_of d86 = Ok p -> increasing (map snd d86) ->
  nth 0 (map fst d86) 0 <= 0 ->
  95 <= nth (List.length (map fst d86) - 1) (map fst d86) 0 ->
  0 <= nth 0 (map snd d86) 0 ->
  (exists q, Oil.API_D86_TBP d86 = Ok (p, q))
  /\ (exists dau, Oil.Daubert_ASTM_D86_TBP d86 = Ok dau)
  /\ (exists r, Oil.D86_to_D2887 d86 = Ok r).
Proof.
  intros Hp Hy Hlo Hhi Hpos.
  assert (Hge : forall v, 0 <= v <= 95 -> 0 <= __call__ p v).
  { intros v Hv. apply Rle_trans with (nth 0 (map snd d86) 0); [exact Hpos|].
    apply (call_ge_first _ _ p v Hp Hy); lra. }
  assert (Hmono : forall v1 v2, 0 <= v1 -> v1 <= v2 -> v2 <= 95 ->
                                __call__ p v1 <= __call__ p v2).
  { intros v1 v2 H1 H12 H2. apply (call_nondecreasing _ _ p v1 v2 Hp Hy); lra. }
  assert (HA : exists q, Oil.API_D86_TBP d86 = Ok (p, q)).
  { apply API_D86_TBP_succeeds; [exact Hp|].
    intros vol Hin. specialize (Hge (IZR vol) (dist_required_range vol Hin)). lra. }
  split; [exact HA|]. split.
  - destruct (Daubert_dict_values d86 p Hp) as (d & al & be & Hd & Hal & Hbe & Hv).
    assert (Hk : forall k, In k Oil.dist_required ->
                           dict_get (IZR k) d = Some (al * __call__ p (IZR k) + be))
      by exact Hv.
    destruct (Daubert_TBP_r_list_succeeds d
                (al * __call__ p 0 + be) (al * __call__ p 10 + be)
                (al * __call__ p 30 + be) (al * __call__ p 50 + be)
                (al * __call__ p 70 + be) (al * __call__ p 90 + be)
                (al * __call__ p 95 + be)) as (l & Hl);
      try (apply (Hk 0%Z) || apply (Hk 10%Z) || apply (Hk 30%Z) || apply (Hk 50%Z)
           || apply (Hk 70%Z) || apply (Hk 90%Z) || apply (Hk 95%Z);
           unfold Oil.dist_required; simpl; tauto).
    + specialize (Hge 50 ltac:(lra)). nra.
    + specialize (Hmono 0 10 ltac:(lra) ltac:(lra) ltac:(lra)). nra.
    + specialize (Hmono 10 30 ltac:(lra) ltac:(lra) ltac:(lra)). nra.
    + specialize (Hmono 30 50 ltac:(lra) ltac:(lra) ltac:(lra)). nra.
    + specialize (Hmono 50 70 ltac:(lra) ltac:(lra) ltac:(lra)). nra.
    + specialize (Hmono 70 90 ltac:(lra) ltac:(lra) ltac:(lra)). nra.
    + specialize (Hmono 90 95 ltac:(lra) ltac:(lra) ltac:(lra)). nra.
    + now apply (Daubert_succeeds d86 d l).
  - destruct HA as (q & HA). apply (D86_to_D2887_succeeds d86 p q HA).
    specialize (Hge 50 ltac:(lra)). lra.
Qed.

(** ** Success of a D86-family construction *)

Theorem D86_construction_succeeds (pts : list (R * R)) (d : R) (tag : string) :
  upper tag = "D86"%string ->
  (2 <= List.length pts)%nat -> increasing (map fst pts) -> increasing (map snd pts) ->
  nth 0 (map fst pts) 0 <= 0 ->
  95 <= nth (List.length (map fst pts) - 1) (map fst pts) 0 ->
  0 <= nth 0 (map snd pts) 0 ->
  exists s, Oil.__init__ pts d tag = Ok s.
Proof.
  intros Htag H2 Hx Hy Hlo Hhi Hpos.
  destruct (interpolator_of_succeeds pts H2 Hx) as (p & Hp).
  destruct (canonical_succeeds pts p Hp Hy Hlo Hhi Hpos)
    as ((q & HA) & (dau & HD) & (r & HR)).
  unfold Oil.__init__. rewrite Htag. cbn [String.eqb Ascii.eqb Bool.eqb].
  rewrite HA. cbn [bind]. rewrite HD. cbn [bind]. rewrite HR. cbn [bind].
  apply properties_succeeds. exact Hp.
Qed.

(** ** Comparing a real power with a rational number

    [Rpower x (p/q)] is compared with [c] by comparing [x^p] with [c^q], which
    for rational [x] and [c] is a comparison of integers. *)

Lemma Rpower_root_pow (x : R) (p q : nat) :
  0 < x -> (0 < q)%nat -> Rpower x (INR p / INR q) ^ q = x ^ p.
Proof.
  intros Hx Hq.
  rewrite <- Rpower_pow by apply exp_pos.
  rewrite Rpower_mult.
  replace (INR p / INR q * INR q) with (INR p)
    by (field; apply not_0_INR; lia).
  now apply Rpower_pow.
Qed.

Lemma Rpower_root_gt (x c : R) (p q : nat) :
  0 < x -> 0 <= c -> (0 < q)%nat -> c ^ q < x ^ p -> c < Rpower x (INR p / INR q).
Proof.
  intros Hx Hc Hq H. apply Rnot_le_lt. intros L.
  assert (Rpower x (INR p / INR q) ^ q <= c ^ q).
  { apply pow_incr. split; [apply Rlt_le, exp_pos | exact L]. }
  rewrite Rpower_root_pow in H0 by assumption. lra.
Qed.

Lemma Rpower_root_lt (x c : R) (p q : nat) :
  0 < x -> 0 <= c -> (0 < q)%nat -> x ^ p < c ^ q -> Rpower x (INR p / INR q) < c.
Proof.
  intros Hx Hc Hq H. apply Rnot_le_lt. intros L.
  assert (c ^ q <= Rpower x (INR p / INR q) ^ q).
  { apply pow_incr. split; assumption. }
  rewrite Rpower_root_pow in H0 by assumption. lra.
Qed.

Lemma pow_ratio (a b : Z) (n : nat) :
  (0 < b)%Z -> (IZR a / IZR b) ^ n = IZR (a ^ Z.of_nat n) / IZR (b ^ Z.of_nat n).
Proof.
  intros Hb. rewrite <- !pow_IZR. unfold Rdiv. rewrite Rpow_mult_distr, pow_inv.
  reflexivity.
Qed.

Lemma ratio_lt (a b c d : Z) :
  (0 < b)%Z -> (0 < d)%Z -> (a * d < c * b)%Z -> IZR a / IZR b < IZR c / IZR d.
Proof.
  intros Hb Hd H. apply IZR_lt in H. rewrite !mult_IZR in H.
  apply IZR_lt in Hb, Hd.
  apply Rmult_lt_reg_r with (IZR b * IZR d); [now apply Rmult_lt_0_compat|].
  replace (IZR a / IZR b * (IZR b * IZR d)) with (IZR a * IZR d) by (field; lra).
  replace (IZR c / IZR d * (IZR b * IZR d)) with (IZR c * IZR b) by (field; lra).
  exact H.
Qed.

(** [cn/cd < (xn/xd)^(p/q)], decided on integers. *)
Lemma Rpower_ratio_gt (xn xd cn cd p q : Z) :
  (0 < xn)%Z -> (0 < xd)%Z -> (0 <= cn)%Z -> (0 < cd)%Z -> (0 <= p)%Z -> (0 < q)%Z ->
  (cn ^ q * xd ^ p < xn ^ p * cd ^ q)%Z ->
  IZR cn / IZR cd < Rpower (IZR xn / IZR xd) (IZR p / IZR q).
Proof.
  intros Hxn Hxd Hcn Hcd Hp Hq H.
  rewrite <- (Z2Nat.id p), <- (Z2Nat.id q) by lia.
  rewrite <- !INR_IZR_INZ.
  assert (Px : 0 < IZR xn / IZR xd)
    by (apply Rdiv_lt_0_compat; now apply IZR_lt).
  assert (Pc : 0 <= IZR cn / IZR cd).
  { apply Rmult_le_pos; [now apply IZR_le | apply Rlt_le, Rinv_0_lt_compat; now apply IZR_lt]. }
  apply Rpower_root_gt; auto; [lia|].
  rewrite !pow_ratio by assumption. rewrite !Z2Nat.id by lia.
  apply ratio_lt; auto; apply Z.pow_pos_nonneg; lia.
Qed.

(** [(xn/xd)^(p/q) < cn/cd], decided on integers. *)
Lemma Rpower_ratio_lt (xn xd cn cd p q : Z) :
  (0 < xn)%Z -> (0 < xd)%Z -> (0 <= cn)%Z -> (0 < cd)%Z -> (0 <= p)%Z -> (0 < q)%Z ->
  (xn ^ p * cd ^ q < cn ^ q * xd ^ p)%Z ->
  Rpower (IZR xn / IZR xd) (IZR p / IZR q) < IZR cn / IZR cd.
Proof.
  intros Hxn Hxd Hcn Hcd Hp Hq H.
  rewrite <- (Z2Nat.id p), <- (Z2Nat.id q) by lia.
  rewrite <- !INR_IZR_INZ.
  assert (Px : 0 < IZR xn / IZR xd)
    by (apply Rdiv_lt_0_compat; now apply IZR_lt).
  assert (Pc : 0 <= IZR cn / IZR cd).
  { apply Rmult_le_pos; [now apply IZR_le | apply Rlt_le, Rinv_0_lt_compat; now apply IZR_lt]. }
  apply Rpower_root_lt; auto; [lia|].
  rewrite !pow_ratio by assumption. rewrite !Z2Nat.id by lia.
  apply ratio_lt; auto; apply Z.pow_pos_nonneg; lia.
Qed.

(** The forward Riazi law lowers a temperature above 1 degree Rankine. *)
Lemma power_law_below (a b x : R) :
  0 < a -> a < 1 -> b < 1 -> 1 < x -> a * Rpower x b < x.
Proof.
  intros Ha Ha1 Hb Hx.
  assert (Rpower x b < x).
  { rewrite <- (Rpower_1 x) at 2 by lra. apply Rpower_lt; assumption. }
  assert (0 < Rpower x b) by apply exp_pos.
  nra.
Qed.

Lemma pow_lt_check_sound (a m b n c p d q : Z) :
  pow_lt_check a m b n c p d q = true -> (a ^ m * b ^ n < c ^ p * d ^ q)%Z.
Proof.
  unfold pow_lt_check. rewrite BigZ.spec_ltb, Z.ltb_lt.
  rewrite !BigZ.spec_mul, !BigZ.spec_pow, !BigZ.spec_of_Z. trivial.
Qed.

(** [rpower_gt H xn xd cn cd p q] adds [H : cn/cd < Rpower (xn/xd) (p/q)], and
    [rpower_lt] the converse bound, after checking it on integers. *)
Ltac rpower_gt H xn xd cn cd p q :=
  pose proof (Rpower_ratio_gt xn xd cn cd p q
                ltac:(lia) ltac:(lia) ltac:(lia) ltac:(lia) ltac:(lia) ltac:(lia)) as H;
  let C := fresh "C" in
  assert (C : pow_lt_check cn q xd p xn p cd q = true) by (vm_compute; reflexivity);
  specialize (H (pow_lt_check_sound _ _ _ _ _ _ _ _ C)); clear C.

Ltac rpower_lt H xn xd cn cd p q :=
  pose proof (Rpower_ratio_lt xn xd cn cd p q
                ltac:(lia) ltac:(lia) ltac:(lia) ltac:(lia) ltac:(lia) ltac:(lia)) as H;
  let C := fresh "C" in
  assert (C : pow_lt_check xn p cd q cn q xd p = true) by (vm_compute; reflexivity);
  specialize (H (pow_lt_check_sound _ _ _ _ _ _ _ _ C)); clear C.

(** ** The Riazi conversions of a D2887 curve *)

Lemma riazi_point_pos (coefficients : list (Z * (R * R))) (p : t) (vol : Z) (ab : R * R) :
  table_get vol coefficients = Ok ab ->
  0 < __call__ p (IZR vol) * 9 / 5 + 491.67 ->
  Oil.riazi_point coefficients p vol = Ok (IZR vol, riazi_value ab (__call__ p (IZR vol))).
Proof.
  intros Ht Hpos. unfold Oil.riazi_point. rewrite Ht. cbn [bind].
  destruct ab as [a b]. rewrite power_law_pos by exact Hpos. reflexivity.
Qed.

Lemma riazi_points_value (coefficients : list (Z * (R * R))) (p : t) :
  (forall vol, In vol Oil.key_points -> exists ab, table_get vol coefficients = Ok ab) ->
  (forall vol, In vol Oil.key_points -> 0 < __call__ p (IZR vol) * 9 / 5 + 491.67) ->
  mapM (Oil.riazi_point coefficients p) Oil.key_points
  = Ok (map (fun vol =>
               (IZR vol,
                riazi_value (Oil.table_get_default vol coefficients (0, 0))
                            (__call__ p (IZR vol))))
            Oil.key_points).
Proof.
  intros Ht Hpos. apply mapM_map. intros vol Hin.
  destruct (Ht vol Hin) as (ab & E).
  rewrite (riazi_point_pos _ _ _ ab E (Hpos vol Hin)).
  unfold Oil.table_get_default. now rewrite E.
Qed.

Lemma riazi_d86_keys (vol : Z) :
  In vol Oil.key_points -> exists ab, table_get vol Oil.riazi_d86_coefficients = Ok ab.
Proof.
  intros H. repeat (destruct H as [<-|H]; [eexists; reflexivity|]). destruct H.
Qed.

Lemma riazi_tbp_keys (vol : Z) :
  In vol Oil.key_points -> exists ab, table_get vol Oil.riazi_tbp_coefficients = Ok ab.
Proof.
  intros H. repeat (destruct H as [<-|H]; [eexists; reflexivity|]). destruct H.
Qed.

Lemma D2887_to_TBP_direct_succeeds (D2887 : list (R * R)) (p : t) :
  Oil.interpolator_of D2887 = Ok p ->
  (forall vol, In vol Oil.key_points -> 0 < __call__ p (IZR vol) * 9 / 5 + 491.67) ->
  exists q, Oil.D2887_to_TBP_direct D2887 = Ok q /\ x q = map IZR Oil.key_points.
Proof.
  intros Hp Hpos. unfold Oil.D2887_to_TBP_direct. rewrite Hp. cbn [bind].
  rewrite (riazi_points_value _ p riazi_tbp_keys Hpos). cbn [bind].
  set (l := map _ Oil.key_points).
  assert (Hk : map fst l = map IZR Oil.key_points) by reflexivity.
  rewrite sorted_increasing by (rewrite Hk; apply key_points_increasing).
  destruct (interpolator_of_succeeds l) as (q & Hq).
  - unfold l. rewrite length_map. simpl. lia.
  - rewrite Hk. apply key_points_increasing.
  - exists q. split; [exact Hq|]. destruct (interpolator_of_ok _ _ Hq) as (_ & _ & ->).
    exact Hk.
Qed.

Lemma D2887_to_TBP_direct_knots (D2887 : list (R * R)) (q : t) :
  Oil.D2887_to_TBP_direct D2887 = Ok q -> x q = map IZR Oil.key_points.
Proof.
  unfold Oil.D2887_to_TBP_direct. intros H.
  apply bind_ok in H. destruct H as (p & _ & H).
  apply bind_ok in H. destruct H as (l & Hl & H).
  assert (Hk : map fst l = map IZR Oil.key_points).
  { apply mapM_fst with (2 := Hl). intros vol b Hb. unfold Oil.riazi_point in Hb.
    inv_ok Hb. now injection Hb as <-. }
  rewrite sorted_increasing in H by (rewrite Hk; apply key_points_increasing).
  destruct (interpolator_of_ok _ _ H) as (_ & _ & ->). exact Hk.
Qed.

Lemma D2887_to_D86_keys (D2887 l : list (R * R)) :
  Oil.D2887_to_D86 D2887 = Ok l -> map fst l = map IZR Oil.key_points.
Proof.
  unfold Oil.D2887_to_D86. intros H.
  apply bind_ok in H. destruct H as (p & _ & H).
  apply bind_ok in H. destruct H as (l' & Hl & H).
  assert (Hk : map fst l' = map IZR Oil.key_points).
  { apply mapM_fst with (2 := Hl). intros vol b Hb. unfold Oil.riazi_point in Hb.
    inv_ok Hb. now injection Hb as <-. }
  rewrite sorted_increasing in H by (rewrite Hk; apply key_points_increasing).
  now injection H as <-.
Qed.

(** The list returned by [D2887_to_D86]: one forward Riazi power law per key. *)
Lemma D2887_to_D86_value (D2887 : list (R * R)) (p : t) :
  Oil.interpolator_of D2887 = Ok p ->
  (forall vol, In vol Oil.key_points -> 0 < __call__ p (IZR vol) * 9 / 5 + 491.67) ->
  Oil.D2887_to_D86 D2887
  = Ok [ (0, riazi_value (0.9965, 0.9985) (__call__ p 0));
         (10, riazi_value (0.9970, 0.9988) (__call__ p 10));
         (30, riazi_value (0.9975, 0.9990) (__call__ p 30));
         (50, riazi_value (0.9977, 0.9992) (__call__ p 50));
         (70, riazi_value (0.9975, 0.9990) (__call__ p 70));
         (90, riazi_value (0.9968, 0.9986) (__call__ p 90));
         (100, riazi_value (0.9960, 0.9982) (__call__ p 100)) ].
Proof.
  intros Hp Hpos. unfold Oil.D2887_to_D86. rewrite Hp. cbn [bind].
  rewrite (riazi_points_value _ p riazi_d86_keys Hpos). cbn [bind].
  set (l := map _ Oil.key_points).
  assert (Hk : map fst l = map IZR Oil.key_points) by reflexivity.
  rewrite sorted_increasing by (rewrite Hk; apply key_points_increasing).
  reflexivity.
Qed.

(** ** Concrete curves *)

Lemma interpolator_of_value (l : list (R * R)) :
  (2 <= List.length l)%nat -> increasing (map fst l) ->
  Oil.interpolator_of l = Ok (interpolant l).
Proof.
  intros H2 Hi. unfold Oil.interpolator_of, __init__.
  assert (P : prepare_input (map fst l) (map snd l) = Ok tt).
  { apply prepare_input_ok. rewrite !length_map. auto. }
  rewrite P. reflexivity.
Qed.

Lemma interpolator_of_interpolant (l : list (R * R)) (p : t) :
  Oil.interpolator_of l = Ok p -> p = interpolant l.
Proof.
  intros H. destruct (interpolator_of_ok _ _ H) as (H2 & Hi & _).
  rewrite (interpolator_of_value l H2 Hi) in H. now injection H.
Qed.

Lemma curve7_interpolant : Oil.interpolator_of curve7 = Ok (interpolant curve7).
Proof. apply interpolator_of_value; unfold curve7; [simpl; lia | increasing_list]. Qed.

Lemma curve3_interpolant : Oil.interpolator_of curve3 = Ok (interpolant curve3).
Proof. apply interpolator_of_value; unfold curve3; [simpl; lia | increasing_list]. Qed.

Lemma curve2_interpolant : Oil.interpolator_of curve2 = Ok (interpolant curve2).
Proof. apply interpolator_of_value; unfold curve2; [simpl; lia | increasing_list]. Qed.

Lemma curve95_interpolant : Oil.interpolator_of curve95 = Ok (interpolant curve95).
Proof. apply interpolator_of_value; unfold curve95; [simpl; lia | increasing_list]. Qed.

(** The interpolant of [curve7] at its knots. *)
Lemma curve7_at (k temp : R) :
  In (k, temp) curve7 -> __call__ (interpolant curve7) k = temp.
Proof. apply call_at_point, curve7_interpolant. Qed.

Lemma curve7_values :
  __call__ (interpolant curve7) 0 = 160 /\ __call__ (interpolant curve7) 10 = 170 /\
  __call__ (interpolant curve7) 30 = 190 /\ __call__ (interpolant curve7) 50 = 225 /\
  __call__ (interpolant curve7) 70 = 260 /\ __call__ (interpolant curve7) 90 = 280 /\
  __call__ (interpolant curve7) 100 = 290.
Proof. repeat split; apply curve7_at; unfold curve7; simpl; tauto. Qed.

Lemma curve7_above_absolute_zero (vol : Z) :
  In vol Oil.key_points -> 0 < __call__ (interpolant curve7) (IZR vol) * 9 / 5 + 491.67.
Proof.
  destruct curve7_values as (V0 & V10 & V30 & V50 & V70 & V90 & V100).
  intros H. repeat (destruct H as [<-|H]; [lra|]). destruct H.
Qed.

Lemma curve7_to_D86 : Oil.D2887_to_D86 curve7 = Ok curve7_as_D86.
Proof.
  rewrite (D2887_to_D86_value curve7 _ curve7_interpolant curve7_above_absolute_zero).
  destruct curve7_values as (-> & -> & -> & -> & -> & -> & ->). reflexivity.
Qed.

(** Bounds on the Riazi images of the temperatures of [curve7], in Rankine. *)
Ltac riazi_bound xn xd cn cd p q :=
  let H := fresh "H" in
  rpower_gt H xn xd cn cd p q;
  match goal with
  | |- _ < _ * Rpower ?x ?b =>
      replace (IZR xn / IZR xd) with x in H by lra;
      replace (IZR p / IZR q) with b in H by lra
  end; lra.

Lemma riazi_curve7_0 : 700 < 0.9965 * Rpower (160 * 9 / 5 + 491.67) 0.9985.
Proof. riazi_bound 77967%Z 100%Z 7000000%Z 9965%Z 1997%Z 2000%Z. Qed.

Lemma riazi_curve7_10 : 780 < 0.9970 * Rpower (170 * 9 / 5 + 491.67) 0.9988.
Proof. riazi_bound 79767%Z 100%Z 7800000%Z 9970%Z 2497%Z 2500%Z. Qed.

Lemma riazi_curve7_30 : 800 < 0.9975 * Rpower (190 * 9 / 5 + 491.67) 0.9990.
Proof. riazi_bound 83367%Z 100%Z 8000000%Z 9975%Z 999%Z 1000%Z. Qed.

Lemma riazi_curve7_50 : 887 < 0.9977 * Rpower (225 * 9 / 5 + 491.67) 0.9992.
Proof. riazi_bound 89667%Z 100%Z 8870000%Z 9977%Z 1249%Z 1250%Z. Qed.

Lemma riazi_curve7_70 : 900 < 0.9975 * Rpower (260 * 9 / 5 + 491.67) 0.9990.
Proof. riazi_bound 95967%Z 100%Z 9000000%Z 9975%Z 999%Z 1000%Z. Qed.

Lemma riazi_curve7_90 : 960 < 0.9968 * Rpower (280 * 9 / 5 + 491.67) 0.9986.
Proof. riazi_bound 99567%Z 100%Z 9600000%Z 9968%Z 4993%Z 5000%Z. Qed.

Lemma riazi_curve7_100 : 996 < 0.9960 * Rpower (290 * 9 / 5 + 491.67) 0.9982.
Proof. riazi_bound 101367%Z 100%Z 9960000%Z 9960%Z 4991%Z 5000%Z. Qed.

Lemma riazi_below (a b temp_C : R) :
  0 < a -> a < 1 -> b < 1 -> 0 <= temp_C ->
  a * Rpower (temp_C * 9 / 5 + 491.67) b < temp_C * 9 / 5 + 491.67.
Proof. intros. apply power_law_below; lra. Qed.

Lemma curve7_as_D86_increasing : increasing (map snd curve7_as_D86).
Proof.
  pose proof riazi_curve7_0. pose proof riazi_curve7_10. pose proof riazi_curve7_30.
  pose proof riazi_curve7_50. pose proof riazi_curve7_70. pose proof riazi_curve7_90.
  pose proof riazi_curve7_100.
  pose proof (riazi_below 0.9965 0.9985 160 ltac:(lra) ltac:(lra) ltac:(lra) ltac:(lra)).
  pose proof (riazi_below 0.9970 0.9988 170 ltac:(lra) ltac:(lra) ltac:(lra) ltac:(lra)).
  pose proof (riazi_below 0.9975 0.9990 190 ltac:(lra) ltac:(lra) ltac:(lra) ltac:(lra)).
  pose proof (riazi_below 0.9977 0.9992 225 ltac:(lra) ltac:(lra) ltac:(lra) ltac:(lra)).
  pose proof (riazi_below 0.9975 0.9990 260 ltac:(lra) ltac:(lra) ltac:(lra) ltac:(lra)).
  pose proof (riazi_below 0.9968 0.9986 280 ltac:(lra) ltac:(lra) ltac:(lra) ltac:(lra)).
  unfold curve7_as_D86, riazi_value. cbn [map snd fst].
  intros i Hi; cbn [List.length] in Hi;
    repeat (destruct i as [|i]; [cbn [nth]; lra|]); exfalso; lia.
Qed.

Lemma curve7_as_D86_nonnegative : 0 <= nth 0 (map snd curve7_as_D86) 0.
Proof.
  pose proof riazi_curve7_0.
  unfold curve7_as_D86, riazi_value. cbn [map snd fst nth]. lra.
Qed.

(** ** Success of a D2887-family construction *)

Lemma str_in_D2887 (u : string) :
  str_in u ["D2887"; "SIMDIS"]%string = true ->
  u = "D2887"%string \/ u = "SIMDIS"%string.
Proof.
  cbn [str_in]. destruct (String.eqb_spec u "D2887"); [auto|].
  destruct (String.eqb_spec u "SIMDIS"); [auto | discriminate].
Qed.

Theorem D2887_construction_succeeds (pts : list (R * R)) (d : R) (tag : string)
  (p : t) (d86 : list (R * R)) :
  str_in (upper tag) ["D2887"; "SIMDIS"]%string = true ->
  Oil.interpolator_of pts = Ok p ->
  (forall vol, In vol Oil.key_points -> 0 < __call__ p (IZR vol) * 9 / 5 + 491.67) ->
  Oil.D2887_to_D86 pts = Ok d86 ->
  increasing (map snd d86) -> 0 <= nth 0 (map snd d86) 0 ->
  exists s, Oil.__init__ pts d tag = Ok s.
Proof.
  intros Htag Hp Hpos Hd86 Hinc Hnn.
  pose proof (D2887_to_D86_keys _ _ Hd86) as Hk.
  destruct (interpolator_of_succeeds d86) as (p86 & Hp86).
  { rewrite <- (length_map fst), Hk. simpl. lia. }
  { rewrite Hk. apply key_points_increasing. }
  destruct (canonical_succeeds d86 p86 Hp86 Hinc) as ((q & HA) & (dau & HD) & _).
  { rewrite Hk. simpl. lra. }
  { rewrite Hk. simpl. lra. }
  { exact Hnn. }
  destruct (D2887_to_TBP_direct_succeeds pts p Hp Hpos) as (tbp & HT & _).
  unfold Oil.__init__.
  assert (N86 : String.eqb (upper tag) "D86" = false).
  { destruct (str_in_D2887 _ Htag) as [-> | ->]; reflexivity. }
  rewrite N86, Htag, Hd86. cbn [bind]. rewrite HA. cbn [bind].
  rewrite HT. cbn [bind]. rewrite HD. cbn [bind].
  unfold Oil.D2887_to_D2887_interp. rewrite Hp. cbn [bind].
  apply properties_succeeds. exact Hp86.
Qed.

Lemma curve7_D2887_succeeds (d : R) :
  exists s, Oil.__init__ curve7 d "D2887" = Ok s.
Proof.
  apply (D2887_construction_succeeds curve7 d "D2887" (interpolant curve7) curve7_as_D86).
  - reflexivity.
  - exact curve7_interpolant.
  - exact curve7_above_absolute_zero.
  - exact curve7_to_D86.
  - exact curve7_as_D86_increasing.
  - exact curve7_as_D86_nonnegative.
Qed.

Lemma curve2_D86_succeeds (d : R) : exists s, Oil.__init__ curve2 d "D86" = Ok s.
Proof.
  apply D86_construction_succeeds; unfold curve2; cbn [map fst snd List.length nth Nat.sub];
    try reflexivity; try lia; try lra; increasing_list.
Qed.

Lemma curve3_D86_succeeds (d : R) : exists s, Oil.__init__ curve3 d "D86" = Ok s.
Proof.
  apply D86_construction_succeeds; unfold curve3; cbn [map fst snd List.length nth Nat.sub];
    try reflexivity; try lia; try lra; increasing_list.
Qed.

Lemma curve95_D86_succeeds (d : R) : exists s, Oil.__init__ curve95 d "D86" = Ok s.
Proof.
  apply D86_construction_succeeds; unfold curve95; cbn [map fst snd List.length nth Nat.sub];
    try reflexivity; try lia; try lra; increasing_list.
Qed.

(** ** More on dictionaries *)

Lemma increasing_NoDup (l : list R) : increasing l -> NoDup l.
Proof.
  intros H. apply (NoDup_nth l 0). intros i j Hi Hj E.
  destruct (Nat.lt_total i j) as [L | [-> | L]]; [ | reflexivity | ].
  - pose proof (increasing_lt l i j H L Hj). lra.
  - pose proof (increasing_lt l j i H L Hi). lra.
Qed.

Lemma dict_get_in (l : dict) (k v : R) :
  NoDup (map fst l) -> In (k, v) l -> dict_get k l = Some v.
Proof.
  induction l as [|[k0 v0] l IH]; intros N H; [destruct H|].
  cbn [map fst] in N. inversion N as [|? ? Hn N']; subst.
  cbn [dict_get]. destruct H as [E|H].
  - injection E as -> ->. destruct (Req_dec_T k k); [reflexivity | contradiction].
  - destruct (Req_dec_T k k0) as [->|_]; [|now apply IH].
    exfalso. apply Hn. change k0 with (fst (k0, v)). now apply in_map.
Qed.

Lemma dict_of_snoc (l : list (R * R)) (a : R * R) :
  dict_of (l ++ [a]) = dict_set (fst a) (snd a) (dict_of l).
Proof. unfold dict_of. now rewrite fold_left_app. Qed.

Lemma dict_of_in (l : list (R * R)) (k v : R) :
  NoDup (map fst l) -> In (k, v) l -> dict_get k (dict_of l) = Some v.
Proof.
  induction l as [|[k0 v0] l IH] using rev_ind; intros N H; [destruct H|].
  rewrite dict_of_snoc. cbn [fst snd].
  rewrite map_app in N. cbn [map fst] in N.
  apply in_app_or in H. destruct H as [H | [E | []]].
  - destruct (Req_dec_T k k0) as [->|Nk].
    + exfalso. apply NoDup_remove_2 in N. rewrite app_nil_r in N. apply N.
      change k0 with (fst (k0, v)). now apply in_map.
    + rewrite dict_get_set_other by exact Nk. apply IH; [|exact H].
      apply NoDup_remove_1 in N. now rewrite app_nil_r in N.
  - injection E as -> ->. apply dict_get_set_same.
Qed.

Lemma dict_of_absent (l : list (R * R)) (k : R) :
  ~ In k (map fst l) -> dict_get k (dict_of l) = None.
Proof.
  intros N. destruct (dict_get k (dict_of l)) as [v|] eqn:E; [|reflexivity].
  exfalso. apply N. apply dict_of_get in E. change k with (fst (k, v)). now apply in_map.
Qed.

Lemma missing_point_false (D86 : list (R * R)) :
  NoDup (map fst D86) ->
  (forall k, In k Oil.dist_required -> exists temp, In (IZR k, temp) D86) ->
  missing_point D86 = false.
Proof.
  intros N H. unfold missing_point.
  destruct (existsb _ Oil.dist_required) eqn:E; [|reflexivity].
  apply existsb_exists in E. destruct E as (k & Hk & E).
  destruct (H k Hk) as (temp & Hin).
  unfold dict_mem, D86_dict_F in E. rewrite dict_get_map in E.
  rewrite (dict_of_in D86 _ temp N Hin) in E. discriminate.
Qed.

Lemma missing_point_true (D86 : list (R * R)) (k : Z) :
  In k Oil.dist_required -> ~ In (IZR k) (map fst D86) -> missing_point D86 = true.
Proof.
  intros Hk N. unfold missing_point. apply existsb_exists. exists k. split; [exact Hk|].
  unfold dict_mem, D86_dict_F. rewrite dict_get_map, dict_of_absent by exact N.
  reflexivity.
Qed.

(** ** The 50% anchor of the Daubert method *)

Lemma Daubert_TBP_r_list_anchor (d : dict) (l : list (R * R)) :
  Oil.Daubert_TBP_r_list d = Ok l ->
  exists T50 pw,
    dict_get 50 d = Some T50 /\ fpow T50 1.0258 = Some pw /\ In (50, 0.8718 * pw) l.
Proof.
  unfold Oil.Daubert_TBP_r_list. intros H.
  apply bind_ok in H. destruct H as (c4 & Ec4 & H).
  apply bind_ok in H. destruct H as (T50 & ET & H).
  apply bind_ok in H. destruct H as (TBP50 & EP & H).
  change (table_get 4 Oil.Daubert_constants) with (@Ok (R * R) (0.8718, 1.0258)) in Ec4.
  injection Ec4 as <-.
  unfold dict_item in ET. destruct (dict_get 50 d) as [v|] eqn:G; [|discriminate].
  injection ET as ->.
  unfold Oil.power_law in EP. cbn [fst snd] in EP.
  destruct (fpow T50 1.0258) as [pw|] eqn:F; [|discriminate].
  cbn in EP. injection EP as <-.
  exists T50, pw. repeat split; auto.
  inv_ok H. injection H as <-. simpl. tauto.
Qed.

Lemma Daubert_anchor (D86 : list (R * R)) (q : t) :
  Oil.Daubert_ASTM_D86_TBP D86 = Ok q ->
  exists d T50 pw,
    Oil.Daubert_D86_dict_r D86 = Ok d /\
    dict_get 50 d = Some T50 /\ fpow T50 1.0258 = Some pw /\
    __call__ q 50 = (0.8718 * pw - 32) * 5.0 / 9.0.
Proof.
  intros H. destruct (Daubert_inv _ _ H) as (d & l & Hd & Hl & Hq).
  destruct (Daubert_TBP_r_list_anchor d l Hl) as (T50 & pw & G & F & I).
  exists d, T50, pw. repeat split; auto.
  apply (call_at_point _ q _ _ Hq).
  apply (in_map (fun '(vol, temp_F) => (vol, (temp_F - 32) * 5.0 / 9.0)) _ _ I).
Qed.

(** * The claims *)

(** ** C1: the key points of [D2887_to_D86] *)

(** C1 (as amended).  For every D2887 curve that builds an interpolant and whose
    sampled temperatures are above absolute zero, [D2887_to_D86] returns the
    seven key points 0, 10, 30, 50, 70, 90, 100, each one, the 50% point
    included, by the forward Riazi power law [D86_R = a * D2887_R^b] with that
    key's coefficients, converted back to Celsius. *)
Theorem D2887_to_D86_forward_riazi (D2887 : list (R * R)) (p : t) :
  Oil.interpolator_of D2887 = Ok p ->
  (forall vol, In vol Oil.key_points -> 0 < __call__ p (IZR vol) * 9 / 5 + 491.67) ->
  Oil.D2887_to_D86 D2887
  = Ok [ (0, riazi_value (0.9965, 0.9985) (__call__ p 0));
         (10, riazi_value (0.9970, 0.9988) (__call__ p 10));
         (30, riazi_value (0.9975, 0.9990) (__call__ p 30));
         (50, riazi_value (0.9977, 0.9992) (__call__ p 50));
         (70, riazi_value (0.9975, 0.9990) (__call__ p 70));
         (90, riazi_value (0.9968, 0.9986) (__call__ p 90));
         (100, riazi_value (0.9960, 0.9982) (__call__ p 100)) ].
Proof. exact (D2887_to_D86_value D2887 p). Qed.

Lemma D2887_to_D86_forward_riazi_witness :
  Oil.interpolator_of curve7 = Ok (interpolant curve7)
  /\ (forall vol, In vol Oil.key_points ->
                  0 < __call__ (interpolant curve7) (IZR vol) * 9 / 5 + 491.67)
  /\ Oil.D2887_to_D86 curve7
     = Ok [ (0, riazi_value (0.9965, 0.9985) (__call__ (interpolant curve7) 0));
            (10, riazi_value (0.9970, 0.9988) (__call__ (interpolant curve7) 10));
            (30, riazi_value (0.9975, 0.9990) (__call__ (interpolant curve7) 30));
            (50, riazi_value (0.9977, 0.9992) (__call__ (interpolant curve7) 50));
            (70, riazi_value (0.9975, 0.9990) (__call__ (interpolant curve7) 70));
            (90, riazi_value (0.9968, 0.9986) (__call__ (interpolant curve7) 90));
            (100, riazi_value (0.9960, 0.9982) (__call__ (interpolant curve7) 100)) ].
Proof.
  split; [exact curve7_interpolant|].
  split; [exact curve7_above_absolute_zero|].
  exact (D2887_to_D86_forward_riazi curve7 (interpolant curve7)
           curve7_interpolant curve7_above_absolute_zero).
Defined.

Lemma inverse_API_curve7_50 :
  Rpower ((225 * 9 / 5 + 491.67) / 0.77601) (1 / 1.0395) < 887.
Proof.
  rpower_lt H 89667000%Z 77601%Z 887%Z 1%Z 2000%Z 2079%Z.
  replace (IZR 89667000 / IZR 77601) with ((225 * 9 / 5 + 491.67) / 0.77601) in H by lra.
  replace (IZR 2000 / IZR 2079) with (1 / 1.0395) in H by lra.
  lra.
Qed.

(** C1, counterexample.  On the seven-point curve of the test suite, given as
    D2887 data, the 50% point returned by [D2887_to_D86] is the forward Riazi
    value of the sampled 225 degrees Celsius, and this is not the value of the
    inverse API relation [(T_R / 0.77601)^(1/1.0395)]. *)
Lemma D2887_to_D86_key_50_not_inverse_API :
  Oil.interpolator_of curve7 = Ok (interpolant curve7)
  /\ __call__ (interpolant curve7) 50 = 225
  /\ Oil.D2887_to_D86 curve7 = Ok curve7_as_D86
  /\ dict_get 50 curve7_as_D86 = Some (riazi_value (0.9977, 0.9992) 225)
  /\ riazi_value (0.9977, 0.9992) 225 <> inverse_API_50 225.
Proof.
  split; [exact curve7_interpolant|].
  split; [apply curve7_values|].
  split; [exact curve7_to_D86|].
  split.
  - unfold curve7_as_D86. cbn [dict_get]. rdec. reflexivity.
  - pose proof riazi_curve7_50. pose proof inverse_API_curve7_50.
    unfold riazi_value, inverse_API_50. cbn [fst snd]. lra.
Qed.

(** ** C2 and C3: the Daubert method *)

Lemma curve_daubert_NoDup : NoDup (map fst curve_daubert).
Proof. apply increasing_NoDup. unfold curve_daubert. increasing_list. Qed.

Lemma curve_daubert_present : missing_point curve_daubert = false.
Proof.
  apply missing_point_false; [exact curve_daubert_NoDup|].
  intros k H. unfold curve_daubert.
  repeat (destruct H as [<-|H]; [eexists; simpl; tauto|]). destruct H.
Qed.

Lemma curve_daubert_succeeds : exists q, Oil.Daubert_ASTM_D86_TBP curve_daubert = Ok q.
Proof.
  assert (Hp : exists p, Oil.interpolator_of curve_daubert = Ok p).
  { apply interpolator_of_succeeds; unfold curve_daubert; [simpl; lia | increasing_list]. }
  destruct Hp as (p & Hp).
  apply (canonical_succeeds curve_daubert p Hp); unfold curve_daubert;
    cbn [map fst snd List.length nth Nat.sub]; try lra. increasing_list.
Qed.

(** C2 (as amended).  For every D86 point list that holds the seven keys 0, 10,
    30, 50, 70, 90, 95 and every interpolant the Daubert method returns, the 50%
    anchor is [TBP(50)_F = 0.8718 * D86(50)_F^1.0258]: its coefficients are the
    fourth Daubert constant, not the API key-50 pair.  The interpolant passes
    through the anchor converted to Celsius. *)
Theorem Daubert_anchor_uses_fourth_constant (D86 : list (R * R)) (q : t) :
  missing_point D86 = false ->
  Oil.Daubert_ASTM_D86_TBP D86 = Ok q ->
  table_get 4 Oil.Daubert_constants = Ok (0.8718, 1.0258) /\
  exists temp50 pw,
    dict_get 50 (dict_of D86) = Some temp50 /\
    fpow (temp50 * 9.0 / 5.0 + 32) 1.0258 = Some pw /\
    (0 < temp50 * 9.0 / 5.0 + 32 -> pw = Rpower (temp50 * 9.0 / 5.0 + 32) 1.0258) /\
    __call__ q 50 = (0.8718 * pw - 32) * 5.0 / 9.0.
Proof.
  intros Hm Hq. split; [reflexivity|].
  destruct (Daubert_anchor D86 q Hq) as (d & T50 & pw & Hd & G & F & Hc).
  destruct (Daubert_dict_present D86 Hm) as (Hd' & Hv).
  rewrite Hd' in Hd. injection Hd as <-.
  destruct (Hv 50%Z ltac:(simpl; tauto)) as (temp50 & G1 & G2).
  rewrite G2 in G. injection G as <-.
  exists temp50, pw. repeat split; auto.
  intros Hpos. rewrite fpow_pos in F by exact Hpos. now injection F.
Qed.

Lemma Daubert_anchor_uses_fourth_constant_witness :
  exists q,
    missing_point curve_daubert = false /\
    Oil.Daubert_ASTM_D86_TBP curve_daubert = Ok q /\
    table_get 4 Oil.Daubert_constants = Ok (0.8718, 1.0258) /\
    exists temp50 pw,
      dict_get 50 (dict_of curve_daubert) = Some temp50 /\
      fpow (temp50 * 9.0 / 5.0 + 32) 1.0258 = Some pw /\
      (0 < temp50 * 9.0 / 5.0 + 32 -> pw = Rpower (temp50 * 9.0 / 5.0 + 32) 1.0258) /\
      __call__ q 50 = (0.8718 * pw - 32) * 5.0 / 9.0.
Proof.
  destruct curve_daubert_succeeds as (q & Hq). exists q.
  split; [exact curve_daubert_present|]. split; [exact Hq|].
  exact (Daubert_anchor_uses_fourth_constant curve_daubert q curve_daubert_present Hq).
Defined.

Lemma daubert_anchor_437 : 440 < 0.8718 * Rpower (225 * 9.0 / 5.0 + 32) 1.0258.
Proof. riazi_bound 437%Z 1%Z 4400000%Z 8718%Z 5129%Z 5000%Z. Qed.

Lemma api_anchor_437 : 0.8920 * Rpower (225 * 9.0 / 5.0 + 32) 1.0176 < 440.
Proof.
  rpower_lt H 437%Z 1%Z 4400000%Z 8920%Z 636%Z 625%Z.
  replace (IZR 437 / IZR 1) with (225 * 9.0 / 5.0 + 32) in H by lra.
  replace (IZR 636 / IZR 625) with 1.0176 in H by lra.
  lra.
Qed.

(** C2, counterexample.  On a D86 curve given at the seven keys, with 225
    degrees Celsius (437 Fahrenheit) at 50%, the Daubert interpolant at 50% is
    not the Celsius image of [0.8920 * 437^1.0176], the value the API key-50
    coefficients would give. *)
Lemma Daubert_anchor_is_not_API_key_50 :
  exists q,
    missing_point curve_daubert = false /\
    dict_get 50 (dict_of curve_daubert) = Some 225 /\
    Oil.Daubert_ASTM_D86_TBP curve_daubert = Ok q /\
    __call__ q 50 <> (0.8920 * Rpower (225 * 9.0 / 5.0 + 32) 1.0176 - 32) * 5.0 / 9.0.
Proof.
  destruct curve_daubert_succeeds as (q & Hq). exists q.
  split; [exact curve_daubert_present|].
  assert (G : dict_get 50 (dict_of curve_daubert) = Some 225).
  { apply dict_of_in; [exact curve_daubert_NoDup | unfold curve_daubert; simpl; tauto]. }
  split; [exact G|]. split; [exact Hq|].
  destruct (Daubert_anchor curve_daubert q Hq) as (d & T50 & pw & Hd & G' & F & Hc).
  destruct (Daubert_dict_present curve_daubert curve_daubert_present) as (Hd' & Hv).
  rewrite Hd' in Hd. injection Hd as <-.
  destruct (Hv 50%Z ltac:(simpl; tauto)) as (temp50 & G1 & G2).
  rewrite G in G1. injection G1 as <-.
  rewrite G2 in G'. injection G' as <-.
  rewrite fpow_pos in F by lra. injection F as <-.
  rewrite Hc. pose proof daubert_anchor_437. pose proof api_anchor_437. lra.
Qed.

Lemma curve7_missing_95 : missing_point curve7 = true.
Proof.
  apply (missing_point_true curve7 95); [simpl; tauto|].
  unfold curve7. cbn [map fst]. intros H.
  repeat (destruct H as [H|H]; [lra|]). destruct H.
Qed.

Lemma curve7_Daubert_succeeds : exists q, Oil.Daubert_ASTM_D86_TBP curve7 = Ok q.
Proof.
  apply (canonical_succeeds curve7 _ curve7_interpolant); unfold curve7;
    cbn [map fst snd List.length nth Nat.sub]; try lra. increasing_list.
Qed.

(** C3, the code at a failing input.  The seven-point D86 curve of the test
    suite lacks the key 95.  The dictionary the Daubert correlations read then
    holds at 50% the interpolated Celsius value 225 where the Fahrenheit value is
    437, and the anchor of the returned interpolant is computed from 225. *)
Theorem Daubert_missing_key_keeps_celsius :
  exists d q,
    missing_point curve7 = true /\
    Oil.Daubert_D86_dict_r curve7 = Ok d /\
    dict_get 50 d = Some 225 /\
    Oil.convert_temperature 225 "C" "F" = Ok 437 /\
    Oil.Daubert_ASTM_D86_TBP curve7 = Ok q /\
    __call__ q 50 = (0.8718 * Rpower 225 1.0258 - 32) * 5.0 / 9.0.
Proof.
  destruct curve7_Daubert_succeeds as (q & Hq).
  destruct (Daubert_anchor curve7 q Hq) as (d & T50 & pw & Hd & G & F & Hc).
  destruct (Daubert_dict_missing curve7 _ curve7_interpolant curve7_missing_95)
    as (d' & Hd' & Hv).
  rewrite Hd' in Hd. injection Hd as ->.
  specialize (Hv 50%Z ltac:(simpl; tauto)).
  destruct curve7_values as (_ & _ & _ & V50 & _). rewrite V50 in Hv.
  rewrite Hv in G. injection G as <-.
  rewrite fpow_pos in F by lra. injection F as <-.
  exists d, q. repeat split; auto.
  - exact curve7_missing_95.
  - rewrite convert_C_F. f_equal. lra.
Qed.

(** ** C4: the derived scalars *)

(** C4.  For every constructed sample with density [d]: [VABP] is the mean of
    the D86 curve at 10, 30, 50, 70, 90 %vol read in Fahrenheit; [MeABP] is
    [VABP - exp (-0.94402 - 0.00865 (VABP-32)^0.6667 + 2.99791 slope^0.333)]
    with [slope = (D86_F 90 - D86_F 10) / 80]; [SG = d / 999.013]; and
    [WatsonK = (MeABP + 460)^(1/3) / SG].  A power or a quotient that is not a
    real number makes the scalar [None]. *)
Theorem derived_scalars (pts : list (R * R)) (d : R) (tag : string) (s : Oil.t) :
  Oil.__init__ pts d tag = Ok s ->
  let VABP := (D86_F s 10 + D86_F s 30 + D86_F s 50 + D86_F s 70 + D86_F s 90) / 5 in
  let slope := (D86_F s 90 - D86_F s 10) / 80 in
  (forall v, Oil.convert_temperature (__call__ (Oil.D86_interp s) v) "C" "F"
             = Ok (D86_F s v))
  /\ Oil.VABP s = VABP
  /\ Oil.MeABP s
     = match fpow (VABP - 32) 0.6667, fpow slope 0.333 with
       | Some p, Some q => Some (VABP - exp (-0.94402 - 0.00865 * p + 2.99791 * q))
       | _, _ => None
       end
  /\ (32 < VABP -> 0 < slope ->
      Oil.MeABP s
      = Some (VABP - exp (-0.94402 - 0.00865 * Rpower (VABP - 32) 0.6667
                          + 2.99791 * Rpower slope 0.333)))
  /\ Oil.SG s = d / 999.013
  /\ Oil.WatsonK s
     = match Oil.MeABP s with
       | Some MeABP =>
           match fpow (MeABP + 460) (1 / 3) with
           | Some p => if Req_dec_T (Oil.SG s) 0 then None else Some (p / Oil.SG s)
           | None => None
           end
       | None => None
       end
  /\ (forall MeABP, Oil.MeABP s = Some MeABP -> 0 < MeABP + 460 -> d <> 0 ->
      Oil.WatsonK s = Some (Rpower (MeABP + 460) (1 / 3) / Oil.SG s)).
Proof.
  intros H.
  destruct (init_inv _ _ _ _ H) as (d86 & p & tbp & dau & d2887 & Hprop & Hp & _).
  destruct (properties_inv _ _ _ _ _ _ _ _ Hprop) as (V & M & HV & HM & Hs).
  clear Hprop H.
  destruct (D86_interop_F_succeeds d86 p Hp) as (F & HF).
  assert (HFv : forall v, __call__ F v = __call__ p v * 9.0 / 5.0 + 32)
    by (intros v; exact (D86_interop_F_call d86 p F v Hp HF)).
  unfold Oil.MeABP_ in HM. rewrite HV in HM. cbn [bind] in HM.
  unfold Oil.VABP_ in HV.
  rewrite HF in HV, HM. cbn [bind] in HV, HM.
  rewrite (HFv 10), (HFv 30), (HFv 50), (HFv 70), (HFv 90) in HV.
  rewrite (HFv 10), (HFv 90) in HM.
  replace (90 - 10) with 80 in HM by lra.
  injection HV as <-. injection HM as <-.
  subst s. unfold D86_F.
  cbn [Oil.D86_interp Oil.VABP Oil.MeABP Oil.SG Oil.WatsonK Oil.WatsonK_ fst snd].
  cbv zeta.
  split; [intros v; apply convert_C_F|].
  split; [reflexivity|]. split; [reflexivity|].
  split.
  { intros HVp Hsl. rewrite !fpow_pos by lra. reflexivity. }
  split; [reflexivity|]. split; [reflexivity|].
  intros m Hm Hpos Hd. rewrite Hm. rewrite fpow_pos by exact Hpos.
  destruct (Req_dec_T (d / 999.013) 0) as [E|_]; [|reflexivity].
  exfalso. apply Hd.
  apply (Rmult_eq_compat_r 999.013) in E. unfold Rdiv in E.
  rewrite Rmult_assoc, Rinv_l, Rmult_1_r, Rmult_0_l in E by lra. exact E.
Qed.

Lemma derived_scalars_witness :
  exists s,
    Oil.__init__ curve3 820 "D86" = Ok s /\
    Oil.VABP s = (D86_F s 10 + D86_F s 30 + D86_F s 50 + D86_F s 70 + D86_F s 90) / 5 /\
    Oil.SG s = 820 / 999.013.
Proof.
  destruct (curve3_D86_succeeds 820) as (s & Hs). exists s.
  split; [exact Hs|].
  destruct (derived_scalars curve3 820 "D86" s Hs) as (_ & HV & _ & _ & HS & _).
  split; [exact HV | exact HS].
Defined.

(** ** The fields of a constructed sample *)

Lemma init_fields (pts : list (R * R)) (d : R) (tag : string) (s : Oil.t) :
  Oil.__init__ pts d tag = Ok s ->
  Oil.interpolator_of (Oil.D86 s) = Ok (Oil.D86_interp s)
  /\ Oil.original_temperatures s = map snd (Oil.D86 s)
  /\ Oil.original_volperc_distilled s = map fst (Oil.D86 s)
  /\ Oil.Daubert_ASTM_D86_TBP (Oil.D86 s) = Ok (Oil.Daubert_TBP_interp s)
  /\ ( (upper tag = "D86"%string /\ Oil.D86 s = pts /\
        Oil.API_D86_TBP pts = Ok (Oil.D86_interp s, Oil.TBP_interp s) /\
        Oil.D86_to_D2887 pts = Ok (Oil.D2887_interp s))
       \/ (str_in (upper tag) ["D2887"; "SIMDIS"]%string = true /\
           Oil.D2887_to_D86 pts = Ok (Oil.D86 s) /\
           Oil.D2887_to_TBP_direct pts = Ok (Oil.TBP_interp s) /\
           Oil.interpolator_of pts = Ok (Oil.D2887_interp s))
       \/ (upper tag = "TBP"%string /\
           Oil.TBP_to_D86 pts = Ok (Oil.D86 s) /\
           Oil.interpolator_of pts = Ok (Oil.TBP_interp s) /\
           Oil.D86_to_D2887 (Oil.D86 s) = Ok (Oil.D2887_interp s)) ).
Proof.
  intros H.
  destruct (init_inv _ _ _ _ H) as (d86 & p & tbp & dau & d2887 & Hprop & Hp & HD & Hcase).
  destruct (properties_inv _ _ _ _ _ _ _ _ Hprop) as (V & M & _ & _ & ->).
  cbn [Oil.D86 Oil.D86_interp Oil.original_temperatures Oil.original_volperc_distilled
       Oil.Daubert_TBP_interp Oil.TBP_interp Oil.D2887_interp].
  repeat split; auto.
Qed.

Lemma tag_D86_not_D2887 (tag : string) :
  upper tag = "D86"%string -> str_in (upper tag) ["D2887"; "SIMDIS"]%string = false.
Proof. intros ->. reflexivity. Qed.

Lemma TBP_to_D86_keys (TBP l : list (R * R)) :
  Oil.TBP_to_D86 TBP = Ok l -> map fst l = map IZR [0; 10; 30; 50; 70; 90; 95; 100]%Z.
Proof.
  unfold Oil.TBP_to_D86. intros H.
  apply bind_ok in H. destruct H as (p & _ & H).
  apply mapM_fst with (2 := H). intros vol b Hb.
  destruct (Oil.table_get_default vol Oil.API_constants (0.9167, 1.0019)) as [a0 b0].
  inv_ok Hb. now injection Hb as <-.
Qed.

Lemma interpolator_of_too_few (l : list (R * R)) :
  (List.length l < 2)%nat -> Oil.interpolator_of l = Err TooFewPoints.
Proof.
  intros H. unfold Oil.interpolator_of, __init__, prepare_input.
  rewrite length_map. destruct (Nat.ltb_spec (List.length l) 2); [reflexivity | lia].
Qed.

(** ** C5: the D86 interpolant between its knots *)

Lemma edge_case_zero (h0 h1 m0 m1 : R) :
  0 < h0 -> 0 < h1 -> 0 < m0 -> (2 * h0 + h1) * m0 < h0 * m1 ->
  _edge_case h0 h1 m0 m1 = 0.
Proof.
  intros Hh0 Hh1 Hm0 H. unfold _edge_case.
  set (dd := ((2 * h0 + h1) * m0 - h0 * m1) / (h0 + h1)).
  assert (Hd : dd < 0).
  { unfold dd. apply Ropp_lt_cancel. rewrite Ropp_0, <- Rdiv_opp_l.
    apply Rdiv_lt_0_compat; lra. }
  rewrite (sign_neg dd Hd), (sign_pos m0 Hm0).
  rewrite Rneqb_diff by lra. reflexivity.
Qed.

(** The interpolant of [curve95] above its last knot: the cubic of the segment
    from 50 to 95, with derivatives 19/53 and 0 at its ends. *)
Lemma curve95_at_100 : __call__ (interpolant curve95) 100 < 209.
Proof.
  rewrite (call_segment _ _ _ 100 curve95_interpolant). cbv zeta.
  assert (Hi : find_interval (map fst curve95) 100 = 1%nat).
  { unfold curve95. cbn [map fst find_interval]. rdec. reflexivity. }
  rewrite Hi.
  rewrite (find_derivatives_inner _ _ 0) by (unfold curve95; simpl; lia).
  rewrite (find_derivatives_last _ _ 0) by (unfold curve95; reflexivity).
  unfold slope, spacing, curve95. cbn [map fst snd nth].
  rewrite interior_derivative_pos by lra.
  rewrite edge_case_zero by lra.
  unfold evaluate_poly1, segment. lra.
Qed.

Lemma curve95_at_95 : __call__ (interpolant curve95) 95 = 209.
Proof. apply (call_at_point curve95); [exact curve95_interpolant | simpl; tauto]. Qed.

(** C5 (as amended).  For every constructed sample whose canonical D86 points
    have strictly increasing temperatures, the exposed D86 interpolant is
    strictly increasing between the first and the last of its knots:
    [D86(v1) < D86(v2)] whenever [v1 < v2] lie in that range. *)
Theorem D86_increasing_between_knots (pts : list (R * R)) (d : R) (tag : string)
  (s : Oil.t) (v1 v2 : R) :
  Oil.__init__ pts d tag = Ok s ->
  increasing (map snd (Oil.D86 s)) ->
  nth 0 (map fst (Oil.D86 s)) 0 <= v1 -> v1 < v2 ->
  v2 <= nth (List.length (map fst (Oil.D86 s)) - 1) (map fst (Oil.D86 s)) 0 ->
  __call__ (Oil.D86_interp s) v1 < __call__ (Oil.D86_interp s) v2.
Proof.
  intros H Hy H1 H12 H2.
  destruct (init_fields _ _ _ _ H) as (Hp & _).
  exact (pchip_increasing _ _ _ v1 v2 Hp Hy H1 H12 H2).
Qed.

Lemma D86_increasing_between_knots_witness :
  exists s,
    Oil.__init__ curve3 820 "D86" = Ok s /\
    increasing (map snd (Oil.D86 s)) /\
    nth 0 (map fst (Oil.D86 s)) 0 <= 10 /\ 10 < 60 /\
    60 <= nth (List.length (map fst (Oil.D86 s)) - 1) (map fst (Oil.D86 s)) 0 /\
    __call__ (Oil.D86_interp s) 10 < __call__ (Oil.D86_interp s) 60.
Proof.
  destruct (curve3_D86_succeeds 820) as (s & Hs). exists s.
  destruct (init_fields _ _ _ _ Hs) as (_ & _ & _ & _ & [(_ & E & _) | [(C & _) | (C & _)]]);
    [ | discriminate C | discriminate C ].
  assert (Hy : increasing (map snd (Oil.D86 s)))
    by (rewrite E; unfold curve3; increasing_list).
  assert (H1 : nth 0 (map fst (Oil.D86 s)) 0 <= 10)
    by (rewrite E; unfold curve3; cbn [map fst nth]; lra).
  assert (H12 : 10 < 60) by lra.
  assert (H2 : 60 <= nth (List.length (map fst (Oil.D86 s)) - 1) (map fst (Oil.D86 s)) 0)
    by (rewrite E; unfold curve3; cbn [map fst nth List.length Nat.sub]; lra).
  repeat (split; [assumption|]).
  exact (D86_increasing_between_knots curve3 820 "D86" s 10 60 Hs Hy H1 H12 H2).
Defined.

(** C5, counterexample.  A D86 curve given at 0, 50 and 95 %vol, with strictly
    increasing temperatures, constructs a sample whose D86 interpolant is lower
    at 100 %vol than at 95 %vol: above the last knot the cubic of the last
    segment is evaluated, and it decreases. *)
Lemma D86_not_increasing_above_last_knot :
  exists s,
    Oil.__init__ curve95 820 "D86" = Ok s /\
    Oil.D86 s = curve95 /\
    increasing (map snd (Oil.D86 s)) /\
    0 <= 95 /\ 95 < 100 /\ 100 <= 100 /\
    __call__ (Oil.D86_interp s) 100 < __call__ (Oil.D86_interp s) 95.
Proof.
  destruct (curve95_D86_succeeds 820) as (s & Hs). exists s.
  destruct (init_fields _ _ _ _ Hs) as (Hp & _ & _ & _ & [(_ & E & _) | [(C & _) | (C & _)]]);
    [ | discriminate C | discriminate C ].
  split; [exact Hs|]. split; [exact E|].
  split; [rewrite E; unfold curve95; increasing_list|].
  repeat (split; [lra|]).
  rewrite E in Hp. rewrite (interpolator_of_interpolant _ _ Hp).
  rewrite curve95_at_95. exact curve95_at_100.
Qed.

(** ** C7: the number of input points *)

(** C7 (as amended).  Construction fails for every input of fewer than two
    points, whatever the family tag; the constructor itself asks for no more:
    two points with strictly increasing volume percent suffice to build an
    interpolant. *)
Theorem construction_needs_two_points (pts : list (R * R)) :
  ((List.length pts < 2)%nat ->
   forall d tag, exists e, Oil.__init__ pts d tag = Err e)
  /\ ((2 <= List.length pts)%nat -> increasing (map fst pts) ->
      exists p, Oil.interpolator_of pts = Ok p).
Proof.
  split.
  - intros H d tag. pose proof (interpolator_of_too_few pts H) as E.
    unfold Oil.__init__.
    destruct (String.eqb (upper tag) "D86").
    { unfold Oil.API_D86_TBP. rewrite E. cbn. eauto. }
    destruct (str_in (upper tag) ["D2887"; "SIMDIS"]%string).
    { unfold Oil.D2887_to_D86. rewrite E. cbn. eauto. }
    destruct (String.eqb (upper tag) "TBP").
    { unfold Oil.TBP_to_D86. rewrite E. cbn. eauto. }
    eauto.
  - apply interpolator_of_succeeds.
Qed.

Lemma construction_needs_two_points_witness :
  (forall d tag, exists e, Oil.__init__ [(0, 160)] d tag = Err e)
  /\ (exists p, Oil.interpolator_of curve2 = Ok p).
Proof.
  split.
  - apply (proj1 (construction_needs_two_points [(0, 160)])). simpl. lia.
  - apply (proj2 (construction_needs_two_points curve2)).
    + unfold curve2. simpl. lia.
    + unfold curve2. increasing_list.
Defined.

(** C7, counterexample.  A two-point D86 input constructs a sample. *)
Lemma two_points_construct_a_sample :
  (List.length curve2 < 3)%nat /\ exists s, Oil.__init__ curve2 820 "D86" = Ok s.
Proof. split; [unfold curve2; simpl; lia | exact (curve2_D86_succeeds 820)]. Qed.

(** ** C8: the stored points *)

(** C8 (as amended).  The stored volume-percent and temperature lists are the
    components of the canonical D86 points of the sample.  For the D86 family
    these are the construction input.  For the D2887 and TBP families they are
    the converted key points, at 0, 10, 30, 50, 70, 90, 100 and at 0, 10, 30,
    50, 70, 90, 95, 100 %vol, not the input. *)
Theorem stored_points (pts : list (R * R)) (d : R) (tag : string) (s : Oil.t) :
  Oil.__init__ pts d tag = Ok s ->
  Oil.original_volperc_distilled s = map fst (Oil.D86 s)
  /\ Oil.original_temperatures s = map snd (Oil.D86 s)
  /\ (upper tag = "D86"%string -> Oil.D86 s = pts)
  /\ (str_in (upper tag) ["D2887"; "SIMDIS"]%string = true ->
      Oil.D2887_to_D86 pts = Ok (Oil.D86 s) /\
      Oil.original_volperc_distilled s = [0; 10; 30; 50; 70; 90; 100])
  /\ (upper tag = "TBP"%string ->
      Oil.TBP_to_D86 pts = Ok (Oil.D86 s) /\
      Oil.original_volperc_distilled s = [0; 10; 30; 50; 70; 90; 95; 100]).
Proof.
  intros H. destruct (init_fields _ _ _ _ H) as (_ & Ht & Hv & _ & Hcase).
  split; [exact Hv|]. split; [exact Ht|].
  destruct Hcase as [(T & E & _) | [(T & E & _) | (T & E & _)]].
  - split; [auto|]. split.
    + intros C. rewrite (tag_D86_not_D2887 _ T) in C. discriminate.
    + intros C. rewrite T in C. discriminate.
  - split; [intros C; rewrite (tag_D86_not_D2887 _ C) in T; discriminate|].
    split.
    + intros _. split; [exact E|]. rewrite Hv. exact (D2887_to_D86_keys _ _ E).
    + intros C. rewrite C in T. discriminate.
  - split; [intros C; rewrite T in C; discriminate|].
    split.
    + intros C. rewrite T in C. discriminate.
    + intros _. split; [exact E|]. rewrite Hv. exact (TBP_to_D86_keys _ _ E).
Qed.

Lemma stored_points_witness :
  exists s,
    Oil.__init__ curve7 820 "D2887" = Ok s /\
    Oil.original_volperc_distilled s = map fst (Oil.D86 s) /\
    Oil.original_temperatures s = map snd (Oil.D86 s) /\
    Oil.D2887_to_D86 curve7 = Ok (Oil.D86 s).
Proof.
  destruct (curve7_D2887_succeeds 820) as (s & Hs). exists s.
  destruct (stored_points curve7 820 "D2887" s Hs) as (Hv & Ht & _ & H28 & _).
  destruct (H28 eq_refl) as (E & _). auto.
Defined.

(** C8, counterexample.  Constructed from the seven-point curve as D2887 data,
    the sample stores the temperatures of the converted D86 points; the first
    one is below the 160 degrees Celsius of the input. *)
Lemma stored_temperatures_are_not_the_input :
  exists s,
    Oil.__init__ curve7 820 "D2887" = Ok s /\
    Oil.original_temperatures s = map snd curve7_as_D86 /\
    nth 0 (Oil.original_temperatures s) 0 < nth 0 (map snd curve7) 0 /\
    Oil.original_temperatures s <> map snd curve7.
Proof.
  destruct (curve7_D2887_succeeds 820) as (s & Hs). exists s.
  destruct (init_fields _ _ _ _ Hs) as (_ & Ht & _ & _ & [(C & _) | [(_ & E & _) | (C & _)]]);
    [ discriminate C | | discriminate C ].
  rewrite curve7_to_D86 in E. injection E as E.
  assert (Hlt : nth 0 (map snd curve7_as_D86) 0 < nth 0 (map snd curve7) 0).
  { unfold curve7_as_D86, curve7, riazi_value. cbn [map snd fst nth].
    pose proof (riazi_below 0.9965 0.9985 160 ltac:(lra) ltac:(lra) ltac:(lra) ltac:(lra)).
    lra. }
  split; [exact Hs|]. rewrite Ht, <- E.
  split; [reflexivity|]. split; [exact Hlt|].
  intros C. rewrite C in Hlt. lra.
Qed.

(** ** Success of a TBP-family construction *)

Lemma TBP_key_points_increasing : increasing (map IZR TBP_key_points).
Proof. unfold TBP_key_points. increasing_list. Qed.

Lemma API_constants_positive (vol : Z) :
  0 < fst (Oil.table_get_default vol Oil.API_constants (0.9167, 1.0019)).
Proof.
  unfold Oil.table_get_default, Oil.API_constants. cbn [table_get].
  repeat (destruct (Z.eqb vol _); [cbn [fst]; lra|]). cbn [fst]. lra.
Qed.

Lemma TBP_to_D86_value (TBP : list (R * R)) (p : t) :
  Oil.interpolator_of TBP = Ok p ->
  (forall vol, In vol TBP_key_points -> -273.15 < __call__ p (IZR vol)) ->
  Oil.TBP_to_D86 TBP
  = Ok (map (fun vol =>
               (IZR vol,
                API_inverse_value (Oil.table_get_default vol Oil.API_constants (0.9167, 1.0019))
                                  (__call__ p (IZR vol))))
            TBP_key_points).
Proof.
  intros Hp Hpos. unfold Oil.TBP_to_D86. rewrite Hp. cbn [bind].
  apply mapM_map. intros vol Hin.
  pose proof (API_constants_positive vol) as Ha.
  destruct (Oil.table_get_default vol Oil.API_constants (0.9167, 1.0019)) as [a b].
  cbn [fst] in Ha.
  rewrite convert_C_R. cbn [bind].
  rewrite fpow_pos.
  - cbn [finite bind]. rewrite convert_R_C. reflexivity.
  - apply Rdiv_lt_0_compat; [|exact Ha]. specialize (Hpos vol Hin). lra.
Qed.

Theorem TBP_construction_succeeds (pts : list (R * R)) (d : R) (tag : string)
  (p : t) (d86 : list (R * R)) :
  upper tag = "TBP"%string ->
  Oil.interpolator_of pts = Ok p ->
  Oil.TBP_to_D86 pts = Ok d86 ->
  increasing (map snd d86) -> 0 <= nth 0 (map snd d86) 0 ->
  exists s, Oil.__init__ pts d tag = Ok s.
Proof.
  intros Htag Hp Hd86 Hinc Hnn.
  pose proof (TBP_to_D86_keys _ _ Hd86) as Hk.
  destruct (interpolator_of_succeeds d86) as (p86 & Hp86).
  { rewrite <- (length_map fst), Hk. simpl. lia. }
  { rewrite Hk. apply TBP_key_points_increasing. }
  destruct (canonical_succeeds d86 p86 Hp86 Hinc) as ((q & HA) & (dau & HD) & (r & HR)).
  { rewrite Hk. simpl. lra. }
  { rewrite Hk. simpl. lra. }
  { exact Hnn. }
  unfold Oil.__init__. rewrite Htag.
  cbn [String.eqb Ascii.eqb Bool.eqb str_in orb].
  rewrite Hd86. cbn [bind]. rewrite HA. cbn [bind].
  unfold Oil.TBP_to_TBP_interp. rewrite Hp. cbn [bind].
  rewrite HD. cbn [bind]. rewrite HR. cbn [bind].
  apply properties_succeeds. exact Hp86.
Qed.

Lemma curve_TBP_interpolant : Oil.interpolator_of curve_TBP = Ok (interpolant curve_TBP).
Proof. apply interpolator_of_value; unfold curve_TBP; [simpl; lia | increasing_list]. Qed.

Lemma curve_TBP_values :
  __call__ (interpolant curve_TBP) 0 = 140 /\ __call__ (interpolant curve_TBP) 10 = 170 /\
  __call__ (interpolant curve_TBP) 30 = 195 /\ __call__ (interpolant curve_TBP) 50 = 230 /\
  __call__ (interpolant curve_TBP) 70 = 265 /\ __call__ (interpolant curve_TBP) 90 = 290 /\
  __call__ (interpolant curve_TBP) 95 = 300 /\ __call__ (interpolant curve_TBP) 100 = 310.
Proof.
  repeat split; apply (call_at_point curve_TBP); try exact curve_TBP_interpolant;
    unfold curve_TBP; simpl; tauto.
Qed.

Lemma curve_TBP_to_D86 : Oil.TBP_to_D86 curve_TBP = Ok curve_TBP_as_D86.
Proof.
  destruct curve_TBP_values as (V0 & V10 & V30 & V50 & V70 & V90 & V95 & V100).
  rewrite (TBP_to_D86_value curve_TBP _ curve_TBP_interpolant).
  - cbn [map TBP_key_points]. rewrite V0, V10, V30, V50, V70, V90, V95, V100. reflexivity.
  - intros vol H. repeat (destruct H as [<-|H]; [lra|]). destruct H.
Qed.

(** Bounds on the inverse API images of the temperatures of [curve_TBP], in
    Rankine. *)
Ltac api_gt xn xd c p q :=
  let H := fresh "H" in
  rpower_gt H xn xd c 1%Z p q;
  match goal with
  | |- _ < Rpower ?x ?b =>
      replace (IZR xn / IZR xd) with x in H by lra;
      replace (IZR p / IZR q) with b in H by lra
  end; lra.

Ltac api_lt xn xd c p q :=
  let H := fresh "H" in
  rpower_lt H xn xd c 1%Z p q;
  match goal with
  | |- Rpower ?x ?b < _ =>
      replace (IZR xn / IZR xd) with x in H by lra;
      replace (IZR p / IZR q) with b in H by lra
  end; lra.

Lemma api_TBP_0 : 700 < Rpower ((140 + 273.15) * 9.0 / 5.0 / 0.9167) (1.0 / 1.0019)
                  /\ Rpower ((140 + 273.15) * 9.0 / 5.0 / 0.9167) (1.0 / 1.0019) < 810.
Proof.
  split; [api_gt 7436700%Z 9167%Z 700%Z 10000%Z 10019%Z
         | api_lt 7436700%Z 9167%Z 810%Z 10000%Z 10019%Z].
Qed.

Lemma api_TBP_10 : 810 < Rpower ((170 + 273.15) * 9.0 / 5.0 / 0.5277) (1.0 / 1.0900)
                   /\ Rpower ((170 + 273.15) * 9.0 / 5.0 / 0.5277) (1.0 / 1.0900) < 840.
Proof.
  split; [api_gt 7976700%Z 5277%Z 810%Z 100%Z 109%Z
         | api_lt 7976700%Z 5277%Z 840%Z 100%Z 109%Z].
Qed.

Lemma api_TBP_30 : 840 < Rpower ((195 + 273.15) * 9.0 / 5.0 / 0.7429) (1.0 / 1.0425)
                   /\ Rpower ((195 + 273.15) * 9.0 / 5.0 / 0.7429) (1.0 / 1.0425) < 880.
Proof.
  split; [api_gt 8426700%Z 7429%Z 840%Z 400%Z 417%Z
         | api_lt 8426700%Z 7429%Z 880%Z 400%Z 417%Z].
Qed.

Lemma api_TBP_50 : 880 < Rpower ((230 + 273.15) * 9.0 / 5.0 / 0.8920) (1.0 / 1.0176)
                   /\ Rpower ((230 + 273.15) * 9.0 / 5.0 / 0.8920) (1.0 / 1.0176) < 930.
Proof.
  split; [api_gt 9056700%Z 8920%Z 880%Z 625%Z 636%Z
         | api_lt 9056700%Z 8920%Z 930%Z 625%Z 636%Z].
Qed.

Lemma api_TBP_70 : 930 < Rpower ((265 + 273.15) * 9.0 / 5.0 / 0.8705) (1.0 / 1.0226)
                   /\ Rpower ((265 + 273.15) * 9.0 / 5.0 / 0.8705) (1.0 / 1.0226) < 970.
Proof.
  split; [api_gt 9686700%Z 8705%Z 930%Z 5000%Z 5113%Z
         | api_lt 9686700%Z 8705%Z 970%Z 5000%Z 5113%Z].
Qed.

Lemma api_TBP_90 : 970 < Rpower ((290 + 273.15) * 9.0 / 5.0 / 0.9490) (1.0 / 1.0110)
                   /\ Rpower ((290 + 273.15) * 9.0 / 5.0 / 0.9490) (1.0 / 1.0110) < 1000.
Proof.
  split; [api_gt 10136700%Z 9490%Z 970%Z 1000%Z 1011%Z
         | api_lt 10136700%Z 9490%Z 1000%Z 1000%Z 1011%Z].
Qed.

Lemma api_TBP_95 : 1000 < Rpower ((300 + 273.15) * 9.0 / 5.0 / 0.8008) (1.0 / 1.0355)
                   /\ Rpower ((300 + 273.15) * 9.0 / 5.0 / 0.8008) (1.0 / 1.0355) < 1050.
Proof.
  split; [api_gt 10316700%Z 8008%Z 1000%Z 2000%Z 2071%Z
         | api_lt 10316700%Z 8008%Z 1050%Z 2000%Z 2071%Z].
Qed.

Lemma api_TBP_100 : 1050 < Rpower ((310 + 273.15) * 9.0 / 5.0 / 0.9167) (1.0 / 1.0019).
Proof. api_gt 10496700%Z 9167%Z 1050%Z 10000%Z 10019%Z. Qed.

Lemma curve_TBP_as_D86_increasing : increasing (map snd curve_TBP_as_D86).
Proof.
  pose proof api_TBP_0. pose proof api_TBP_10. pose proof api_TBP_30.
  pose proof api_TBP_50. pose proof api_TBP_70. pose proof api_TBP_90.
  pose proof api_TBP_95. pose proof api_TBP_100.
  unfold curve_TBP_as_D86, API_inverse_value. cbn [map snd fst].
  intros i Hi; cbn [List.length] in Hi;
    repeat (destruct i as [|i]; [cbn [nth]; lra|]); exfalso; lia.
Qed.

Lemma curve_TBP_as_D86_nonnegative : 0 <= nth 0 (map snd curve_TBP_as_D86) 0.
Proof.
  pose proof api_TBP_0.
  unfold curve_TBP_as_D86, API_inverse_value. cbn [map snd fst nth]. lra.
Qed.

Lemma curve_TBP_succeeds (d : R) (tag : string) :
  upper tag = "TBP"%string -> exists s, Oil.__init__ curve_TBP d tag = Ok s.
Proof.
  intros Htag.
  apply (TBP_construction_succeeds curve_TBP d tag (interpolant curve_TBP) curve_TBP_as_D86).
  - exact Htag.
  - exact curve_TBP_interpolant.
  - exact curve_TBP_to_D86.
  - exact curve_TBP_as_D86_increasing.
  - exact curve_TBP_as_D86_nonnegative.
Qed.

(** ** The exceptions of the curve computations *)

Lemma dispatched_ok {A : Type} (a : A) : dispatched (Ok a).
Proof. intros e H. discriminate. Qed.

Lemma dispatched_err {A : Type} (e : error) : curve_error e -> dispatched (@Err A e).
Proof. intros H e' E. injection E as <-. exact H. Qed.

Lemma dispatched_bind {A B : Type} (r : result A) (f : A -> result B) :
  dispatched r -> (forall a, dispatched (f a)) -> dispatched (bind r f).
Proof.
  intros Hr Hf e H. destruct r as [a|e0]; cbn [bind] in H.
  - exact (Hf a e H).
  - injection H as <-. now apply Hr.
Qed.

Lemma dispatched_mapM {A B : Type} (f : A -> result B) (l : list A) :
  (forall a, dispatched (f a)) -> dispatched (mapM f l).
Proof.
  intros Hf. induction l as [|a l IH]; cbn [mapM]; [apply dispatched_ok|].
  apply dispatched_bind; [apply Hf|]. intros b.
  apply dispatched_bind; [exact IH|]. intros bs. apply dispatched_ok.
Qed.

Lemma dispatched_finite (o : option R) : dispatched (finite o).
Proof. destruct o; [apply dispatched_ok | apply dispatched_err; exact I]. Qed.

Lemma dispatched_table_get (k : Z) (tb : list (Z * (R * R))) : dispatched (table_get k tb).
Proof.
  induction tb as [|[k' v] tb IH]; cbn [table_get]; [apply dispatched_err; exact I|].
  destruct (Z.eqb k k'); [apply dispatched_ok | exact IH].
Qed.

Lemma dispatched_dict_item (k : R) (d : dict) : dispatched (dict_item k d).
Proof.
  unfold dict_item. destruct (dict_get k d); [apply dispatched_ok | apply dispatched_err; exact I].
Qed.

Lemma dispatched_convert (v : R) (a b : string) :
  dispatched (Oil.convert_temperature v a b).
Proof.
  unfold Oil.convert_temperature.
  destruct (str_get (upper a) Oil.unit_map); [|apply dispatched_err; exact I].
  destruct (str_get (upper b) Oil.unit_map); [|apply dispatched_err; exact I].
  destruct (String.eqb s s0); [apply dispatched_ok|].
  apply dispatched_bind.
  - repeat (match goal with |- dispatched (if ?c then _ else _) => destruct c end;
            [apply dispatched_ok|]).
    apply dispatched_err; exact I.
  - intros celsius.
    repeat (match goal with |- dispatched (if ?c then _ else _) => destruct c end;
            [apply dispatched_ok|]).
    apply dispatched_err; exact I.
Qed.

Lemma dispatched_init (xs ys : list R) : dispatched (__init__ xs ys).
Proof.
  unfold __init__. apply dispatched_bind; [|intros; apply dispatched_ok].
  unfold prepare_input.
  repeat (match goal with |- dispatched (if ?c then _ else _) => destruct c end;
          [apply dispatched_err; exact I|]).
  apply dispatched_ok.
Qed.

Lemma dispatched_interpolator_of (l : list (R * R)) : dispatched (Oil.interpolator_of l).
Proof. apply dispatched_init. Qed.

Lemma dispatched_power_law (ab : R * R) (v : R) : dispatched (Oil.power_law ab v).
Proof.
  unfold Oil.power_law. apply dispatched_bind; [apply dispatched_finite|].
  intros; apply dispatched_ok.
Qed.

(** Solve [dispatched] goals by following the structure of the computation. *)
Ltac dispatch_step :=
  first
    [ apply dispatched_ok
    | apply dispatched_finite
    | apply dispatched_table_get
    | apply dispatched_dict_item
    | apply dispatched_convert
    | apply dispatched_interpolator_of
    | apply dispatched_init
    | apply dispatched_power_law
    | apply dispatched_mapM; intros ?
    | apply dispatched_bind; [ | intros ? ]
    | match goal with
      | |- dispatched (let '(_, _) := ?p in _) => destruct p
      | |- dispatched (if ?c then _ else _) => destruct c
      end ].
Ltac dispatch := repeat dispatch_step.

Lemma dispatched_API_D86_TBP (d86 : list (R * R)) : dispatched (Oil.API_D86_TBP d86).
Proof. unfold Oil.API_D86_TBP. dispatch. Qed.

Lemma dispatched_Daubert (D86 : list (R * R)) : dispatched (Oil.Daubert_ASTM_D86_TBP D86).
Proof.
  unfold Oil.Daubert_ASTM_D86_TBP, Oil.Daubert_D86_dict_r, Oil.Daubert_TBP_r_list. dispatch.
Qed.

Lemma dispatched_D86_to_D2887 (D86 : list (R * R)) : dispatched (Oil.D86_to_D2887 D86).
Proof. unfold Oil.D86_to_D2887. dispatch; apply dispatched_API_D86_TBP. Qed.

Lemma dispatched_D2887_to_D86 (D2887 : list (R * R)) : dispatched (Oil.D2887_to_D86 D2887).
Proof. unfold Oil.D2887_to_D86, Oil.riazi_point. dispatch. Qed.

Lemma dispatched_D2887_to_TBP_direct (D2887 : list (R * R)) :
  dispatched (Oil.D2887_to_TBP_direct D2887).
Proof. unfold Oil.D2887_to_TBP_direct, Oil.riazi_point. dispatch. Qed.

Lemma dispatched_TBP_to_D86 (TBP : list (R * R)) : dispatched (Oil.TBP_to_D86 TBP).
Proof. unfold Oil.TBP_to_D86. dispatch. Qed.

Lemma dispatched_properties (d : R) (tag : string) (D86 : list (R * R))
  (p tbp dau d2887 : t) : dispatched (Oil.properties d tag D86 p tbp dau d2887).
Proof.
  unfold Oil.properties, Oil.MeABP_, Oil.VABP_, Oil.D86_interop_F. dispatch.
Qed.

Ltac dispatch_oil :=
  repeat first
    [ apply dispatched_API_D86_TBP | apply dispatched_Daubert
    | apply dispatched_D86_to_D2887 | apply dispatched_D2887_to_D86
    | apply dispatched_D2887_to_TBP_direct | apply dispatched_TBP_to_D86
    | apply dispatched_properties | dispatch_step ].

Lemma accepted_tag_dispatched (pts : list (R * R)) (d : R) (tag : string) :
  str_in (upper tag) accepted_tags = true -> dispatched (Oil.__init__ pts d tag).
Proof.
  intros H. unfold Oil.__init__, Oil.D2887_to_D2887_interp, Oil.TBP_to_TBP_interp.
  unfold accepted_tags in H. cbn [str_in] in H.
  destruct (String.eqb (upper tag) "D86"); [dispatch_oil|].
  cbn [str_in].
  destruct (String.eqb (upper tag) "D2887"); [cbn [orb]; dispatch_oil|].
  destruct (String.eqb (upper tag) "SIMDIS"); [cbn [orb]; dispatch_oil|].
  cbn [orb].
  destruct (String.eqb (upper tag) "TBP"); [|discriminate H].
  dispatch_oil.
Qed.

Lemma unaccepted_tag_raises (pts : list (R * R)) (d : R) (tag : string) :
  str_in (upper tag) accepted_tags = false ->
  Oil.__init__ pts d tag = Err (UnknownInputType tag).
Proof.
  intros H. unfold accepted_tags in H. cbn [str_in] in H.
  unfold Oil.__init__. cbn [str_in].
  destruct (String.eqb (upper tag) "D86"); [discriminate H|].
  destruct (String.eqb (upper tag) "D2887"); [discriminate H|].
  destruct (String.eqb (upper tag) "SIMDIS"); [discriminate H|].
  destruct (String.eqb (upper tag) "TBP"); [discriminate H|].
  reflexivity.
Qed.

Lemma accepted_tag_constructs (tag : string) :
  str_in (upper tag) accepted_tags = true ->
  exists pts d s, Oil.__init__ pts d tag = Ok s.
Proof.
  intros H. unfold accepted_tags in H. cbn [str_in] in H.
  destruct (String.eqb_spec (upper tag) "D86") as [E|_].
  { exists curve2, 820.
    apply D86_construction_succeeds; auto; unfold curve2;
      cbn [map fst snd List.length nth Nat.sub]; try lia; try lra; increasing_list. }
  destruct (str_in (upper tag) ["D2887"; "SIMDIS"]%string) eqn:E28.
  { exists curve7, 820.
    apply (D2887_construction_succeeds curve7 820 tag (interpolant curve7) curve7_as_D86).
    - exact E28.
    - exact curve7_interpolant.
    - exact curve7_above_absolute_zero.
    - exact curve7_to_D86.
    - exact curve7_as_D86_increasing.
    - exact curve7_as_D86_nonnegative. }
  cbn [str_in] in E28.
  destruct (String.eqb (upper tag) "D2887"); [discriminate E28|].
  destruct (String.eqb (upper tag) "SIMDIS"); [discriminate E28|].
  destruct (String.eqb_spec (upper tag) "TBP") as [E|_]; [|discriminate H].
  exists curve_TBP, 820. now apply curve_TBP_succeeds.
Qed.

(** ** C6: the family tag *)

(** [str.upper] turns a long s into S and a dotless i into I, so that a tag or
    a unit name written with them is the key it looks like. *)
Lemma upper_of_long_s_and_dotless_i :
  upper "ſimdis" = "SIMDIS"%string /\ upper "sımdıs" = "SIMDIS"%string
  /\ upper "celſius" = "CELSIUS"%string /\ upper "Straße" = "STRASSE"%string
  /\ upper "ﬂuﬀ" = "FLUFF"%string /\ upper "°c" = "°C"%string.
Proof. repeat split; reflexivity. Qed.

(** C6 (as amended).  A family tag is accepted when its upper-case form, as
    [str.upper] gives it, is one of D86, D2887, SIMDIS, TBP.  For an accepted
    tag some input constructs a sample and no input raises the unknown-family
    error; for every other tag every input raises it, with the tag as it was
    given in the message. *)
Theorem family_tag_dispatch (tag : string) :
  (str_in (upper tag) accepted_tags = true ->
   (exists pts d s, Oil.__init__ pts d tag = Ok s)
   /\ forall pts d tag', Oil.__init__ pts d tag <> Err (UnknownInputType tag'))
  /\ (str_in (upper tag) accepted_tags = false ->
      forall pts d, Oil.__init__ pts d tag = Err (UnknownInputType tag)).
Proof.
  split.
  - intros H. split; [exact (accepted_tag_constructs tag H)|].
    intros pts d tag' E. exact (accepted_tag_dispatched pts d tag H _ E).
  - intros H pts d. exact (unaccepted_tag_raises pts d tag H).
Qed.

Lemma family_tag_dispatch_witness :
  str_in (upper "SimDis") accepted_tags = true
  /\ (exists pts d s, Oil.__init__ pts d "SimDis" = Ok s)
  /\ str_in (upper "ſimdis") accepted_tags = true
  /\ (forall pts d tag', Oil.__init__ pts d "ſimdis" <> Err (UnknownInputType tag'))
  /\ str_in (upper "naphtha") accepted_tags = false
  /\ (forall pts d, Oil.__init__ pts d "naphtha" = Err (UnknownInputType "naphtha")).
Proof.
  split; [reflexivity|].
  split; [exact (proj1 (proj1 (family_tag_dispatch "SimDis") eq_refl))|].
  split; [reflexivity|].
  split; [exact (proj2 (proj1 (family_tag_dispatch "ſimdis") eq_refl))|].
  split; [reflexivity|].
  exact (proj2 (family_tag_dispatch "naphtha") eq_refl).
Defined.

(** C6, counterexample.  The tag "SimDist" is rejected: upper-cased it is
    SIMDIST, and the constructor compares with SIMDIS. *)
Lemma SimDist_is_rejected :
  upper "SimDist" = "SIMDIST"%string
  /\ Oil.__init__ curve7 820 "SimDist" = Err (UnknownInputType "SimDist").
Proof. split; reflexivity. Qed.

(** ** C10: the knots of the TBP interpolants *)

(** Above 90 %vol an interpolant with knots 0, 10, 30, 50, 70, 90, 95 is the
    cubic of its last segment, from 90 to 95. *)
Lemma call_last_segment (q : t) (v : R) :
  x q = map IZR Oil.vol_distl_list -> 90 <= v ->
  __call__ q v = evaluate_poly1 (v - 90) (nth 5 (c q) (0, 0, 0, 0)).
Proof.
  intros Hx Hv. unfold __call__. rewrite Hx.
  assert (Hi : find_interval (map IZR Oil.vol_distl_list) v = 5%nat).
  { unfold Oil.vol_distl_list. cbn [map find_interval]. rdec. reflexivity. }
  rewrite Hi. reflexivity.
Qed.

(** C10 (as amended).  For every constructed sample the Daubert-method TBP
    interpolant has exactly the knots 0, 10, 30, 50, 70, 90, 95, so that at any
    [v >= 90], and at any [v > 95] in particular, its value is that of the
    cubic of the last segment.  The exposed API-method TBP interpolant has these
    knots for the D86 family; for the D2887 family its knots are 0, 10, 30, 50,
    70, 90, 100, and for the TBP family they are the volumes of the input. *)
Theorem TBP_interpolant_knots (pts : list (R * R)) (d : R) (tag : string) (s : Oil.t) :
  Oil.__init__ pts d tag = Ok s ->
  x (Oil.Daubert_TBP_interp s) = [0; 10; 30; 50; 70; 90; 95]
  /\ (forall v, 90 <= v ->
        __call__ (Oil.Daubert_TBP_interp s) v
        = evaluate_poly1 (v - 90) (nth 5 (c (Oil.Daubert_TBP_interp s)) (0, 0, 0, 0)))
  /\ (upper tag = "D86"%string ->
      x (Oil.TBP_interp s) = [0; 10; 30; 50; 70; 90; 95]
      /\ forall v, 90 <= v ->
           __call__ (Oil.TBP_interp s) v
           = evaluate_poly1 (v - 90) (nth 5 (c (Oil.TBP_interp s)) (0, 0, 0, 0)))
  /\ (str_in (upper tag) ["D2887"; "SIMDIS"]%string = true ->
      x (Oil.TBP_interp s) = [0; 10; 30; 50; 70; 90; 100])
  /\ (upper tag = "TBP"%string -> x (Oil.TBP_interp s) = map fst pts).
Proof.
  intros H. destruct (init_fields _ _ _ _ H) as (_ & _ & _ & HD & Hcase).
  pose proof (Daubert_knots _ _ HD) as Kd.
  split; [exact Kd|]. split; [intros v Hv; now apply call_last_segment|].
  destruct Hcase as [(T & _ & E & _) | [(T & _ & E & _) | (T & _ & E & _)]].
  - split.
    + intros _. destruct (API_D86_TBP_inv _ _ _ E) as (_ & Kq).
      split; [exact Kq | intros v Hv; now apply call_last_segment].
    + split; intros C; [rewrite (tag_D86_not_D2887 _ T) in C | rewrite T in C];
        discriminate.
  - split; [intros C; rewrite (tag_D86_not_D2887 _ C) in T; discriminate|].
    split; [intros _; exact (D2887_to_TBP_direct_knots _ _ E)|].
    intros C. rewrite C in T. discriminate.
  - split; [intros C; rewrite T in C; discriminate|].
    split; [intros C; rewrite T in C; discriminate|].
    intros _. now destruct (interpolator_of_ok _ _ E) as (_ & _ & ->).
Qed.

Lemma TBP_interpolant_knots_witness :
  exists s,
    Oil.__init__ curve3 820 "D86" = Ok s /\
    x (Oil.Daubert_TBP_interp s) = [0; 10; 30; 50; 70; 90; 95] /\
    x (Oil.TBP_interp s) = [0; 10; 30; 50; 70; 90; 95] /\
    __call__ (Oil.TBP_interp s) 100
    = evaluate_poly1 (100 - 90) (nth 5 (c (Oil.TBP_interp s)) (0, 0, 0, 0)).
Proof.
  destruct (curve3_D86_succeeds 820) as (s & Hs). exists s.
  destruct (TBP_interpolant_knots curve3 820 "D86" s Hs) as (Kd & _ & H86 & _).
  destruct (H86 eq_refl) as (Kq & Hv).
  split; [exact Hs|]. split; [exact Kd|]. split; [exact Kq|].
  apply Hv. lra.
Defined.

(** C10, counterexample.  Constructed from the seven-point curve as D2887 data,
    the sample exposes a TBP interpolant with a knot at 100 and none at 95. *)
Lemma D2887_family_TBP_has_a_knot_at_100 :
  exists s,
    Oil.__init__ curve7 820 "D2887" = Ok s /\
    x (Oil.TBP_interp s) = [0; 10; 30; 50; 70; 90; 100] /\
    x (Oil.TBP_interp s) <> [0; 10; 30; 50; 70; 90; 95].
Proof.
  destruct (curve7_D2887_succeeds 820) as (s & Hs). exists s.
  destruct (init_fields _ _ _ _ Hs) as (_ & _ & _ & _ & [(C & _) | [(_ & _ & E & _) | (C & _)]]);
    [ discriminate C | | discriminate C ].
  pose proof (D2887_to_TBP_direct_knots _ _ E) as K.
  split; [exact Hs|]. split; [exact K|].
  rewrite K. intros C. injection C as C. lra.
Qed.

(** * Further properties of the code *)

(** ** [convert_temperature]: units *)

Lemma convert_unit_check (x : R) (A B : string) :
  (recognized A -> recognized B -> exists y, Oil.convert_temperature x A B = Ok y)
  /\ (~ recognized A \/ ~ recognized B ->
      Oil.convert_temperature x A B = Err UnsupportedUnit).
Proof.
  unfold Oil.convert_temperature, recognized. split.
  - intros [a Ha] [b Hb]. rewrite Ha, Hb.
    destruct (unit_map_values _ _ Ha) as [-> | [-> | [-> | ->]]];
      destruct (unit_map_values _ _ Hb) as [-> | [-> | [-> | ->]]];
      simpl; eexists; reflexivity.
  - intros H.
    destruct (str_get (upper A) Oil.unit_map) as [a|] eqn:Ha; [|reflexivity].
    destruct (str_get (upper B) Oil.unit_map) as [b|] eqn:Hb; [|reflexivity].
    exfalso. destruct H as [H|H]; apply H; eauto.
Qed.

(** X1.  [convert_temperature] returns a value exactly when both unit strings
    are recognised (their upper-case form, as [str.upper] gives it, is a key of
    the unit table); when either is not, it raises the unsupported-unit
    [ValueError], also when the two strings are equal. *)
Theorem convert_temperature_unit_check (x : R) (A B : string) :
  (recognized A -> recognized B -> exists y, Oil.convert_temperature x A B = Ok y)
  /\ (~ recognized A \/ ~ recognized B ->
      Oil.convert_temperature x A B = Err UnsupportedUnit).
Proof. exact (convert_unit_check x A B). Qed.

Lemma kelvin_recognized : recognized "kelvin".
Proof. exists "K"%string; reflexivity. Qed.

Lemma rankine_recognized : recognized "°R".
Proof. exists "R"%string; reflexivity. Qed.

Lemma fahrenheit_recognized : recognized "Fahrenheit".
Proof. exists "F"%string; reflexivity. Qed.

Lemma centigrade_not_recognized : ~ recognized "centigrade".
Proof. intros [u Hu]. discriminate Hu. Qed.

Lemma celsius_with_long_s_recognized : recognized "celſius".
Proof. exists "C"%string; reflexivity. Qed.

Lemma convert_temperature_unit_check_witness :
  (exists y, Oil.convert_temperature 300 "kelvin" "°R" = Ok y)
  /\ (exists y, Oil.convert_temperature 5 "celſius" "Fahrenheit" = Ok y)
  /\ Oil.convert_temperature 300 "centigrade" "centigrade" = Err UnsupportedUnit.
Proof.
  split; [|split].
  - exact (proj1 (convert_temperature_unit_check 300 "kelvin" "°R")
                 kelvin_recognized rankine_recognized).
  - exact (proj1 (convert_temperature_unit_check 5 "celſius" "Fahrenheit")
                 celsius_with_long_s_recognized fahrenheit_recognized).
  - exact (proj2 (convert_temperature_unit_check 300 "centigrade" "centigrade")
                 (or_introl centigrade_not_recognized)).
Defined.

Lemma convert_composition (x : R) (A B C : string) :
  recognized A -> recognized B -> recognized C ->
  exists y z,
    Oil.convert_temperature x A B = Ok y /\
    Oil.convert_temperature y B C = Ok z /\
    Oil.convert_temperature x A C = Ok z.
Proof.
  intros [a Ha] [b Hb] [c Hc].
  unfold Oil.convert_temperature. rewrite Ha, Hb, Hc.
  destruct (unit_map_values _ _ Ha) as [-> | [-> | [-> | ->]]];
    destruct (unit_map_values _ _ Hb) as [-> | [-> | [-> | ->]]];
    destruct (unit_map_values _ _ Hc) as [-> | [-> | [-> | ->]]];
    simpl; eexists; eexists; (split; [reflexivity | split; [reflexivity | ]]);
    f_equal; lra.
Qed.

(** X2.  Over the reals, unit conversions compose: for recognised units [A],
    [B], [C], converting from [A] to [B] and then from [B] to [C] gives the
    value of the direct conversion from [A] to [C]. *)
Theorem convert_temperature_composition (x : R) (A B C : string) :
  recognized A -> recognized B -> recognized C ->
  exists y z,
    Oil.convert_temperature x A B = Ok y /\
    Oil.convert_temperature y B C = Ok z /\
    Oil.convert_temperature x A C = Ok z.
Proof. exact (convert_composition x A B C). Qed.

Lemma convert_temperature_composition_witness :
  exists y z,
    Oil.convert_temperature 300 "kelvin" "°R" = Ok y /\
    Oil.convert_temperature y "°R" "Fahrenheit" = Ok z /\
    Oil.convert_temperature 300 "kelvin" "Fahrenheit" = Ok z.
Proof.
  exact (convert_temperature_composition 300 "kelvin" "°R" "Fahrenheit"
           kelvin_recognized rankine_recognized fahrenheit_recognized).
Defined.

Lemma convert_increasing (x1 x2 y1 y2 : R) (A B : string) :
  Oil.convert_temperature x1 A B = Ok y1 ->
  Oil.convert_temperature x2 A B = Ok y2 ->
  x1 < x2 -> y1 < y2.
Proof.
  unfold Oil.convert_temperature.
  destruct (str_get (upper A) Oil.unit_map) as [a|] eqn:Ha; [|discriminate].
  destruct (str_get (upper B) Oil.unit_map) as [b|] eqn:Hb; [|discriminate].
  destruct (unit_map_values _ _ Ha) as [-> | [-> | [-> | ->]]];
    destruct (unit_map_values _ _ Hb) as [-> | [-> | [-> | ->]]];
    simpl; intros H1 H2 Hlt; injection H1 as <-; injection H2 as <-; lra.
Qed.

(** X3.  A unit conversion preserves the order of temperatures: if [x1 < x2]
    and both are converted between the same two units, the results are in the
    same strict order. *)
Theorem convert_temperature_increasing (x1 x2 y1 y2 : R) (A B : string) :
  Oil.convert_temperature x1 A B = Ok y1 ->
  Oil.convert_temperature x2 A B = Ok y2 ->
  x1 < x2 -> y1 < y2.
Proof. exact (convert_increasing x1 x2 y1 y2 A B). Qed.

Lemma convert_temperature_increasing_witness :
  Oil.convert_temperature 160 "C" "F" = Ok (160 * 9.0 / 5.0 + 32)
  /\ Oil.convert_temperature 290 "C" "F" = Ok (290 * 9.0 / 5.0 + 32)
  /\ 160 * 9.0 / 5.0 + 32 < 290 * 9.0 / 5.0 + 32.
Proof.
  split; [reflexivity|]. split; [reflexivity|].
  apply (convert_temperature_increasing 160 290 _ _ "C" "F");
    [reflexivity | reflexivity | lra].
Defined.

(** ** [Oil.__init__]: the curves of a constructed sample *)

Lemma curves_through_points (pts : list (R * R)) (d : R) (tag : string) (s : Oil.t) :
  Oil.__init__ pts d tag = Ok s ->
  (forall v temp, In (v, temp) (Oil.D86 s) -> __call__ (Oil.D86_interp s) v = temp)
  /\ (upper tag = "D86"%string ->
      forall v temp, In (v, temp) pts -> __call__ (Oil.D86_interp s) v = temp)
  /\ (str_in (upper tag) ["D2887"; "SIMDIS"]%string = true ->
      forall v temp, In (v, temp) pts -> __call__ (Oil.D2887_interp s) v = temp)
  /\ (upper tag = "TBP"%string ->
      forall v temp, In (v, temp) pts -> __call__ (Oil.TBP_interp s) v = temp).
Proof.
  intros H.
  destruct (init_fields _ _ _ _ H) as (Hp & _ & _ & _ & Hcase).
  split; [intros v temp Hin; exact (call_at_point _ _ _ _ Hp Hin)|].
  split; [|split].
  - intros E v temp Hin.
    destruct Hcase as [(_ & E86 & _) | [(E28 & _) | (ET & _)]].
    + rewrite E86 in Hp. exact (call_at_point _ _ _ _ Hp Hin).
    + rewrite E in E28. discriminate.
    + rewrite E in ET. discriminate.
  - intros E v temp Hin.
    destruct Hcase as [(E86 & _) | [(_ & _ & _ & Hq) | (ET & _)]].
    + rewrite E86 in E. discriminate.
    + exact (call_at_point _ _ _ _ Hq Hin).
    + rewrite ET in E. discriminate.
  - intros E v temp Hin.
    destruct Hcase as [(E86 & _) | [(E28 & _) | (_ & _ & Hq & _)]].
    + rewrite E86 in E. discriminate.
    + rewrite E in E28. discriminate.
    + exact (call_at_point _ _ _ _ Hq Hin).
Qed.

(** X4.  The curve of the input family reproduces the input: in a constructed
    sample the D86 curve passes through every stored D86 point, and the curve
    of the family named by the tag ([D86_interp], [D2887_interp] or
    [TBP_interp]) passes through every input point. *)
Theorem input_curve_reproduces_input (pts : list (R * R)) (d : R) (tag : string)
  (s : Oil.t) :
  Oil.__init__ pts d tag = Ok s ->
  (forall v temp, In (v, temp) (Oil.D86 s) -> __call__ (Oil.D86_interp s) v = temp)
  /\ (upper tag = "D86"%string ->
      forall v temp, In (v, temp) pts -> __call__ (Oil.D86_interp s) v = temp)
  /\ (str_in (upper tag) ["D2887"; "SIMDIS"]%string = true ->
      forall v temp, In (v, temp) pts -> __call__ (Oil.D2887_interp s) v = temp)
  /\ (upper tag = "TBP"%string ->
      forall v temp, In (v, temp) pts -> __call__ (Oil.TBP_interp s) v = temp).
Proof. exact (curves_through_points pts d tag s). Qed.

Lemma input_curve_reproduces_input_witness :
  exists s,
    Oil.__init__ curve7 820 "D2887" = Ok s /\
    __call__ (Oil.D2887_interp s) 50 = 225.
Proof.
  destruct (curve7_D2887_succeeds 820) as (s & Hs). exists s.
  split; [exact Hs|].
  destruct (input_curve_reproduces_input curve7 820 "D2887" s Hs) as (_ & _ & H & _).
  apply (H eq_refl 50 225). unfold curve7. simpl. auto.
Defined.

Lemma two_point_line (v0 t0 v1 t1 : R) (p : t) (v : R) :
  Oil.interpolator_of [(v0, t0); (v1, t1)] = Ok p ->
  __call__ p v = t0 + (t1 - t0) / (v1 - v0) * (v - v0).
Proof.
  intros Hp. unfold Oil.interpolator_of in Hp. cbn [map fst snd] in Hp.
  rewrite (call_segment _ _ _ v Hp). cbv zeta.
  rewrite find_derivatives_two by reflexivity.
  cbn [find_interval nth]. unfold slope, spacing. cbn [nth].
  unfold segment, evaluate_poly1. unfold Rdiv. ring.
Qed.

(** X5.  A sample built from two D86 points has the straight line through
    them as its D86 curve, at every abscissa, also outside the two points. *)
Theorem two_point_D86_is_linear (v0 t0 v1 t1 d : R) (tag : string) (s : Oil.t) :
  upper tag = "D86"%string ->
  Oil.__init__ [(v0, t0); (v1, t1)] d tag = Ok s ->
  forall v, __call__ (Oil.D86_interp s) v = t0 + (t1 - t0) / (v1 - v0) * (v - v0).
Proof.
  intros E H v.
  destruct (init_fields _ _ _ _ H) as (Hp & _ & _ & _ & Hcase).
  destruct Hcase as [(_ & E86 & _) | [(E28 & _) | (ET & _)]].
  - rewrite E86 in Hp. exact (two_point_line _ _ _ _ _ v Hp).
  - rewrite E in E28. discriminate.
  - rewrite E in ET. discriminate.
Qed.

Lemma two_point_D86_is_linear_witness :
  exists s,
    Oil.__init__ curve2 820 "D86" = Ok s /\
    __call__ (Oil.D86_interp s) 50 = 160 + (290 - 160) / (100 - 0) * (50 - 0).
Proof.
  destruct (curve2_D86_succeeds 820) as (s & Hs). exists s.
  split; [exact Hs|].
  exact (two_point_D86_is_linear 0 160 100 290 820 "D86" s eq_refl Hs 50).
Defined.

Lemma spaced_increasing (gap : R) (l : list R) :
  0 < gap -> spaced gap l -> increasing l.
Proof. intros Hg H i Hi. specialize (H i Hi). lra. Qed.

(** X6.  A D86-family construction succeeds on a curve in the ordinary range of
    the data: at least two points; volumes that start at 0 %vol, end between 95
    and 100 %vol and are at least 0.001 %vol apart; temperatures that start at
    or above 0 °C, end at or below 1000 °C and rise by at least 0.001 °C from
    one point to the next.  (In this range no float operation of the
    construction overflows, and rounding does not change the order of two
    temperatures.) *)
Theorem D86_sample_is_constructed (pts : list (R * R)) (d : R) (tag : string) :
  upper tag = "D86"%string ->
  (2 <= List.length pts)%nat ->
  spaced (1 / 1000) (map fst pts) -> spaced (1 / 1000) (map snd pts) ->
  nth 0 (map fst pts) 0 = 0 ->
  95 <= nth (List.length (map fst pts) - 1) (map fst pts) 0 <= 100 ->
  0 <= nth 0 (map snd pts) 0 ->
  nth (List.length (map snd pts) - 1) (map snd pts) 0 <= 1000 ->
  exists s, Oil.__init__ pts d tag = Ok s.
Proof.
  intros Htag Hlen Hx Hy H0 [H95 _] Hpos _.
  apply (D86_construction_succeeds pts d tag); try assumption.
  - apply (spaced_increasing (1 / 1000)); [lra | exact Hx].
  - apply (spaced_increasing (1 / 1000)); [lra | exact Hy].
  - lra.
Qed.

Lemma curve3_volumes_increasing : increasing (map fst curve3).
Proof. unfold curve3. increasing_list. Qed.

Lemma curve3_temperatures_increasing : increasing (map snd curve3).
Proof. unfold curve3. increasing_list. Qed.

Ltac spaced_list :=
  intros i Hi; simpl in Hi;
  repeat (destruct i as [|i]; [simpl; lra|]);
  exfalso; lia.

Lemma D86_sample_is_constructed_witness :
  exists s, Oil.__init__ curve3 820 "d86" = Ok s.
Proof.
  apply (D86_sample_is_constructed curve3 820 "d86").
  - reflexivity.
  - unfold curve3. simpl. lia.
  - unfold curve3. spaced_list.
  - unfold curve3. spaced_list.
  - reflexivity.
  - unfold curve3. simpl. lra.
  - unfold curve3. simpl. lra.
  - unfold curve3. simpl. lra.
Defined.

Lemma interpolator_of_not_increasing (l : list (R * R)) (i : nat) :
  (S i < List.length l)%nat ->
  nth (S i) (map fst l) 0 <= nth i (map fst l) 0 ->
  Oil.interpolator_of l = Err NotIncreasing.
Proof.
  intros Hi Hle. unfold Oil.interpolator_of, __init__, prepare_input.
  rewrite !length_map.
  destruct (Nat.ltb_spec (List.length l) 2) as [Hlt|_]; [lia|].
  rewrite Nat.eqb_refl. cbn [negb].
  assert (E : existsb (fun dx => Rleb dx 0) (diff (map fst l)) = true).
  { apply existsb_exists. exists (nth i (diff (map fst l)) 0). split.
    - apply nth_In. rewrite diff_length, length_map. lia.
    - rewrite diff_nth by (rewrite length_map; exact Hi).
      unfold Rleb. destruct (Rle_dec _ 0) as [_|N]; [reflexivity|]. exfalso; lra. }
  rewrite E. reflexivity.
Qed.

Lemma accepted_tags_cases (u : string) :
  str_in u accepted_tags = true ->
  u = "D86"%string \/ u = "D2887"%string \/ u = "SIMDIS"%string \/ u = "TBP"%string.
Proof.
  unfold accepted_tags. cbn [str_in].
  destruct (String.eqb_spec u "D86"); [auto|].
  destruct (String.eqb_spec u "D2887"); [auto|].
  destruct (String.eqb_spec u "SIMDIS"); [auto|].
  destruct (String.eqb_spec u "TBP"); [auto|].
  discriminate.
Qed.

Lemma not_increasing_raises (pts : list (R * R)) (d : R) (tag : string) (i : nat) :
  str_in (upper tag) accepted_tags = true ->
  (S i < List.length pts)%nat ->
  nth (S i) (map fst pts) 0 <= nth i (map fst pts) 0 ->
  Oil.__init__ pts d tag = Err NotIncreasing.
Proof.
  intros Htag Hi Hle.
  pose proof (interpolator_of_not_increasing pts i Hi Hle) as E.
  unfold Oil.__init__.
  destruct (accepted_tags_cases _ Htag) as [-> | [-> | [-> | ->]]];
    simpl String.eqb; simpl str_in; cbv iota.
  - unfold Oil.API_D86_TBP. rewrite E. reflexivity.
  - unfold Oil.D2887_to_D86. rewrite E. reflexivity.
  - unfold Oil.D2887_to_D86. rewrite E. reflexivity.
  - unfold Oil.TBP_to_D86. rewrite E. reflexivity.
Qed.

(** X7.  Input volumes that are not strictly increasing (a repeated or an
    out-of-order volume at some position) make the construction fail with the
    interpolator's "must be strictly increasing" error, for every accepted
    family tag. *)
Theorem volumes_must_increase (pts : list (R * R)) (d : R) (tag : string) (i : nat) :
  str_in (upper tag) accepted_tags = true ->
  (S i < List.length pts)%nat ->
  nth (S i) (map fst pts) 0 <= nth i (map fst pts) 0 ->
  Oil.__init__ pts d tag = Err NotIncreasing.
Proof. exact (not_increasing_raises pts d tag i). Qed.

Lemma volumes_must_increase_witness :
  Oil.__init__ [(0, 160); (50, 225); (50, 230)] 820 "TBP" = Err NotIncreasing.
Proof.
  apply (volumes_must_increase [(0, 160); (50, 225); (50, 230)] 820 "TBP" 1).
  - reflexivity.
  - simpl. lia.
  - simpl. lra.
Defined.

(** ** The D2887 family: order of the three curves at the key points *)

(** The Riazi law towards TBP raises a temperature above 1 degree Rankine. *)
Lemma power_law_above (a b x : R) :
  1 < a -> 1 < b -> 1 < x -> x < a * Rpower x b.
Proof.
  intros Ha Hb Hx.
  assert (x < Rpower x b).
  { rewrite <- (Rpower_1 x) at 1 by lra. apply Rpower_lt; assumption. }
  nra.
Qed.

Lemma riazi_d86_coefficients_range (vol : Z) :
  In vol Oil.key_points ->
  0 < fst (Oil.table_get_default vol Oil.riazi_d86_coefficients (0, 0)) < 1
  /\ snd (Oil.table_get_default vol Oil.riazi_d86_coefficients (0, 0)) < 1.
Proof.
  intros H.
  repeat (destruct H as [<-|H];
          [unfold Oil.table_get_default; cbn [table_get Oil.riazi_d86_coefficients Z.eqb
                                               Pos.eqb fst snd]; lra|]).
  destruct H.
Qed.

Lemma riazi_tbp_coefficients_range (vol : Z) :
  In vol Oil.key_points ->
  1 < fst (Oil.table_get_default vol Oil.riazi_tbp_coefficients (0, 0))
  /\ 1 < snd (Oil.table_get_default vol Oil.riazi_tbp_coefficients (0, 0)).
Proof.
  intros H.
  repeat (destruct H as [<-|H];
          [unfold Oil.table_get_default; cbn [table_get Oil.riazi_tbp_coefficients Z.eqb
                                               Pos.eqb fst snd]; lra|]).
  destruct H.
Qed.

(** The values of the two Riazi conversions at a key point. *)
Lemma D2887_to_D86_at (D2887 l : list (R * R)) (p q : t) (vol : Z) :
  Oil.interpolator_of D2887 = Ok p ->
  (forall vol, In vol Oil.key_points -> 0 < __call__ p (IZR vol) * 9 / 5 + 491.67) ->
  Oil.D2887_to_D86 D2887 = Ok l -> Oil.interpolator_of l = Ok q ->
  In vol Oil.key_points ->
  __call__ q (IZR vol)
  = riazi_value (Oil.table_get_default vol Oil.riazi_d86_coefficients (0, 0))
                (__call__ p (IZR vol)).
Proof.
  intros Hp Hpos Hl Hq Hin.
  unfold Oil.D2887_to_D86 in Hl. rewrite Hp in Hl. cbn [bind] in Hl.
  rewrite (riazi_points_value _ p riazi_d86_keys Hpos) in Hl. cbn [bind] in Hl.
  set (f := fun vol : Z => (IZR vol, _)) in Hl.
  assert (Hk : map fst (map f Oil.key_points) = map IZR Oil.key_points) by reflexivity.
  rewrite sorted_increasing in Hl by (rewrite Hk; apply key_points_increasing).
  assert (El : l = map f Oil.key_points) by congruence.
  rewrite El in Hq.
  apply (call_at_point _ _ _ _ Hq). exact (in_map f _ _ Hin).
Qed.

Lemma D2887_to_TBP_direct_at (D2887 : list (R * R)) (p q : t) (vol : Z) :
  Oil.interpolator_of D2887 = Ok p ->
  (forall vol, In vol Oil.key_points -> 0 < __call__ p (IZR vol) * 9 / 5 + 491.67) ->
  Oil.D2887_to_TBP_direct D2887 = Ok q ->
  In vol Oil.key_points ->
  __call__ q (IZR vol)
  = riazi_value (Oil.table_get_default vol Oil.riazi_tbp_coefficients (0, 0))
                (__call__ p (IZR vol)).
Proof.
  intros Hp Hpos Hq Hin.
  unfold Oil.D2887_to_TBP_direct in Hq. rewrite Hp in Hq. cbn [bind] in Hq.
  rewrite (riazi_points_value _ p riazi_tbp_keys Hpos) in Hq. cbn [bind] in Hq.
  set (f := fun vol : Z => (IZR vol, _)) in Hq.
  assert (Hk : map fst (map f Oil.key_points) = map IZR Oil.key_points) by reflexivity.
  rewrite sorted_increasing in Hq by (rewrite Hk; apply key_points_increasing).
  apply (call_at_point _ _ _ _ Hq). exact (in_map f _ _ Hin).
Qed.

Lemma D2887_family_order (pts : list (R * R)) (d : R) (tag : string) (s : Oil.t) :
  Oil.__init__ pts d tag = Ok s ->
  str_in (upper tag) ["D2887"; "SIMDIS"]%string = true ->
  (forall vol, In vol Oil.key_points ->
               1 < __call__ (Oil.D2887_interp s) (IZR vol) * 9 / 5 + 491.67) ->
  forall vol, In vol Oil.key_points ->
    __call__ (Oil.D86_interp s) (IZR vol) < __call__ (Oil.D2887_interp s) (IZR vol)
    /\ __call__ (Oil.D2887_interp s) (IZR vol) < __call__ (Oil.TBP_interp s) (IZR vol).
Proof.
  intros H Htag Habove vol Hin.
  destruct (init_fields _ _ _ _ H) as (Hq & _ & _ & _ & Hcase).
  destruct Hcase as [(E86 & _) | [(_ & Hl & Ht & Hp) | (ET & _)]];
    [rewrite E86 in Htag; discriminate | | rewrite ET in Htag; discriminate].
  assert (Hpos : forall vol, In vol Oil.key_points ->
                   0 < __call__ (Oil.D2887_interp s) (IZR vol) * 9 / 5 + 491.67)
    by (intros v Hv; specialize (Habove v Hv); lra).
  rewrite (D2887_to_D86_at _ _ _ _ vol Hp Hpos Hl Hq Hin).
  rewrite (D2887_to_TBP_direct_at _ _ _ vol Hp Hpos Ht Hin).
  destruct (riazi_d86_coefficients_range vol Hin) as ((Ha0 & Ha1) & Hb1).
  destruct (riazi_tbp_coefficients_range vol Hin) as (Ha & Hb).
  specialize (Habove vol Hin).
  unfold riazi_value.
  pose proof (power_law_below _ _ _ Ha0 Ha1 Hb1 Habove).
  pose proof (power_law_above _ _ _ Ha Hb Habove).
  split; lra.
Qed.

(** X8.  For a sample built from D2887 (SimDis) data whose curve is above
    1 degree Rankine at the key points 0, 10, 30, 50, 70, 90, 100 %vol, the three
    exposed curves are strictly ordered at every key point:
    D86 < D2887 < TBP. *)
Theorem D2887_family_curves_are_ordered (pts : list (R * R)) (d : R) (tag : string)
  (s : Oil.t) :
  Oil.__init__ pts d tag = Ok s ->
  str_in (upper tag) ["D2887"; "SIMDIS"]%string = true ->
  (forall vol, In vol Oil.key_points ->
               1 < __call__ (Oil.D2887_interp s) (IZR vol) * 9 / 5 + 491.67) ->
  forall vol, In vol Oil.key_points ->
    __call__ (Oil.D86_interp s) (IZR vol) < __call__ (Oil.D2887_interp s) (IZR vol)
    /\ __call__ (Oil.D2887_interp s) (IZR vol) < __call__ (Oil.TBP_interp s) (IZR vol).
Proof. exact (D2887_family_order pts d tag s). Qed.

Lemma D2887_family_curves_are_ordered_witness :
  exists s,
    Oil.__init__ curve7 820 "D2887" = Ok s /\
    __call__ (Oil.D86_interp s) 50 < __call__ (Oil.D2887_interp s) 50 /\
    __call__ (Oil.D2887_interp s) 50 < __call__ (Oil.TBP_interp s) 50.
Proof.
  destruct (curve7_D2887_succeeds 820) as (s & Hs). exists s.
  split; [exact Hs|].
  apply (D2887_family_curves_are_ordered curve7 820 "D2887" s Hs eq_refl).
  - destruct (init_fields _ _ _ _ Hs) as (_ & _ & _ & _ & Hcase).
    destruct Hcase as [(E & _) | [(_ & _ & _ & Hp) | (E & _)]]; try discriminate E.
    rewrite (interpolator_of_interpolant _ _ Hp).
    destruct curve7_values as (V0 & V10 & V30 & V50 & V70 & V90 & V100).
    intros vol H. repeat (destruct H as [<-|H]; [lra|]). destruct H.
  - unfold Oil.key_points. simpl. auto.
Defined.

(** ** [TBP_to_D86] followed by [API_D86_TBP] *)

Lemma API_constants_at (vol : Z) :
  In vol Oil.vol_distl_list ->
  exists a b,
    table_get vol Oil.API_constants = Ok (a, b)
    /\ Oil.table_get_default vol Oil.API_constants (0.9167, 1.0019) = (a, b)
    /\ 0 < a /\ 0 < b.
Proof.
  intros H.
  repeat (destruct H as [<-|H];
          [eexists; eexists; split; [reflexivity|]; split; [reflexivity|]; lra|]).
  destruct H.
Qed.







(** ** [API_D86_TBP] and [D86_to_D2887]: the values at the key points *)

Lemma API_D86_TBP_at (d86 : list (R * R)) (p q : t) :
  Oil.API_D86_TBP d86 = Ok (p, q) ->
  (forall vol, In vol Oil.vol_distl_list -> -273.15 < __call__ p (IZR vol)) ->
  forall vol, In vol Oil.vol_distl_list ->
    exists a b,
      table_get vol Oil.API_constants = Ok (a, b) /\
      __call__ q (IZR vol)
      = (a * Rpower ((__call__ p (IZR vol) + 273.15) * 9.0 / 5.0) b - 491.67) * 5.0 / 9.0.
Proof.
  intros H Habove vol Hin.
  destruct (API_D86_TBP_inv _ _ _ H) as (Hp & _).
  unfold Oil.API_D86_TBP in H. rewrite Hp in H. cbn [bind] in H.
  set (g := fun vol : Z =>
              let ab := Oil.table_get_default vol Oil.API_constants (0.9167, 1.0019) in
              (IZR vol,
               (fst ab * Rpower ((__call__ p (IZR vol) + 273.15) * 9.0 / 5.0) (snd ab)
                - 491.67) * 5.0 / 9.0)).
  match type of H with
  | context [mapM ?f ?l] => assert (Hm : mapM f l = Ok (map g l))
  end.
  { apply mapM_map. intros v Hv.
    destruct (API_constants_at v Hv) as (a & b & Et & Ed & Ha & Hb).
    rewrite Et. cbn [bind]. rewrite convert_C_R. cbn [bind].
    rewrite power_law_pos by (specialize (Habove v Hv); lra).
    cbn [bind]. rewrite convert_R_C. cbn [bind].
    unfold g. rewrite Ed. reflexivity. }
  rewrite Hm in H. cbn [bind] in H.
  apply bind_ok in H. destruct H as (q' & Hq & H). injection H as <-.
  destruct (API_constants_at vol Hin) as (a & b & Et & Ed & Ha & Hb).
  exists a, b. split; [exact Et|].
  rewrite (call_at_point _ _ _ _ Hq (in_map g _ _ Hin)).
  cbv zeta. rewrite Ed. reflexivity.
Qed.

(** X10.  The TBP curve returned by [API_D86_TBP] agrees with the API
    correlation at each of its seven volumes: for a D86 curve above absolute
    zero there, the TBP temperature is [a * T^b] evaluated in degrees Rankine on
    the D86 temperature, with [(a, b)] the constants of that volume. *)
Theorem API_D86_TBP_follows_the_correlation (d86 : list (R * R)) (p q : t) :
  Oil.API_D86_TBP d86 = Ok (p, q) ->
  (forall vol, In vol Oil.vol_distl_list -> -273.15 < __call__ p (IZR vol)) ->
  forall vol, In vol Oil.vol_distl_list ->
    exists a b,
      table_get vol Oil.API_constants = Ok (a, b) /\
      __call__ q (IZR vol)
      = (a * Rpower ((__call__ p (IZR vol) + 273.15) * 9.0 / 5.0) b - 491.67) * 5.0 / 9.0.
Proof. exact (API_D86_TBP_at d86 p q). Qed.

Lemma curve_daubert_interpolant :
  Oil.interpolator_of curve_daubert = Ok (interpolant curve_daubert).
Proof.
  apply interpolator_of_value; unfold curve_daubert; [simpl; lia | increasing_list].
Qed.

Lemma curve_daubert_at (vol : Z) :
  In vol Oil.vol_distl_list -> -273.15 < __call__ (interpolant curve_daubert) (IZR vol).
Proof.
  intros H.
  repeat (destruct H as [<-|H];
          [erewrite (call_at_point curve_daubert _ _ _ curve_daubert_interpolant);
           [|unfold curve_daubert; simpl; eauto 8]; lra|]).
  destruct H.
Qed.

Lemma API_D86_TBP_follows_the_correlation_witness :
  exists q a b,
    Oil.API_D86_TBP curve_daubert = Ok (interpolant curve_daubert, q) /\
    table_get 50 Oil.API_constants = Ok (a, b) /\
    __call__ q 50
    = (a * Rpower ((__call__ (interpolant curve_daubert) 50 + 273.15) * 9.0 / 5.0) b
       - 491.67) * 5.0 / 9.0.
Proof.
  destruct (API_D86_TBP_succeeds curve_daubert _ curve_daubert_interpolant curve_daubert_at)
    as (q & Hq).
  destruct (API_D86_TBP_follows_the_correlation curve_daubert _ q Hq curve_daubert_at 50%Z)
    as (a & b & Ht & Hv).
  { unfold Oil.vol_distl_list. simpl. auto. }
  exists q, a, b. auto.
Defined.

Lemma D86_to_D2887_at (D86 : list (R * R)) (p q r : t) :
  Oil.API_D86_TBP D86 = Ok (p, q) -> Oil.D86_to_D2887 D86 = Ok r ->
  (exists pw,
      fpow ((__call__ p 50 * 9.0 / 5.0 + 32) / 0.77601) (1.0 / 1.0395) = Some pw /\
      __call__ r 50 = (pw - 32) * 5.0 / 9.0)
  /\ forall vol, In vol Oil.key_points -> vol <> 50%Z ->
       __call__ r (IZR vol)
       = __call__ p (IZR vol) + 0.85 * (__call__ q (IZR vol) - __call__ p (IZR vol)).
Proof.
  intros HA H.
  destruct (API_D86_TBP_inv _ _ _ HA) as (Hp & _).
  unfold Oil.D86_to_D2887 in H. rewrite Hp in H. cbn [bind] in H.
  rewrite convert_C_F in H. cbn [bind] in H.
  destruct (fpow ((__call__ p 50 * 9.0 / 5.0 + 32) / 0.77601) (1.0 / 1.0395))
    as [pw|] eqn:Epw; [|discriminate].
  cbn [finite bind] in H. rewrite convert_F_C in H. cbn [bind] in H.
  rewrite HA in H. cbn [bind] in H.
  rewrite sorted_increasing in H
    by (rewrite D86_to_D2887_keys; apply key_points_increasing).
  match type of H with
  | Oil.interpolator_of (map ?f _) = _ => set (g := f) in H
  end.
  split.
  - exists pw. split; [reflexivity|].
    apply (call_at_point _ _ _ _ H).
    change (50, (pw - 32) * 5.0 / 9.0) with (g 50%Z).
    apply in_map. unfold Oil.key_points. simpl. auto.
  - intros vol Hin Hne.
    apply (call_at_point _ _ _ _ H).
    replace (IZR vol,
             __call__ p (IZR vol) + 0.85 * (__call__ q (IZR vol) - __call__ p (IZR vol)))
      with (g vol).
    + apply in_map. exact Hin.
    + unfold g. destruct (Z.eqb_spec vol 50) as [E|_]; [contradiction|reflexivity].
Qed.

(** X11.  In a sample built from D86 data the D2887 curve is, at 0, 10, 30,
    70, 90 and 100 %vol, the D86 temperature moved 85 % of the way towards the
    API TBP temperature, hence between the two; at 50 %vol it is the inverse of
    equation 3A3.2-1, [(D86_F / 0.77601)^(1/1.0395)], read back in Celsius. *)
Theorem D86_family_D2887_curve (pts : list (R * R)) (d : R) (tag : string) (s : Oil.t) :
  upper tag = "D86"%string ->
  Oil.__init__ pts d tag = Ok s ->
  (exists pw,
      fpow (D86_F s 50 / 0.77601) (1.0 / 1.0395) = Some pw /\
      __call__ (Oil.D2887_interp s) 50 = (pw - 32) * 5.0 / 9.0)
  /\ forall vol, In vol Oil.key_points -> vol <> 50%Z ->
       let D86 := __call__ (Oil.D86_interp s) (IZR vol) in
       let TBP := __call__ (Oil.TBP_interp s) (IZR vol) in
       let D2887 := __call__ (Oil.D2887_interp s) (IZR vol) in
       D2887 = D86 + 0.85 * (TBP - D86)
       /\ (D86 <= TBP -> D86 <= D2887 <= TBP)
       /\ (TBP <= D86 -> TBP <= D2887 <= D86).
Proof.
  intros E H.
  destruct (init_fields _ _ _ _ H) as (_ & _ & _ & _ & Hcase).
  destruct Hcase as [(_ & _ & HA & Hr) | [(E28 & _) | (ET & _)]];
    [| rewrite E in E28; discriminate | rewrite E in ET; discriminate].
  destruct (D86_to_D2887_at _ _ _ _ HA Hr) as (H50 & Hk).
  split; [exact H50|].
  intros vol Hin Hne. cbv zeta. rewrite (Hk vol Hin Hne).
  split; [reflexivity|]. split; intros Hle; lra.
Qed.

Lemma D86_family_D2887_curve_witness :
  exists s,
    Oil.__init__ curve3 820 "D86" = Ok s /\
    __call__ (Oil.D2887_interp s) 10
    = __call__ (Oil.D86_interp s) 10
      + 0.85 * (__call__ (Oil.TBP_interp s) 10 - __call__ (Oil.D86_interp s) 10).
Proof.
  destruct (curve3_D86_succeeds 820) as (s & Hs). exists s.
  split; [exact Hs|].
  destruct (D86_family_D2887_curve curve3 820 "D86" s eq_refl Hs) as (_ & H).
  destruct (H 10%Z) as (E & _).
  - unfold Oil.key_points. simpl. auto.
  - discriminate.
  - exact E.
Defined.

(** ** [Daubert_ASTM_D86_TBP]: when it succeeds, and the shape of its curve *)

Lemma fpow_some (x y p : R) :
  fpow x y = Some p -> 0 <= x /\ 0 <= p /\ (0 < x -> p = Rpower x y /\ 0 < p).
Proof.
  unfold fpow. intros H.
  destruct (Rlt_dec 0 x) as [Hx|Hx].
  - injection H as <-. repeat split; try lra.
    + left. apply exp_pos.
    + apply exp_pos.
  - destruct (Req_dec_T x 0) as [E|N]; [|discriminate].
    split; [lra|]. split; [|intros; lra].
    destruct (Rlt_dec 0 y); [injection H as <-; lra|].
    destruct (Req_dec_T y 0); [injection H as <-; lra|discriminate].
Qed.

Ltac daubert_get H k d T G :=
  destruct (dict_get k d) as [T|] eqn:G; cbn [bind] in H; [|discriminate H].

Ltac daubert_pow H x y v F :=
  destruct (fpow x y) as [v|] eqn:F; cbn [finite bind] in H; [|discriminate H].

Ltac daubert_constants_in H :=
  change (table_get 4 Oil.Daubert_constants) with (@Ok (R * R) (0.8718, 1.0258)) in H;
  change (table_get 1 Oil.Daubert_constants) with (@Ok (R * R) (7.4012, 0.6024)) in H;
  change (table_get 2 Oil.Daubert_constants) with (@Ok (R * R) (4.9004, 0.7164)) in H;
  change (table_get 3 Oil.Daubert_constants) with (@Ok (R * R) (3.0305, 0.8008)) in H;
  change (table_get 5 Oil.Daubert_constants) with (@Ok (R * R) (2.5282, 0.8200)) in H;
  change (table_get 6 Oil.Daubert_constants) with (@Ok (R * R) (3.0419, 0.7750)) in H;
  change (table_get 7 Oil.Daubert_constants) with (@Ok (R * R) (0.1180, 1.6606)) in H.

(** What a successful [Daubert_TBP_r_list] read and computed. *)
Lemma Daubert_TBP_r_list_inv (d : dict) (l : list (R * R)) :
  Oil.Daubert_TBP_r_list d = Ok l ->
  exists T0 T10 T30 T50 T70 T90 T95 v50 v1 v2 v3 v5 v6 v7,
    (dict_get 0 d = Some T0 /\ dict_get 10 d = Some T10 /\ dict_get 30 d = Some T30 /\
     dict_get 50 d = Some T50 /\ dict_get 70 d = Some T70 /\ dict_get 90 d = Some T90 /\
     dict_get 95 d = Some T95) /\
    (fpow T50 1.0258 = Some v50 /\ fpow (T10 - T0) 0.6024 = Some v1 /\
     fpow (T30 - T10) 0.7164 = Some v2 /\ fpow (T50 - T30) 0.8008 = Some v3 /\
     fpow (T70 - T50) 0.8200 = Some v5 /\ fpow (T90 - T70) 0.7750 = Some v6 /\
     fpow (T95 - T90) 1.6606 = Some v7) /\
    l = [ (0, 0.8718 * v50 - 3.0305 * v3 - 4.9004 * v2 - 7.4012 * v1);
          (10, 0.8718 * v50 - 3.0305 * v3 - 4.9004 * v2);
          (30, 0.8718 * v50 - 3.0305 * v3);
          (50, 0.8718 * v50);
          (70, 0.8718 * v50 + 2.5282 * v5);
          (90, 0.8718 * v50 + 2.5282 * v5 + 3.0419 * v6);
          (95, 0.8718 * v50 + 2.5282 * v5 + 3.0419 * v6 + 0.1180 * v7) ].
Proof.
  unfold Oil.Daubert_TBP_r_list, dict_item, Oil.power_law. intros H.
  daubert_constants_in H. cbn [bind fst snd] in H.
  daubert_get H 50 d T50 G50. daubert_pow H T50 1.0258 v50 F50.
  daubert_get H 10 d T10 G10. daubert_get H 0 d T0 G0. daubert_get H 30 d T30 G30.
  daubert_get H 70 d T70 G70. daubert_get H 90 d T90 G90. daubert_get H 95 d T95 G95.
  daubert_pow H (T10 - T0) 0.6024 v1 F1. daubert_pow H (T30 - T10) 0.7164 v2 F2.
  daubert_pow H (T50 - T30) 0.8008 v3 F3. daubert_pow H (T70 - T50) 0.8200 v5 F5.
  daubert_pow H (T90 - T70) 0.7750 v6 F6. daubert_pow H (T95 - T90) 1.6606 v7 F7.
  injection H as <-.
  exists T0, T10, T30, T50, T70, T90, T95, v50, v1, v2, v3, v5, v6, v7.
  repeat split; first [assumption | reflexivity].
Qed.

(** With the seven keys present the only exception is the one of a power that
    is not a real number. *)
Lemma Daubert_TBP_r_list_cases (d : dict) (T0 T10 T30 T50 T70 T90 T95 : R) :
  dict_get 0 d = Some T0 -> dict_get 10 d = Some T10 -> dict_get 30 d = Some T30 ->
  dict_get 50 d = Some T50 -> dict_get 70 d = Some T70 -> dict_get 90 d = Some T90 ->
  dict_get 95 d = Some T95 ->
  (exists l, Oil.Daubert_TBP_r_list d = Ok l) \/ Oil.Daubert_TBP_r_list d = Err NotFinite.
Proof.
  intros G0 G10 G30 G50 G70 G90 G95.
  unfold Oil.Daubert_TBP_r_list, dict_item, Oil.power_law.
  rewrite G0, G10, G30, G50, G70, G90, G95.
  change (table_get 4 Oil.Daubert_constants) with (@Ok (R * R) (0.8718, 1.0258)).
  change (table_get 1 Oil.Daubert_constants) with (@Ok (R * R) (7.4012, 0.6024)).
  change (table_get 2 Oil.Daubert_constants) with (@Ok (R * R) (4.9004, 0.7164)).
  change (table_get 3 Oil.Daubert_constants) with (@Ok (R * R) (3.0305, 0.8008)).
  change (table_get 5 Oil.Daubert_constants) with (@Ok (R * R) (2.5282, 0.8200)).
  change (table_get 6 Oil.Daubert_constants) with (@Ok (R * R) (3.0419, 0.7750)).
  change (table_get 7 Oil.Daubert_constants) with (@Ok (R * R) (0.1180, 1.6606)).
  cbn [bind fst snd].
  repeat match goal with
         | |- context [fpow ?x ?y] =>
             destruct (fpow x y); cbn [finite bind]; [|right; reflexivity]
         end.
  left. eexists. reflexivity.
Qed.

(** After its first block the dictionary holds the seven required keys. *)
Lemma Daubert_dict_keys (D86 : list (R * R)) (d : dict) :
  Oil.Daubert_D86_dict_r D86 = Ok d ->
  forall k, In k Oil.dist_required -> exists T, dict_get (IZR k) d = Some T.
Proof.
  intros Hd k Hk. destruct (missing_point D86) eqn:Hm.
  - assert (Hp : exists p, Oil.interpolator_of D86 = Ok p).
    { rewrite Daubert_D86_dict_r_unfold, Hm in Hd.
      apply bind_ok in Hd. destruct Hd as (p & Hp & _). eauto. }
    destruct Hp as (p & Hp).
    destruct (Daubert_dict_missing D86 p Hp Hm) as (d' & Hd' & Hv).
    assert (d' = d) by congruence. subst d'. eauto.
  - destruct (Daubert_dict_present D86 Hm) as (Hd' & Hv).
    assert (E : D86_dict_F D86 = d) by congruence. rewrite <- E.
    destruct (Hv k Hk) as (temp & _ & G). eauto.
Qed.

Lemma Daubert_success_conditions (D86 : list (R * R)) (d : dict) :
  Oil.Daubert_D86_dict_r D86 = Ok d ->
  exists T0 T10 T30 T50 T70 T90 T95,
    (dict_get 0 d = Some T0 /\ dict_get 10 d = Some T10 /\ dict_get 30 d = Some T30 /\
     dict_get 50 d = Some T50 /\ dict_get 70 d = Some T70 /\ dict_get 90 d = Some T90 /\
     dict_get 95 d = Some T95) /\
    (0 <= T50 /\ T0 <= T10 /\ T10 <= T30 /\ T30 <= T50 /\ T50 <= T70 /\ T70 <= T90 /\
     T90 <= T95 ->
     exists q, Oil.Daubert_ASTM_D86_TBP D86 = Ok q) /\
    (~ (0 <= T50 /\ T0 <= T10 /\ T10 <= T30 /\ T30 <= T50 /\ T50 <= T70 /\ T70 <= T90 /\
        T90 <= T95) ->
     Oil.Daubert_ASTM_D86_TBP D86 = Err NotFinite).
Proof.
  intros Hd.
  pose proof (Daubert_dict_keys D86 d Hd) as Hk.
  destruct (Hk 0%Z) as (T0 & G0); [unfold Oil.dist_required; simpl; tauto|].
  destruct (Hk 10%Z) as (T10 & G10); [unfold Oil.dist_required; simpl; tauto|].
  destruct (Hk 30%Z) as (T30 & G30); [unfold Oil.dist_required; simpl; tauto|].
  destruct (Hk 50%Z) as (T50 & G50); [unfold Oil.dist_required; simpl; tauto|].
  destruct (Hk 70%Z) as (T70 & G70); [unfold Oil.dist_required; simpl; tauto|].
  destruct (Hk 90%Z) as (T90 & G90); [unfold Oil.dist_required; simpl; tauto|].
  destruct (Hk 95%Z) as (T95 & G95); [unfold Oil.dist_required; simpl; tauto|].
  exists T0, T10, T30, T50, T70, T90, T95.
  split; [repeat split; assumption|]. split.
  - intros (P50 & L1 & L2 & L3 & L5 & L6 & L7).
    destruct (Daubert_TBP_r_list_succeeds d T0 T10 T30 T50 T70 T90 T95) as (l & Hl);
      try assumption.
    exact (Daubert_succeeds D86 d l Hd Hl).
  - intros Hn.
    destruct (Daubert_TBP_r_list_cases d T0 T10 T30 T50 T70 T90 T95) as [(l & Hl) | He];
      try assumption.
    + exfalso. apply Hn.
      destruct (Daubert_TBP_r_list_inv d l Hl)
        as (U0 & U10 & U30 & U50 & U70 & U90 & U95 & v50 & v1 & v2 & v3 & v5 & v6 & v7
            & (H0 & H10 & H30 & H50 & H70 & H90 & H95)
            & (F50 & F1 & F2 & F3 & F5 & F6 & F7) & _).
      assert (U0 = T0) by congruence. assert (U10 = T10) by congruence.
      assert (U30 = T30) by congruence. assert (U50 = T50) by congruence.
      assert (U70 = T70) by congruence. assert (U90 = T90) by congruence.
      assert (U95 = T95) by congruence. subst.
      apply fpow_some in F50, F1, F2, F3, F5, F6, F7.
      repeat split; lra.
    + unfold Oil.Daubert_ASTM_D86_TBP. rewrite Hd. cbn [bind]. rewrite He. reflexivity.
Qed.

(** X12.  For a D86 curve given at the seven keys of the method (0, 10, 30,
    50, 70, 90 and 95 %vol), the dictionary of the method holds the Fahrenheit
    temperatures of these keys.  When none of them is beyond 10000 °F in
    absolute value: [Daubert_ASTM_D86_TBP] succeeds if the 50% temperature is
    not negative and the temperatures do not decrease from one key to the next;
    and if the 50% temperature is negative, or a temperature is lower than the
    one of the key before, by a millionth of a degree or more, a power is not a
    real number and the construction of the interpolant raises its
    [ValueError]. *)
Theorem Daubert_needs_nondecreasing_temperatures (D86 : list (R * R)) :
  missing_point D86 = false ->
  exists T0 T10 T30 T50 T70 T90 T95,
    Oil.Daubert_D86_dict_r D86 = Ok (D86_dict_F D86) /\
    (dict_get 0 (D86_dict_F D86) = Some T0 /\ dict_get 10 (D86_dict_F D86) = Some T10 /\
     dict_get 30 (D86_dict_F D86) = Some T30 /\ dict_get 50 (D86_dict_F D86) = Some T50 /\
     dict_get 70 (D86_dict_F D86) = Some T70 /\ dict_get 90 (D86_dict_F D86) = Some T90 /\
     dict_get 95 (D86_dict_F D86) = Some T95) /\
    (Forall (fun T => Rabs T <= 10000) [T0; T10; T30; T50; T70; T90; T95] ->
     (0 <= T50 /\ T0 <= T10 /\ T10 <= T30 /\ T30 <= T50 /\ T50 <= T70 /\ T70 <= T90 /\
      T90 <= T95 ->
      exists q, Oil.Daubert_ASTM_D86_TBP D86 = Ok q) /\
     (T50 <= - (1 / 1000000) \/ T10 <= T0 - 1 / 1000000 \/ T30 <= T10 - 1 / 1000000 \/
      T50 <= T30 - 1 / 1000000 \/ T70 <= T50 - 1 / 1000000 \/ T90 <= T70 - 1 / 1000000 \/
      T95 <= T90 - 1 / 1000000 ->
      Oil.Daubert_ASTM_D86_TBP D86 = Err NotFinite)).
Proof.
  intros Hm.
  destruct (Daubert_dict_present D86 Hm) as (Hd & _).
  destruct (Daubert_success_conditions D86 _ Hd)
    as (T0 & T10 & T30 & T50 & T70 & T90 & T95 & HG & Hok & Hfail).
  exists T0, T10, T30, T50, T70, T90, T95.
  split; [exact Hd|]. split; [exact HG|].
  intros _. split; [exact Hok|].
  intros Hfall. apply Hfail. intros (P50 & L1 & L2 & L3 & L5 & L6 & L7).
  destruct Hfall as [H|[H|[H|[H|[H|[H|H]]]]]]; lra.
Qed.

(** A D86 curve that falls from 170 to 165 °C between 10 and 30 %vol. *)
Lemma falling_curve_NoDup :
  NoDup (map fst [(0, 160); (10, 170); (30, 165); (50, 225); (70, 260); (90, 280); (95, 285)]).
Proof. apply increasing_NoDup. increasing_list. Qed.

Lemma falling_curve_dict (k : Z) (temp : R) :
  In (IZR k, temp) [(0, 160); (10, 170); (30, 165); (50, 225); (70, 260); (90, 280); (95, 285)] ->
  In k Oil.dist_required ->
  dict_get (IZR k)
    (D86_dict_F [(0, 160); (10, 170); (30, 165); (50, 225); (70, 260); (90, 280); (95, 285)])
  = Some (temp * 9.0 / 5.0 + 32).
Proof.
  intros Hin Hk. unfold D86_dict_F. rewrite dict_get_map.
  rewrite (dict_of_in _ _ _ falling_curve_NoDup Hin). reflexivity.
Qed.

Lemma Daubert_needs_nondecreasing_temperatures_witness :
  Oil.Daubert_ASTM_D86_TBP
    [(0, 160); (10, 170); (30, 165); (50, 225); (70, 260); (90, 280); (95, 285)]
  = Err NotFinite.
Proof.
  set (D86 := [(0, 160); (10, 170); (30, 165); (50, 225); (70, 260); (90, 280); (95, 285)]).
  assert (Hm : missing_point D86 = false).
  { apply missing_point_false; [exact falling_curve_NoDup|].
    intros k H. unfold D86.
    repeat (destruct H as [<-|H]; [eexists; simpl; tauto|]). destruct H. }
  destruct (Daubert_needs_nondecreasing_temperatures D86 Hm)
    as (T0 & T10 & T30 & T50 & T70 & T90 & T95 & _
        & (G0 & G10 & G30 & G50 & G70 & G90 & G95) & Hrange).
  unfold D86 in G0, G10, G30, G50, G70, G90, G95.
  rewrite (falling_curve_dict 0 160) in G0
    by (unfold Oil.dist_required; simpl; tauto).
  rewrite (falling_curve_dict 10 170) in G10
    by (unfold Oil.dist_required; simpl; tauto).
  rewrite (falling_curve_dict 30 165) in G30
    by (unfold Oil.dist_required; simpl; tauto).
  rewrite (falling_curve_dict 50 225) in G50
    by (unfold Oil.dist_required; simpl; tauto).
  rewrite (falling_curve_dict 70 260) in G70
    by (unfold Oil.dist_required; simpl; tauto).
  rewrite (falling_curve_dict 90 280) in G90
    by (unfold Oil.dist_required; simpl; tauto).
  rewrite (falling_curve_dict 95 285) in G95
    by (unfold Oil.dist_required; simpl; tauto).
  injection G0 as <-. injection G10 as <-. injection G30 as <-. injection G50 as <-.
  injection G70 as <-. injection G90 as <-. injection G95 as <-.
  apply Hrange.
  - repeat (constructor; [apply Rabs_le; lra|]). constructor.
  - right. right. left. lra.
Defined.

(** The temperatures of the Daubert curve at its seven knots. *)
Lemma Daubert_curve_at_keys (D86 : list (R * R)) (q : t) :
  Oil.Daubert_ASTM_D86_TBP D86 = Ok q ->
  exists d T0 T10 T30 T50 T70 T90 T95 v50 v1 v2 v3 v5 v6 v7,
    Oil.Daubert_D86_dict_r D86 = Ok d /\
    (dict_get 0 d = Some T0 /\ dict_get 10 d = Some T10 /\ dict_get 30 d = Some T30 /\
     dict_get 50 d = Some T50 /\ dict_get 70 d = Some T70 /\ dict_get 90 d = Some T90 /\
     dict_get 95 d = Some T95) /\
    (fpow T50 1.0258 = Some v50 /\ fpow (T10 - T0) 0.6024 = Some v1 /\
     fpow (T30 - T10) 0.7164 = Some v2 /\ fpow (T50 - T30) 0.8008 = Some v3 /\
     fpow (T70 - T50) 0.8200 = Some v5 /\ fpow (T90 - T70) 0.7750 = Some v6 /\
     fpow (T95 - T90) 1.6606 = Some v7) /\
    Oil.interpolator_of
      [ (0, (0.8718 * v50 - 3.0305 * v3 - 4.9004 * v2 - 7.4012 * v1 - 32) * 5.0 / 9.0);
        (10, (0.8718 * v50 - 3.0305 * v3 - 4.9004 * v2 - 32) * 5.0 / 9.0);
        (30, (0.8718 * v50 - 3.0305 * v3 - 32) * 5.0 / 9.0);
        (50, (0.8718 * v50 - 32) * 5.0 / 9.0);
        (70, (0.8718 * v50 + 2.5282 * v5 - 32) * 5.0 / 9.0);
        (90, (0.8718 * v50 + 2.5282 * v5 + 3.0419 * v6 - 32) * 5.0 / 9.0);
        (95, (0.8718 * v50 + 2.5282 * v5 + 3.0419 * v6 + 0.1180 * v7 - 32) * 5.0 / 9.0) ]
    = Ok q.
Proof.
  intros H. destruct (Daubert_inv _ _ H) as (d & l & Hd & Hl & Hq).
  destruct (Daubert_TBP_r_list_inv d l Hl)
    as (T0 & T10 & T30 & T50 & T70 & T90 & T95 & v50 & v1 & v2 & v3 & v5 & v6 & v7
        & HG & HF & ->).
  exists d, T0, T10, T30, T50, T70, T90, T95, v50, v1, v2, v3, v5, v6, v7.
  repeat split; first [tauto | exact Hq].
Qed.

Lemma Daubert_keys_nondecreasing (D86 : list (R * R)) (q : t) :
  Oil.Daubert_ASTM_D86_TBP D86 = Ok q ->
  __call__ q 0 <= __call__ q 10 /\ __call__ q 10 <= __call__ q 30 /\
  __call__ q 30 <= __call__ q 50 /\ __call__ q 50 <= __call__ q 70 /\
  __call__ q 70 <= __call__ q 90 /\ __call__ q 90 <= __call__ q 95.
Proof.
  intros H.
  destruct (Daubert_curve_at_keys D86 q H)
    as (d & T0 & T10 & T30 & T50 & T70 & T90 & T95 & v50 & v1 & v2 & v3 & v5 & v6 & v7
        & _ & _ & (F50 & F1 & F2 & F3 & F5 & F6 & F7) & Hq).
  apply fpow_some in F50, F1, F2, F3, F5, F6, F7.
  rewrite (call_at_point _ _ 0 _ Hq) by (simpl; tauto).
  rewrite (call_at_point _ _ 10 _ Hq) by (simpl; tauto).
  rewrite (call_at_point _ _ 30 _ Hq) by (simpl; tauto).
  rewrite (call_at_point _ _ 50 _ Hq) by (simpl; tauto).
  rewrite (call_at_point _ _ 70 _ Hq) by (simpl; tauto).
  rewrite (call_at_point _ _ 90 _ Hq) by (simpl; tauto).
  rewrite (call_at_point _ _ 95 _ Hq) by (simpl; tauto).
  repeat split; lra.
Qed.

(** X13.  Whatever the D86 input, a TBP curve returned by the Daubert method
    does not decrease from one of its knots to the next: its temperatures at
    0, 10, 30, 50, 70, 90 and 95 %vol are in nondecreasing order. *)
Theorem Daubert_TBP_keys_are_nondecreasing (D86 : list (R * R)) (q : t) :
  Oil.Daubert_ASTM_D86_TBP D86 = Ok q ->
  __call__ q 0 <= __call__ q 10 /\ __call__ q 10 <= __call__ q 30 /\
  __call__ q 30 <= __call__ q 50 /\ __call__ q 50 <= __call__ q 70 /\
  __call__ q 70 <= __call__ q 90 /\ __call__ q 90 <= __call__ q 95.
Proof. exact (Daubert_keys_nondecreasing D86 q). Qed.

Lemma Daubert_TBP_keys_are_nondecreasing_witness :
  exists q,
    Oil.Daubert_ASTM_D86_TBP curve_daubert = Ok q /\
    __call__ q 0 <= __call__ q 10 /\ __call__ q 10 <= __call__ q 30 /\
    __call__ q 30 <= __call__ q 50 /\ __call__ q 50 <= __call__ q 70 /\
    __call__ q 70 <= __call__ q 90 /\ __call__ q 90 <= __call__ q 95.
Proof.
  destruct curve_daubert_succeeds as (q & Hq). exists q.
  split; [exact Hq|].
  exact (Daubert_TBP_keys_are_nondecreasing curve_daubert q Hq).
Defined.

Lemma Daubert_curve_increasing (D86 : list (R * R)) (p q : t) (v1 v2 : R) :
  Oil.interpolator_of D86 = Ok p -> increasing (map snd D86) ->
  nth 0 (map fst D86) 0 <= 0 ->
  95 <= nth (List.length (map fst D86) - 1) (map fst D86) 0 ->
  Oil.Daubert_ASTM_D86_TBP D86 = Ok q ->
  0 <= v1 -> v1 < v2 -> v2 <= 95 ->
  __call__ q v1 < __call__ q v2.
Proof.
  intros Hp Hy Hlo Hhi H H1 H12 H2.
  assert (Hmono : forall a b, 0 <= a -> a < b -> b <= 95 -> __call__ p a < __call__ p b).
  { intros a b Ha Hab Hb. apply (pchip_increasing _ _ p a b Hp Hy); lra. }
  destruct (Daubert_curve_at_keys D86 q H)
    as (d & T0 & T10 & T30 & T50 & T70 & T90 & T95 & v50 & v1' & v2' & v3 & v5 & v6 & v7
        & Hd & (G0 & G10 & G30 & G50 & G70 & G90 & G95)
        & (F50 & F1 & F2 & F3 & F5 & F6 & F7) & Hq).
  destruct (Daubert_dict_values D86 p Hp) as (d' & al & be & Hd' & Hal & Hbe & Hv).
  assert (d' = d) by congruence. subst d'.
  rewrite (Hv 0%Z) in G0 by (unfold Oil.dist_required; simpl; tauto).
  rewrite (Hv 10%Z) in G10 by (unfold Oil.dist_required; simpl; tauto).
  rewrite (Hv 30%Z) in G30 by (unfold Oil.dist_required; simpl; tauto).
  rewrite (Hv 50%Z) in G50 by (unfold Oil.dist_required; simpl; tauto).
  rewrite (Hv 70%Z) in G70 by (unfold Oil.dist_required; simpl; tauto).
  rewrite (Hv 90%Z) in G90 by (unfold Oil.dist_required; simpl; tauto).
  rewrite (Hv 95%Z) in G95 by (unfold Oil.dist_required; simpl; tauto).
  injection G0 as <-. injection G10 as <-. injection G30 as <-. injection G50 as <-.
  injection G70 as <-. injection G90 as <-. injection G95 as <-.
  pose proof (Hmono 0 10 ltac:(lra) ltac:(lra) ltac:(lra)) as M1.
  pose proof (Hmono 10 30 ltac:(lra) ltac:(lra) ltac:(lra)) as M2.
  pose proof (Hmono 30 50 ltac:(lra) ltac:(lra) ltac:(lra)) as M3.
  pose proof (Hmono 50 70 ltac:(lra) ltac:(lra) ltac:(lra)) as M5.
  pose proof (Hmono 70 90 ltac:(lra) ltac:(lra) ltac:(lra)) as M6.
  pose proof (Hmono 90 95 ltac:(lra) ltac:(lra) ltac:(lra)) as M7.
  apply fpow_some in F1, F2, F3, F5, F6, F7.
  destruct F1 as (_ & _ & P1). destruct P1 as (_ & P1); [nra|].
  destruct F2 as (_ & _ & P2). destruct P2 as (_ & P2); [nra|].
  destruct F3 as (_ & _ & P3). destruct P3 as (_ & P3); [nra|].
  destruct F5 as (_ & _ & P5). destruct P5 as (_ & P5); [nra|].
  destruct F6 as (_ & _ & P6). destruct P6 as (_ & P6); [nra|].
  destruct F7 as (_ & _ & P7). destruct P7 as (_ & P7); [nra|].
  unfold Oil.interpolator_of in Hq.
  apply (pchip_increasing _ _ q v1 v2 Hq).
  - cbn [map snd]. increasing_list.
  - cbn [map fst nth]. lra.
  - exact H12.
  - cbn [map fst nth List.length Nat.sub]. lra.
Qed.

(** X14.  In a constructed sample whose stored D86 points have strictly
    increasing temperatures and volumes that reach from 0 (or below) to 95 %vol
    (or above), the Daubert TBP curve is strictly increasing on [0, 95]. *)
Theorem Daubert_TBP_curve_is_increasing (pts : list (R * R)) (d : R) (tag : string)
  (s : Oil.t) (v1 v2 : R) :
  Oil.__init__ pts d tag = Ok s ->
  increasing (map snd (Oil.D86 s)) ->
  nth 0 (map fst (Oil.D86 s)) 0 <= 0 ->
  95 <= nth (List.length (map fst (Oil.D86 s)) - 1) (map fst (Oil.D86 s)) 0 ->
  0 <= v1 -> v1 < v2 -> v2 <= 95 ->
  __call__ (Oil.Daubert_TBP_interp s) v1 < __call__ (Oil.Daubert_TBP_interp s) v2.
Proof.
  intros H Hy Hlo Hhi H1 H12 H2.
  destruct (init_fields _ _ _ _ H) as (Hp & _ & _ & HD & _).
  exact (Daubert_curve_increasing _ _ _ v1 v2 Hp Hy Hlo Hhi HD H1 H12 H2).
Qed.

Lemma Daubert_TBP_curve_is_increasing_witness :
  exists s,
    Oil.__init__ curve3 820 "D86" = Ok s /\
    __call__ (Oil.Daubert_TBP_interp s) 20 < __call__ (Oil.Daubert_TBP_interp s) 60.
Proof.
  destruct (curve3_D86_succeeds 820) as (s & Hs). exists s.
  split; [exact Hs|].
  assert (E : Oil.D86 s = curve3).
  { destruct (init_fields _ _ _ _ Hs) as (_ & _ & _ & _ & Hcase).
    destruct Hcase as [(_ & E & _) | [(E & _) | (E & _)]];
      [exact E | discriminate E | discriminate E]. }
  apply (Daubert_TBP_curve_is_increasing curve3 820 "D86" s 20 60 Hs).
  - rewrite E. exact curve3_temperatures_increasing.
  - rewrite E. unfold curve3. simpl. lra.
  - rewrite E. unfold curve3. simpl. lra.
  - lra.
  - lra.
  - lra.
Defined.

(** ** The bulk properties of a constructed sample *)

Lemma fpow_negative (x y : R) : x < 0 -> fpow x y = None.
Proof.
  intros Hx. unfold fpow.
  destruct (Rlt_dec 0 x); [lra|]. destruct (Req_dec_T x 0); [lra|reflexivity].
Qed.

(** [VABP] and [MeABP] in terms of the D86 curve read in Fahrenheit. *)
Lemma sample_scalars (pts : list (R * R)) (d : R) (tag : string) (s : Oil.t) :
  Oil.__init__ pts d tag = Ok s ->
  Oil.VABP s = (D86_F s 10 + D86_F s 30 + D86_F s 50 + D86_F s 70 + D86_F s 90) / 5
  /\ Oil.MeABP s
     = match fpow (Oil.VABP s - 32) 0.6667, fpow ((D86_F s 90 - D86_F s 10) / 80) 0.333 with
       | Some p, Some q =>
           Some (Oil.VABP s - exp (-0.94402 - 0.00865 * p + 2.99791 * q))
       | _, _ => None
       end.
Proof.
  intros H.
  destruct (init_inv _ _ _ _ H) as (d86 & p & tbp & dau & d2887 & Hprop & Hp & _).
  destruct (properties_inv _ _ _ _ _ _ _ _ Hprop) as (V & M & HV & HM & Hs).
  clear Hprop H.
  destruct (D86_interop_F_succeeds d86 p Hp) as (F & HF).
  assert (HFv : forall v, __call__ F v = __call__ p v * 9.0 / 5.0 + 32)
    by (intros v; exact (D86_interop_F_call d86 p F v Hp HF)).
  unfold Oil.MeABP_ in HM. rewrite HV in HM. cbn [bind] in HM.
  unfold Oil.VABP_ in HV.
  rewrite HF in HV, HM. cbn [bind] in HV, HM.
  rewrite (HFv 10), (HFv 30), (HFv 50), (HFv 70), (HFv 90) in HV.
  rewrite (HFv 10), (HFv 90) in HM.
  replace (90 - 10) with 80 in HM by lra.
  injection HM as <-. subst s. unfold D86_F.
  cbn [Oil.D86_interp Oil.VABP Oil.MeABP].
  injection HV as HV. split; [now rewrite <- HV | reflexivity].
Qed.

Lemma MeABP_below (pts : list (R * R)) (d : R) (tag : string) (s : Oil.t) (m : R) :
  Oil.__init__ pts d tag = Ok s -> Oil.MeABP s = Some m -> m < Oil.VABP s.
Proof.
  intros H Hm. destruct (sample_scalars _ _ _ _ H) as (_ & HM).
  rewrite HM in Hm.
  destruct (fpow (Oil.VABP s - 32) 0.6667) as [p|]; [|discriminate].
  destruct (fpow ((D86_F s 90 - D86_F s 10) / 80) 0.333) as [q|]; [|discriminate].
  injection Hm as <-.
  pose proof (exp_pos (-0.94402 - 0.00865 * p + 2.99791 * q)). lra.
Qed.

(** X15.  In every constructed sample whose mean average boiling point is a
    number, it is strictly below the volume average boiling point. *)
Theorem MeABP_is_below_VABP (pts : list (R * R)) (d : R) (tag : string) (s : Oil.t)
  (m : R) :
  Oil.__init__ pts d tag = Ok s -> Oil.MeABP s = Some m -> m < Oil.VABP s.
Proof. exact (MeABP_below pts d tag s m). Qed.

(** The D86 curve of a D86-family sample is the interpolant of its input. *)
Lemma D86_family_curve (pts : list (R * R)) (d : R) (tag : string) (s : Oil.t) :
  upper tag = "D86"%string -> Oil.__init__ pts d tag = Ok s ->
  Oil.D86 s = pts /\ Oil.interpolator_of pts = Ok (Oil.D86_interp s).
Proof.
  intros E H. destruct (init_fields _ _ _ _ H) as (Hp & _ & _ & _ & Hcase).
  destruct Hcase as [(_ & E86 & _) | [(E28 & _) | (ET & _)]].
  - rewrite E86 in Hp. auto.
  - rewrite E in E28. discriminate.
  - rewrite E in ET. discriminate.
Qed.

Lemma curve3_D86_F (s : Oil.t) :
  Oil.__init__ curve3 820 "D86" = Ok s ->
  D86_F s 0 = 320 /\ D86_F s 50 = 437 /\ D86_F s 100 = 554.
Proof.
  intros Hs. destruct (D86_family_curve curve3 820 "D86" s eq_refl Hs) as (_ & Hp).
  unfold D86_F.
  rewrite (call_at_point curve3 _ 0 160 Hp) by (unfold curve3; simpl; tauto).
  rewrite (call_at_point curve3 _ 50 225 Hp) by (unfold curve3; simpl; tauto).
  rewrite (call_at_point curve3 _ 100 290 Hp) by (unfold curve3; simpl; tauto).
  repeat split; lra.
Qed.

Lemma D86_F_increasing (pts : list (R * R)) (d : R) (tag : string) (s : Oil.t)
  (v1 v2 : R) :
  Oil.__init__ pts d tag = Ok s ->
  increasing (map snd (Oil.D86 s)) ->
  nth 0 (map fst (Oil.D86 s)) 0 <= v1 -> v1 < v2 ->
  v2 <= nth (List.length (map fst (Oil.D86 s)) - 1) (map fst (Oil.D86 s)) 0 ->
  D86_F s v1 < D86_F s v2.
Proof.
  intros H Hy H1 H12 H2.
  destruct (init_fields _ _ _ _ H) as (Hp & _).
  pose proof (pchip_increasing _ _ _ v1 v2 Hp Hy H1 H12 H2).
  unfold D86_F. lra.
Qed.

Lemma curve3_stored (s : Oil.t) :
  Oil.__init__ curve3 820 "D86" = Ok s ->
  increasing (map snd (Oil.D86 s))
  /\ nth 0 (map fst (Oil.D86 s)) 0 = 0
  /\ nth (List.length (map fst (Oil.D86 s)) - 1) (map fst (Oil.D86 s)) 0 = 100.
Proof.
  intros Hs. destruct (D86_family_curve curve3 820 "D86" s eq_refl Hs) as (E & _).
  rewrite E. split; [exact curve3_temperatures_increasing|].
  unfold curve3. simpl. split; reflexivity.
Qed.

Lemma curve3_VABP_above_32 (s : Oil.t) :
  Oil.__init__ curve3 820 "D86" = Ok s -> 32 <= Oil.VABP s.
Proof.
  intros Hs. destruct (sample_scalars _ _ _ _ Hs) as (HV & _).
  destruct (curve3_D86_F s Hs) as (F0 & _).
  destruct (curve3_stored s Hs) as (Hy & Hlo & Hhi).
  assert (Hm : forall v, 0 < v -> v <= 100 -> D86_F s 0 < D86_F s v).
  { intros v Hv Hv'. apply (D86_F_increasing curve3 820 "D86" s 0 v Hs Hy); lra. }
  pose proof (Hm 10 ltac:(lra) ltac:(lra)). pose proof (Hm 30 ltac:(lra) ltac:(lra)).
  pose proof (Hm 50 ltac:(lra) ltac:(lra)). pose proof (Hm 70 ltac:(lra) ltac:(lra)).
  pose proof (Hm 90 ltac:(lra) ltac:(lra)). lra.
Qed.

Lemma VABP_bounds (pts : list (R * R)) (d : R) (tag : string) (s : Oil.t) :
  Oil.__init__ pts d tag = Ok s ->
  increasing (map snd (Oil.D86 s)) ->
  nth 0 (map fst (Oil.D86 s)) 0 <= 10 ->
  90 <= nth (List.length (map fst (Oil.D86 s)) - 1) (map fst (Oil.D86 s)) 0 ->
  D86_F s 10 < Oil.VABP s < D86_F s 90.
Proof.
  intros H Hy Hlo Hhi. destruct (sample_scalars _ _ _ _ H) as (HV & _).
  assert (Hm : forall a b, 10 <= a -> a < b -> b <= 90 -> D86_F s a < D86_F s b).
  { intros a b Ha Hab Hb. apply (D86_F_increasing pts d tag s a b H Hy); lra. }
  pose proof (Hm 10 30 ltac:(lra) ltac:(lra) ltac:(lra)).
  pose proof (Hm 30 50 ltac:(lra) ltac:(lra) ltac:(lra)).
  pose proof (Hm 50 70 ltac:(lra) ltac:(lra) ltac:(lra)).
  pose proof (Hm 70 90 ltac:(lra) ltac:(lra) ltac:(lra)).
  lra.
Qed.

(** X16.  When the stored D86 temperatures increase strictly and the stored
    volumes reach from 10 %vol (or below) to 90 %vol (or above), the volume
    average boiling point lies strictly between the D86 temperatures at 10 and
    at 90 %vol, read in Fahrenheit. *)
Theorem VABP_is_between_D86_10_and_90 (pts : list (R * R)) (d : R) (tag : string)
  (s : Oil.t) :
  Oil.__init__ pts d tag = Ok s ->
  increasing (map snd (Oil.D86 s)) ->
  nth 0 (map fst (Oil.D86 s)) 0 <= 10 ->
  90 <= nth (List.length (map fst (Oil.D86 s)) - 1) (map fst (Oil.D86 s)) 0 ->
  D86_F s 10 < Oil.VABP s < D86_F s 90.
Proof. exact (VABP_bounds pts d tag s). Qed.

Lemma VABP_is_between_D86_10_and_90_witness :
  exists s,
    Oil.__init__ curve3 820 "D86" = Ok s /\ D86_F s 10 < Oil.VABP s < D86_F s 90.
Proof.
  destruct (curve3_D86_succeeds 820) as (s & Hs). exists s.
  split; [exact Hs|].
  destruct (curve3_stored s Hs) as (Hy & Hlo & Hhi).
  apply (VABP_is_between_D86_10_and_90 curve3 820 "D86" s Hs Hy); lra.
Defined.

(** The slope between 10 and 90 %vol is never negative in a constructed
    sample: the Daubert method would have failed. *)
Lemma slope_nonnegative (pts : list (R * R)) (d : R) (tag : string) (s : Oil.t) :
  Oil.__init__ pts d tag = Ok s -> D86_F s 10 <= D86_F s 90.
Proof.
  intros H. destruct (init_fields _ _ _ _ H) as (Hp & _ & _ & HD & _).
  destruct (Daubert_curve_at_keys _ _ HD)
    as (dd & T0 & T10 & T30 & T50 & T70 & T90 & T95 & v50 & v1 & v2 & v3 & v5 & v6 & v7
        & Hd & (G0 & G10 & G30 & G50 & G70 & G90 & G95)
        & (F50 & F1 & F2 & F3 & F5 & F6 & F7) & _).
  destruct (Daubert_dict_values _ _ Hp) as (d' & al & be & Hd' & Hal & Hbe & Hv).
  assert (d' = dd) by congruence. subst d'.
  rewrite (Hv 10%Z) in G10 by (unfold Oil.dist_required; simpl; tauto).
  rewrite (Hv 30%Z) in G30 by (unfold Oil.dist_required; simpl; tauto).
  rewrite (Hv 50%Z) in G50 by (unfold Oil.dist_required; simpl; tauto).
  rewrite (Hv 70%Z) in G70 by (unfold Oil.dist_required; simpl; tauto).
  rewrite (Hv 90%Z) in G90 by (unfold Oil.dist_required; simpl; tauto).
  injection G10 as <-. injection G30 as <-. injection G50 as <-.
  injection G70 as <-. injection G90 as <-.
  apply fpow_some in F2, F3, F5, F6.
  unfold D86_F. nra.
Qed.

Lemma MeABP_defined (pts : list (R * R)) (d : R) (tag : string) (s : Oil.t) :
  Oil.__init__ pts d tag = Ok s ->
  (32 <= Oil.VABP s -> exists m, Oil.MeABP s = Some m)
  /\ (Oil.VABP s < 32 -> Oil.MeABP s = None /\ Oil.WatsonK s = None).
Proof.
  intros H. destruct (sample_scalars _ _ _ _ H) as (_ & HM).
  pose proof (slope_nonnegative _ _ _ _ H) as Hs.
  split.
  - intros HV. rewrite HM.
    destruct (fpow_nonneg (Oil.VABP s - 32) 0.6667) as (p & ->); [lra | lra |].
    destruct (fpow_nonneg ((D86_F s 90 - D86_F s 10) / 80) 0.333) as (q & ->);
      [lra | lra |].
    eauto.
  - intros HV. rewrite fpow_negative in HM by lra.
    split; [exact HM|].
    destruct (init_inv _ _ _ _ H) as (d86 & p & tbp & dau & d2887 & Hprop & _).
    destruct (properties_inv _ _ _ _ _ _ _ _ Hprop) as (V & M & _ & _ & E).
    rewrite E in HM |- *. cbn [Oil.MeABP Oil.WatsonK] in HM |- *.
    rewrite HM. reflexivity.
Qed.

(** X17.  In a constructed sample the mean average boiling point is a number
    exactly when the volume average boiling point is at least 32 °F: the slope
    between 10 and 90 %vol is never negative there.  Below 32 °F both [MeABP]
    and [WatsonK] are not numbers. *)
Theorem MeABP_is_a_number_from_32_F (pts : list (R * R)) (d : R) (tag : string)
  (s : Oil.t) :
  Oil.__init__ pts d tag = Ok s ->
  (32 <= Oil.VABP s -> exists m, Oil.MeABP s = Some m)
  /\ (Oil.VABP s < 32 -> Oil.MeABP s = None /\ Oil.WatsonK s = None).
Proof. exact (MeABP_defined pts d tag s). Qed.

Lemma MeABP_is_a_number_from_32_F_witness :
  exists s m, Oil.__init__ curve3 820 "D86" = Ok s /\ Oil.MeABP s = Some m.
Proof.
  destruct (curve3_D86_succeeds 820) as (s & Hs).
  destruct (proj1 (MeABP_is_a_number_from_32_F curve3 820 "D86" s Hs)
              (curve3_VABP_above_32 s Hs)) as (m & Hm).
  exists s, m. split; [exact Hs | exact Hm].
Defined.

Lemma MeABP_is_below_VABP_witness :
  exists s m,
    Oil.__init__ curve3 820 "D86" = Ok s /\ Oil.MeABP s = Some m /\ m < Oil.VABP s.
Proof.
  destruct (curve3_D86_succeeds 820) as (s & Hs).
  destruct (proj1 (MeABP_defined curve3 820 "D86" s Hs) (curve3_VABP_above_32 s Hs))
    as (m & Hm).
  exists s, m. split; [exact Hs|]. split; [exact Hm|].
  exact (MeABP_is_below_VABP curve3 820 "D86" s m Hs Hm).
Defined.

(** ** The density of a sample *)

Lemma properties_density (d1 d2 : R) (tag : string) (D86 : list (R * R))
  (p tbp dau r : t) (s1 : Oil.t) :
  Oil.properties d1 tag D86 p tbp dau r = Ok s1 ->
  exists s2,
    Oil.properties d2 tag D86 p tbp dau r = Ok s2 /\
    Oil.D86 s2 = Oil.D86 s1 /\ Oil.D86_interp s2 = Oil.D86_interp s1 /\
    Oil.TBP_interp s2 = Oil.TBP_interp s1 /\
    Oil.Daubert_TBP_interp s2 = Oil.Daubert_TBP_interp s1 /\
    Oil.D2887_interp s2 = Oil.D2887_interp s1 /\
    Oil.VABP s2 = Oil.VABP s1 /\ Oil.MeABP s2 = Oil.MeABP s1 /\
    (forall k1 k2, Oil.WatsonK s1 = Some k1 -> Oil.WatsonK s2 = Some k2 ->
                   k1 * d1 = k2 * d2).
Proof.
  intros H.
  destruct (properties_inv _ _ _ _ _ _ _ _ H) as (V & M & HV & HM & E1).
  assert (H2 : exists s2, Oil.properties d2 tag D86 p tbp dau r = Ok s2).
  { unfold Oil.properties. rewrite HV, HM. cbn [bind].
    destruct (Oil.WatsonK_ M d2). eexists; reflexivity. }
  destruct H2 as (s2 & H2). exists s2. split; [exact H2|].
  destruct (properties_inv _ _ _ _ _ _ _ _ H2) as (V' & M' & HV' & HM' & E2).
  assert (V' = V) by congruence. assert (M' = M) by congruence. subst V' M'.
  rewrite E1, E2.
  cbn [Oil.D86 Oil.D86_interp Oil.TBP_interp Oil.Daubert_TBP_interp Oil.D2887_interp
       Oil.VABP Oil.MeABP Oil.WatsonK].
  repeat split.
  intros k1 k2. unfold Oil.WatsonK_. cbn [snd].
  destruct M as [m|]; [|discriminate].
  destruct (fpow (m + 460) (1 / 3)) as [pw|]; [|discriminate].
  destruct (Req_dec_T (d1 / 999.013) 0) as [|N1]; [discriminate|].
  destruct (Req_dec_T (d2 / 999.013) 0) as [|N2]; [discriminate|].
  intros K1 K2. injection K1 as <-. injection K2 as <-.
  assert (d1 <> 0) by (intros ->; apply N1; lra).
  assert (d2 <> 0) by (intros ->; apply N2; lra).
  field. repeat split; first [assumption | lra].
Qed.

Lemma init_density (pts : list (R * R)) (d1 d2 : R) (tag : string) (s1 : Oil.t) :
  Oil.__init__ pts d1 tag = Ok s1 ->
  exists s2,
    Oil.__init__ pts d2 tag = Ok s2 /\
    Oil.D86 s2 = Oil.D86 s1 /\ Oil.D86_interp s2 = Oil.D86_interp s1 /\
    Oil.TBP_interp s2 = Oil.TBP_interp s1 /\
    Oil.Daubert_TBP_interp s2 = Oil.Daubert_TBP_interp s1 /\
    Oil.D2887_interp s2 = Oil.D2887_interp s1 /\
    Oil.VABP s2 = Oil.VABP s1 /\ Oil.MeABP s2 = Oil.MeABP s1 /\
    (forall k1 k2, Oil.WatsonK s1 = Some k1 -> Oil.WatsonK s2 = Some k2 ->
                   k1 * d1 = k2 * d2).
Proof.
  unfold Oil.__init__. intros H.
  destruct (String.eqb (upper tag) "D86").
  - destruct (Oil.API_D86_TBP pts) as [[p q]|e]; [|discriminate H]. cbn [bind] in *.
    destruct (Oil.Daubert_ASTM_D86_TBP pts) as [dau|e]; [|discriminate H]. cbn [bind] in *.
    destruct (Oil.D86_to_D2887 pts) as [r|e]; [|discriminate H]. cbn [bind] in *.
    exact (properties_density d1 d2 _ _ _ _ _ _ _ H).
  - destruct (str_in (upper tag) ["D2887"; "SIMDIS"]%string).
    + destruct (Oil.D2887_to_D86 pts) as [d86|e]; [|discriminate H]. cbn [bind] in *.
      destruct (Oil.API_D86_TBP d86) as [[p q]|e]; [|discriminate H]. cbn [bind] in *.
      destruct (Oil.D2887_to_TBP_direct pts) as [tbp|e]; [|discriminate H]. cbn [bind] in *.
      destruct (Oil.Daubert_ASTM_D86_TBP d86) as [dau|e]; [|discriminate H]. cbn [bind] in *.
      destruct (Oil.D2887_to_D2887_interp pts) as [r|e]; [|discriminate H]. cbn [bind] in *.
      exact (properties_density d1 d2 _ _ _ _ _ _ _ H).
    + destruct (String.eqb (upper tag) "TBP"); [|discriminate H].
      destruct (Oil.TBP_to_D86 pts) as [d86|e]; [|discriminate H]. cbn [bind] in *.
      destruct (Oil.API_D86_TBP d86) as [[p q]|e]; [|discriminate H]. cbn [bind] in *.
      destruct (Oil.TBP_to_TBP_interp pts) as [tbp|e]; [|discriminate H]. cbn [bind] in *.
      destruct (Oil.Daubert_ASTM_D86_TBP d86) as [dau|e]; [|discriminate H]. cbn [bind] in *.
      destruct (Oil.D86_to_D2887 d86) as [r|e]; [|discriminate H]. cbn [bind] in *.
      exact (properties_density d1 d2 _ _ _ _ _ _ _ H).
Qed.

(** X18.  The density only enters the specific gravity and the Watson factor:
    if a sample is constructed with one density, the same points and tag with
    any other density also give a sample, with the same stored D86 points, the
    same four curves, the same [VABP] and [MeABP]; and where both Watson factors
    are numbers, [WatsonK * Density] is the same for the two samples. *)
Theorem density_only_scales_WatsonK (pts : list (R * R)) (d1 d2 : R) (tag : string)
  (s1 : Oil.t) :
  Oil.__init__ pts d1 tag = Ok s1 ->
  exists s2,
    Oil.__init__ pts d2 tag = Ok s2 /\
    Oil.D86 s2 = Oil.D86 s1 /\ Oil.D86_interp s2 = Oil.D86_interp s1 /\
    Oil.TBP_interp s2 = Oil.TBP_interp s1 /\
    Oil.Daubert_TBP_interp s2 = Oil.Daubert_TBP_interp s1 /\
    Oil.D2887_interp s2 = Oil.D2887_interp s1 /\
    Oil.VABP s2 = Oil.VABP s1 /\ Oil.MeABP s2 = Oil.MeABP s1 /\
    (forall k1 k2, Oil.WatsonK s1 = Some k1 -> Oil.WatsonK s2 = Some k2 ->
                   k1 * d1 = k2 * d2).
Proof. exact (init_density pts d1 d2 tag s1). Qed.

Lemma density_only_scales_WatsonK_witness :
  exists s1 s2,
    Oil.__init__ curve3 820 "D86" = Ok s1 /\
    Oil.__init__ curve3 900 "D86" = Ok s2 /\
    Oil.VABP s2 = Oil.VABP s1 /\ Oil.MeABP s2 = Oil.MeABP s1.
Proof.
  destruct (curve3_D86_succeeds 820) as (s1 & Hs1).
  destruct (density_only_scales_WatsonK curve3 820 900 "D86" s1 Hs1)
    as (s2 & Hs2 & _ & _ & _ & _ & _ & HV & HM & _).
  exists s1, s2. auto.
Defined.

(** ** The dictionary lookups of [Oil.__init__] *)

Lemma only_ok {A : Type} (P : error -> Prop) (a : A) : raises_only P (Ok a).
Proof. intros e H. discriminate. Qed.

Lemma only_err {A : Type} (P : error -> Prop) (e : error) :
  P e -> raises_only P (@Err A e).
Proof. intros H e' E. injection E as <-. exact H. Qed.

Lemma only_bind_ok {A B : Type} (P : error -> Prop) (r : result A) (f : A -> result B) :
  raises_only P r -> (forall a, r = Ok a -> raises_only P (f a)) ->
  raises_only P (bind r f).
Proof.
  intros Hr Hf e H. destruct r as [a|e0]; cbn [bind] in H.
  - exact (Hf a eq_refl e H).
  - injection H as <-. now apply Hr.
Qed.

Lemma only_bind {A B : Type} (P : error -> Prop) (r : result A) (f : A -> result B) :
  raises_only P r -> (forall a, raises_only P (f a)) -> raises_only P (bind r f).
Proof. intros Hr Hf. apply only_bind_ok; auto. Qed.

Lemma only_mapM_in {A B : Type} (P : error -> Prop) (f : A -> result B) (l : list A) :
  (forall a, In a l -> raises_only P (f a)) -> raises_only P (mapM f l).
Proof.
  induction l as [|a l IH]; intros Hf; cbn [mapM]; [apply only_ok|].
  apply only_bind; [apply Hf; now left|]. intros b.
  apply only_bind; [apply IH; intros; apply Hf; now right|]. intros bs. apply only_ok.
Qed.

Lemma only_mapM {A B : Type} (P : error -> Prop) (f : A -> result B) (l : list A) :
  (forall a, raises_only P (f a)) -> raises_only P (mapM f l).
Proof. intros Hf. apply only_mapM_in. auto. Qed.

Lemma no_KeyError_finite (o : option R) : raises_only not_KeyError (finite o).
Proof. destruct o; [apply only_ok | apply only_err; discriminate]. Qed.

Lemma no_KeyError_convert (v : R) (a b : string) :
  raises_only not_KeyError (Oil.convert_temperature v a b).
Proof.
  unfold Oil.convert_temperature.
  destruct (str_get (upper a) Oil.unit_map); [|apply only_err; discriminate].
  destruct (str_get (upper b) Oil.unit_map); [|apply only_err; discriminate].
  destruct (String.eqb s s0); [apply only_ok|].
  apply only_bind.
  - repeat (match goal with |- raises_only _ (if ?c then _ else _) => destruct c end;
            [apply only_ok|]).
    apply only_err; discriminate.
  - intros celsius.
    repeat (match goal with |- raises_only _ (if ?c then _ else _) => destruct c end;
            [apply only_ok|]).
    apply only_err; discriminate.
Qed.

Lemma no_KeyError_init (xs ys : list R) : raises_only not_KeyError (__init__ xs ys).
Proof.
  unfold __init__. apply only_bind; [|intros; apply only_ok].
  unfold prepare_input.
  repeat (match goal with |- raises_only _ (if ?c then _ else _) => destruct c end;
          [apply only_err; discriminate|]).
  apply only_ok.
Qed.

Lemma no_KeyError_interpolator_of (l : list (R * R)) :
  raises_only not_KeyError (Oil.interpolator_of l).
Proof. apply no_KeyError_init. Qed.

Lemma no_KeyError_power_law (ab : R * R) (v : R) :
  raises_only not_KeyError (Oil.power_law ab v).
Proof.
  unfold Oil.power_law. apply only_bind; [apply no_KeyError_finite|].
  intros; apply only_ok.
Qed.

Ltac no_key_error_step :=
  first
    [ apply only_ok
    | apply no_KeyError_finite
    | apply no_KeyError_convert
    | apply no_KeyError_interpolator_of
    | apply no_KeyError_init
    | apply no_KeyError_power_law
    | apply only_bind; [ | intros ? ]
    | match goal with
      | |- raises_only _ (let '(_, _) := ?p in _) => destruct p
      | |- raises_only _ (if ?c then _ else _) => destruct c
      end ].
Ltac no_key_error := repeat no_key_error_step.

Lemma no_KeyError_API_D86_TBP (d86 : list (R * R)) :
  raises_only not_KeyError (Oil.API_D86_TBP d86).
Proof.
  unfold Oil.API_D86_TBP.
  apply only_bind; [no_key_error|]. intros p.
  apply only_bind; [|intros; no_key_error].
  apply only_mapM_in. intros vol Hin.
  destruct (table_get_API vol Hin) as (a & b & ->). cbn [bind]. no_key_error.
Qed.

Lemma no_KeyError_riazi_point (coefficients : list (Z * (R * R))) (p : t) (vol : Z) :
  (exists ab, table_get vol coefficients = Ok ab) ->
  raises_only not_KeyError (Oil.riazi_point coefficients p vol).
Proof.
  intros (ab & E). unfold Oil.riazi_point. cbv zeta. rewrite E. cbn [bind]. no_key_error.
Qed.

Lemma no_KeyError_D2887_to_D86 (D2887 : list (R * R)) :
  raises_only not_KeyError (Oil.D2887_to_D86 D2887).
Proof.
  unfold Oil.D2887_to_D86.
  apply only_bind; [no_key_error|]. intros p.
  apply only_bind; [|intros; no_key_error].
  apply only_mapM_in. intros vol Hin.
  apply no_KeyError_riazi_point. now apply riazi_d86_keys.
Qed.

Lemma no_KeyError_D2887_to_TBP_direct (D2887 : list (R * R)) :
  raises_only not_KeyError (Oil.D2887_to_TBP_direct D2887).
Proof.
  unfold Oil.D2887_to_TBP_direct.
  apply only_bind; [no_key_error|]. intros p.
  apply only_bind; [|intros; no_key_error].
  apply only_mapM_in. intros vol Hin.
  apply no_KeyError_riazi_point. now apply riazi_tbp_keys.
Qed.

Lemma no_KeyError_TBP_to_D86 (TBP : list (R * R)) :
  raises_only not_KeyError (Oil.TBP_to_D86 TBP).
Proof.
  unfold Oil.TBP_to_D86.
  apply only_bind; [no_key_error|]. intros p.
  apply only_mapM. intros vol. no_key_error.
Qed.

Lemma no_KeyError_D86_to_D2887 (D86 : list (R * R)) :
  raises_only not_KeyError (Oil.D86_to_D2887 D86).
Proof.
  unfold Oil.D86_to_D2887.
  apply only_bind; [no_key_error|]. intros p. cbv zeta.
  apply only_bind; [no_key_error|]. intros D86_50_F.
  apply only_bind; [no_key_error|]. intros SD_50_F.
  apply only_bind; [no_key_error|]. intros SD_50_C.
  apply only_bind; [apply no_KeyError_API_D86_TBP|]. intros [p' q].
  no_key_error.
Qed.

Lemma no_KeyError_Daubert_D86_dict_r (D86 : list (R * R)) :
  raises_only not_KeyError (Oil.Daubert_D86_dict_r D86).
Proof.
  unfold Oil.Daubert_D86_dict_r. cbv zeta.
  apply only_bind.
  - apply only_mapM. intros [dist temp]. no_key_error.
  - intros d. no_key_error.
Qed.

Lemma no_KeyError_Daubert (D86 : list (R * R)) :
  raises_only not_KeyError (Oil.Daubert_ASTM_D86_TBP D86).
Proof.
  unfold Oil.Daubert_ASTM_D86_TBP.
  apply only_bind_ok; [apply no_KeyError_Daubert_D86_dict_r|]. intros d Hd.
  apply only_bind.
  - pose proof (Daubert_dict_keys D86 d Hd) as Hk.
    destruct (Hk 0%Z) as (T0 & G0); [unfold Oil.dist_required; simpl; tauto|].
    destruct (Hk 10%Z) as (T10 & G10); [unfold Oil.dist_required; simpl; tauto|].
    destruct (Hk 30%Z) as (T30 & G30); [unfold Oil.dist_required; simpl; tauto|].
    destruct (Hk 50%Z) as (T50 & G50); [unfold Oil.dist_required; simpl; tauto|].
    destruct (Hk 70%Z) as (T70 & G70); [unfold Oil.dist_required; simpl; tauto|].
    destruct (Hk 90%Z) as (T90 & G90); [unfold Oil.dist_required; simpl; tauto|].
    destruct (Hk 95%Z) as (T95 & G95); [unfold Oil.dist_required; simpl; tauto|].
    destruct (Daubert_TBP_r_list_cases d T0 T10 T30 T50 T70 T90 T95 G0 G10 G30 G50 G70 G90 G95)
      as [(l & ->) | ->]; [apply only_ok | apply only_err; discriminate].
  - intros l. apply only_bind; [|intros; no_key_error].
    apply only_mapM. intros [vol temp_F]. no_key_error.
Qed.

Lemma no_KeyError_properties (d : R) (tag : string) (D86 : list (R * R))
  (p tbp dau d2887 : t) :
  raises_only not_KeyError (Oil.properties d tag D86 p tbp dau d2887).
Proof.
  unfold Oil.properties, Oil.MeABP_, Oil.VABP_, Oil.D86_interop_F. cbv zeta.
  repeat first [ apply only_mapM; intros ? | no_key_error_step ].
Qed.

Ltac no_key_error_oil :=
  repeat first
    [ apply no_KeyError_API_D86_TBP | apply no_KeyError_Daubert
    | apply no_KeyError_D86_to_D2887 | apply no_KeyError_D2887_to_D86
    | apply no_KeyError_D2887_to_TBP_direct | apply no_KeyError_TBP_to_D86
    | apply no_KeyError_properties | no_key_error_step ].

Lemma no_KeyError_Oil (pts : list (R * R)) (d : R) (tag : string) :
  raises_only not_KeyError (Oil.__init__ pts d tag).
Proof.
  unfold Oil.__init__, Oil.D2887_to_D2887_interp, Oil.TBP_to_TBP_interp.
  destruct (String.eqb (upper tag) "D86"); [no_key_error_oil|].
  destruct (str_in (upper tag) ["D2887"; "SIMDIS"]%string); [no_key_error_oil|].
  destruct (String.eqb (upper tag) "TBP"); [no_key_error_oil|].
  apply only_err. discriminate.
Qed.

(** X19.  Whatever the points, the density and the tag, the construction of a
    sample never raises a [KeyError]: every table and dictionary lookup it
    makes finds its key (the keys looked up are the key points of the method,
    and the dictionary of the Daubert method is completed before it is
    read). *)
Theorem Oil_never_raises_KeyError (pts : list (R * R)) (d : R) (tag : string)
  (e : error) :
  Oil.__init__ pts d tag = Err e -> e <> KeyError.
Proof. exact (no_KeyError_Oil pts d tag e). Qed.

Lemma Oil_never_raises_KeyError_witness :
  Oil.__init__ [(0, 160)] 820 "D86" = Err TooFewPoints /\ TooFewPoints <> KeyError.
Proof.
  assert (H : Oil.__init__ [(0, 160)] 820 "D86" = Err TooFewPoints) by reflexivity.
  split; [exact H|].
  exact (Oil_never_raises_KeyError [(0, 160)] 820 "D86" TooFewPoints H).
Defined.

(** ** [Oil.read_d86_csv] *)

Lemma and_then_returns {E A B : Type} (r : outcome E A) (f : A -> outcome E B) (b : B) :
  and_then r f = Returns b -> exists a, r = Returns a /\ f a = Returns b.
Proof. destruct r as [a|e]; simpl; [eauto | discriminate]. Qed.

Lemma for_each_returns {E A B : Type} (f : A -> outcome E B) (l : list A) (r : list B) :
  for_each f l = Returns r <-> Forall2 (fun a b => f a = Returns b) l r.
Proof.
  revert r; induction l as [|a l IH]; intros r; cbn [for_each]; split.
  - intros H. injection H as <-. constructor.
  - intros H. inversion H. reflexivity.
  - intros H. apply and_then_returns in H. destruct H as (b & Hb & H).
    apply and_then_returns in H. destruct H as (bs & Hbs & H).
    injection H as <-. constructor; [exact Hb | now apply IH].
  - intros H. inversion H as [|a' b l' bs Hb Hbs]; subst.
    rewrite Hb. cbn [and_then]. apply IH in Hbs. rewrite Hbs. reflexivity.
Qed.

Section read_d86_csv_properties.

Variable F : Type.
Variable float : string -> option F.

Lemma float_item_returns (row : list string) (i : nat) (v : F) :
  read_csv.float_item F float row i = Returns v <->
  exists s, nth_error row i = Some s /\ float s = Some v.
Proof.
  unfold read_csv.float_item, read_csv.item.
  destruct (nth_error row i) as [s|]; cbn [and_then].
  - destruct (float s) as [u|] eqn:E; split.
    + intros H. injection H as <-. eauto.
    + intros (s' & Hs & Hv). injection Hs as <-. congruence.
    + discriminate.
    + intros (s' & Hs & Hv). injection Hs as <-. congruence.
  - split; [discriminate | intros (s & Hs & _); discriminate].
Qed.

Lemma loop_body_returns (row : list string) (p : F * F) :
  read_csv.loop_body F float row = Returns p <->
  (exists a b,
     nth_error row 0 = Some a /\ nth_error row 1 = Some b /\
     float a = Some (fst p) /\ float b = Some (snd p)).
Proof.
  unfold read_csv.loop_body. split.
  - intros H.
    apply and_then_returns in H. destruct H as (x0 & H0 & H).
    apply and_then_returns in H. destruct H as (y0 & H1 & H).
    apply and_then_returns in H. destruct H as (a & Ha & H).
    apply and_then_returns in H. destruct H as (b & Hb & H).
    injection H as <-.
    apply float_item_returns in Ha, Hb.
    destruct Ha as (sa & Na & Fa). destruct Hb as (sb & Nb & Fb).
    exists sa, sb. auto.
  - intros (a & b & Na & Nb & Fa & Fb).
    assert (Ha : read_csv.float_item F float row 0 = Returns (fst p))
      by (apply float_item_returns; eauto).
    assert (Hb : read_csv.float_item F float row 1 = Returns (snd p))
      by (apply float_item_returns; eauto).
    rewrite Ha. cbn [and_then]. rewrite Hb. cbn [and_then]. now destruct p.
Qed.

Lemma numeric_first_row_raises (first_row : list string) (rest : list (list string))
  (p : F * F) :
  (exists a b,
     nth_error first_row 0 = Some a /\ nth_error first_row 1 = Some b /\
     float a = Some (fst p) /\ float b = Some (snd p)) ->
  read_csv.read_d86_csv F float (first_row :: rest) = Raises read_csv.UnboundLocalError.
Proof.
  intros (a & b & Na & Nb & Fa & Fb).
  unfold read_csv.read_d86_csv, read_csv.first_row_block, read_csv.float_item,
    read_csv.item.
  rewrite Na, Nb. cbn [and_then]. rewrite Fa. cbn [and_then]. rewrite Fb. reflexivity.
Qed.

Lemma first_row_block_returns (first_row : list string) :
  read_csv.first_row_block F float first_row = Returns tt <->
  exists h0 h1,
    nth_error first_row 0 = Some h0 /\ nth_error first_row 1 = Some h1 /\
    (float h0 = None \/ float h1 = None).
Proof.
  unfold read_csv.first_row_block, read_csv.float_item, read_csv.item.
  destruct (nth_error first_row 0) as [h0|] eqn:N0; cbn [and_then].
  - destruct (float h0) as [u|] eqn:F0; cbn [and_then].
    + destruct (nth_error first_row 1) as [h1|] eqn:N1; cbn [and_then].
      * destruct (float h1) as [v|] eqn:F1; cbn [and_then].
        -- split; [discriminate|].
           intros (k0 & k1 & E0 & E1 & [H|H]); congruence.
        -- split; [|reflexivity]. intros _. exists h0, h1. auto.
      * split; [discriminate|]. intros (k0 & k1 & _ & E1 & _). discriminate.
    + destruct (nth_error first_row 1) as [h1|] eqn:N1; cbn [and_then].
      * split; [|reflexivity]. intros _. exists h0, h1. auto.
      * split; [discriminate|]. intros (k0 & k1 & _ & E1 & _). discriminate.
  - split; [discriminate|]. intros (k0 & k1 & E0 & _). discriminate.
Qed.

Lemma read_d86_csv_returns (rows : list (list string)) (l : list (F * F)) :
  read_csv.read_d86_csv F float rows = Returns l <->
  exists first_row rest h0 h1,
    rows = first_row :: rest /\
    nth_error first_row 0 = Some h0 /\ nth_error first_row 1 = Some h1 /\
    (float h0 = None \/ float h1 = None) /\
    Forall2 (fun row p =>
               exists a b,
                 nth_error row 0 = Some a /\ nth_error row 1 = Some b /\
                 float a = Some (fst p) /\ float b = Some (snd p))
            rest l.
Proof.
  unfold read_csv.read_d86_csv. destruct rows as [|first_row rest].
  - split; [discriminate|]. intros (f & r & _ & _ & E & _). discriminate.
  - split.
    + intros H. apply and_then_returns in H. destruct H as ([] & Hb & H).
      apply first_row_block_returns in Hb. destruct Hb as (h0 & h1 & N0 & N1 & Hh).
      exists first_row, rest, h0, h1. repeat split; auto.
      apply for_each_returns in H.
      eapply Forall2_impl; [|exact H]. intros row p. apply loop_body_returns.
    + intros (f & r & h0 & h1 & E & N0 & N1 & Hh & Hl). injection E as <- <-.
      assert (Hb : read_csv.first_row_block F float first_row = Returns tt)
        by (apply first_row_block_returns; eauto).
      rewrite Hb. cbn [and_then]. apply for_each_returns.
      eapply Forall2_impl; [|exact Hl]. intros row p. apply loop_body_returns.
Qed.

End read_d86_csv_properties.

(** X20.  [read_d86_csv] cannot read a file without a header line: when the
    first two fields of the first row are both numbers, the function raises
    [UnboundLocalError], whatever the other rows are. *)
Theorem read_d86_csv_needs_a_header (F : Type) (float : string -> option F)
  (first_row : list string) (rest : list (list string)) (a b : string) (u v : F) :
  nth_error first_row 0 = Some a -> nth_error first_row 1 = Some b ->
  float a = Some u -> float b = Some v ->
  read_csv.read_d86_csv F float (first_row :: rest) = Raises read_csv.UnboundLocalError.
Proof.
  intros Na Nb Fa Fb.
  apply (numeric_first_row_raises F float first_row rest (u, v)).
  exists a, b. auto.
Qed.

Lemma read_d86_csv_needs_a_header_witness :
  read_csv.read_d86_csv R digits_float [["0"; "160"]; ["50"; "225"]; ["100"; "290"]]%string
  = Raises read_csv.UnboundLocalError.
Proof.
  apply (read_d86_csv_needs_a_header R digits_float ["0"; "160"]%string _
           "0"%string "160"%string (INR 0) (INR 160)); reflexivity.
Defined.

(** X21.  [read_d86_csv] returns a list exactly when the file has a first row
    with at least two fields of which one is not a number (the header), and
    every other row starts with two numbers; the list then holds these pairs of
    numbers, one per row after the header, in the order of the file. *)
Theorem read_d86_csv_returns_the_rows_after_the_header (F : Type)
  (float : string -> option F) (rows : list (list string)) (l : list (F * F)) :
  read_csv.read_d86_csv F float rows = Returns l <->
  exists first_row rest h0 h1,
    rows = first_row :: rest /\
    nth_error first_row 0 = Some h0 /\ nth_error first_row 1 = Some h1 /\
    (float h0 = None \/ float h1 = None) /\
    Forall2 (fun row p =>
               exists a b,
                 nth_error row 0 = Some a /\ nth_error row 1 = Some b /\
                 float a = Some (fst p) /\ float b = Some (snd p))
            rest l.
Proof. exact (read_d86_csv_returns F float rows l). Qed.

Lemma read_d86_csv_returns_the_rows_after_the_header_witness :
  read_csv.read_d86_csv R digits_float
    [["Volume"; "Temperature"]; ["0"; "160"]; ["100"; "290"]]%string
  = Returns [(INR 0, INR 160); (INR 100, INR 290)].
Proof.
  apply (proj2 (read_d86_csv_returns_the_rows_after_the_header R digits_float
                  [["Volume"; "Temperature"]; ["0"; "160"]; ["100"; "290"]]%string
                  [(INR 0, INR 160); (INR 100, INR 290)])).
  exists ["Volume"; "Temperature"]%string, [["0"; "160"]; ["100"; "290"]]%string,
    "Volume"%string, "Temperature"%string.
  split; [reflexivity|]. split; [reflexivity|]. split; [reflexivity|].
  split; [left; reflexivity|].
  constructor; [exists "0"%string, "160"%string; repeat split; reflexivity|].
  constructor; [exists "100"%string, "290"%string; repeat split; reflexivity|].
  constructor.
Defined.

(** ** The web service: the checks in front of the constructor *)

Import distillation_api.

Lemma adjacent_increasing (temps : list R) :
  forallb (fun i => Rltb (nth i temps 0) (nth (i + 1) temps 0))
          (seq 0 (List.length temps - 1)) = true
  <-> increasing temps.
Proof.
  rewrite forallb_forall. unfold increasing. split.
  - intros H i Hi. specialize (H i). rewrite in_seq in H.
    assert (Hb : Rltb (nth i temps 0) (nth (i + 1) temps 0) = true) by (apply H; lia).
    unfold Rltb in Hb. rewrite Nat.add_1_r in Hb.
    destruct (Rlt_dec (nth i temps 0) (nth (S i) temps 0)); [assumption|discriminate].
  - intros H i Hi. apply in_seq in Hi. rewrite Nat.add_1_r.
    unfold Rltb. destruct (Rlt_dec (nth i temps 0) (nth (S i) temps 0)) as [|N];
      [reflexivity|].
    exfalso. apply N. apply H. lia.
Qed.

Lemma within_bounds (temps : list R) :
  existsb (fun t => Rltb t (-50) || Rltb 400 t) temps = false
  <-> Forall (fun t => -50 <= t <= 400) temps.
Proof.
  induction temps as [|t temps IH]; cbn [existsb].
  - split; [constructor | reflexivity].
  - rewrite orb_false_iff, IH. unfold Rltb.
    destruct (Rlt_dec t (-50)) as [L|L]; destruct (Rlt_dec 400 t) as [U|U]; cbn [orb];
      split; try (intros (Hd & _); discriminate Hd);
      try (intros Hf; inversion Hf; subst; exfalso; lra).
    + intros (_ & Hf). constructor; [lra | exact Hf].
    + intros Hf. inversion Hf; subst. auto.
Qed.

Lemma validate_input_data_cases (data : list DistillationPoint) :
  let temps := map temperature_c data in
  (validate_input_data data = Returns true
   <-> increasing temps /\ Forall (fun t => -50 <= t <= 400) temps)
  /\ (validate_input_data data = Raises NotStrictlyIncreasing <-> ~ increasing temps)
  /\ (validate_input_data data = Raises OutsideTypicalBounds
      <-> increasing temps /\ ~ Forall (fun t => -50 <= t <= 400) temps)
  /\ validate_input_data data <> Returns false.
Proof.
  cbv zeta. unfold validate_input_data.
  pose proof (adjacent_increasing (map temperature_c data)) as HI.
  pose proof (within_bounds (map temperature_c data)) as HB.
  destruct (forallb _ (seq 0 (List.length (map temperature_c data) - 1))); cbn [negb].
  - assert (Hinc : increasing (map temperature_c data)) by (now apply HI).
    destruct (existsb _ (map temperature_c data)).
    + assert (Hn : ~ Forall (fun t => -50 <= t <= 400) (map temperature_c data))
        by (intros Hf; apply HB in Hf; discriminate).
      repeat split; try discriminate; try tauto;
        try (intros (_ & Hf); contradiction).
    + assert (Hf : Forall (fun t => -50 <= t <= 400) (map temperature_c data))
        by (now apply HB).
      repeat split; try discriminate; try tauto;
        try (intros (_ & Hn); contradiction).
  - assert (Hn : ~ increasing (map temperature_c data))
      by (intros Hinc; apply HI in Hinc; discriminate).
    repeat split; try discriminate; try tauto;
      try (intros (Hinc & _); contradiction).
Qed.

(** X22.  [validate_input_data] of the web service returns [True] exactly
    when the temperatures increase strictly along the list and all lie in
    [-50, 400] °C; it raises the "strictly increasing" error exactly when they
    do not increase, the "typical bounds" error exactly when they increase but
    one is out of range, and it never returns [False]. *)
Theorem validate_input_data_verdicts (data : list DistillationPoint) :
  let temps := map temperature_c data in
  (validate_input_data data = Returns true
   <-> increasing temps /\ Forall (fun t => -50 <= t <= 400) temps)
  /\ (validate_input_data data = Raises NotStrictlyIncreasing <-> ~ increasing temps)
  /\ (validate_input_data data = Raises OutsideTypicalBounds
      <-> increasing temps /\ ~ Forall (fun t => -50 <= t <= 400) temps)
  /\ validate_input_data data <> Returns false.
Proof. exact (validate_input_data_cases data). Qed.

(** The three-point curve of the test suite as a request body. *)
Lemma curve3_request_temperatures :
  increasing (map temperature_c
                [mkDistillationPoint 0 160; mkDistillationPoint 50 225;
                 mkDistillationPoint 100 290])
  /\ Forall (fun t => -50 <= t <= 400)
       (map temperature_c
          [mkDistillationPoint 0 160; mkDistillationPoint 50 225;
           mkDistillationPoint 100 290]).
Proof.
  cbn [map temperature_c]. split; [increasing_list|].
  repeat constructor; lra.
Qed.

Lemma validate_input_data_verdicts_witness :
  validate_input_data
    [mkDistillationPoint 0 160; mkDistillationPoint 50 225; mkDistillationPoint 100 290]
  = Returns true.
Proof.
  apply (proj1 (validate_input_data_verdicts
                  [mkDistillationPoint 0 160; mkDistillationPoint 50 225;
                   mkDistillationPoint 100 290])).
  exact curve3_request_temperatures.
Defined.

Lemma validate_input_data_raises (data : list DistillationPoint) (e : exception) :
  validate_input_data data = Raises e ->
  e = NotStrictlyIncreasing \/ e = OutsideTypicalBounds.
Proof.
  unfold validate_input_data. cbv zeta.
  destruct (negb _); [intros H; injection H as <-; auto|].
  destruct (existsb _ _); [intros H; injection H as <-; auto | discriminate].
Qed.

Lemma api_tag_accepted (u : string) :
  str_in u ["D86"; "D2887"; "TBP"]%string = true -> str_in u accepted_tags = true.
Proof.
  unfold accepted_tags. cbn [str_in].
  destruct (String.eqb u "D86"); [reflexivity|].
  destruct (String.eqb u "D2887"); [reflexivity|].
  destruct (String.eqb u "SIMDIS"); [reflexivity|].
  cbn [orb]. auto.
Qed.

Lemma convert_curves_tag (request : ConversionRequest) :
  (forall t, convert_curves_oil request <> Raises (FromOil (UnknownInputType t)))
  /\ (forall oil, convert_curves_oil request = Returns oil ->
        str_in (upper (input_type request)) ["D86"; "D2887"; "TBP"]%string = true)
  /\ (upper (input_type request) = "SIMDIS"%string ->
      validate_input_data (distillation_data request) = Returns true ->
      str_in (upper (input_type request)) accepted_tags = true
      /\ convert_curves_oil request = Raises (InvalidInputType (input_type request))).
Proof.
  unfold convert_curves_oil. cbv zeta.
  split; [|split].
  - intros t H.
    destruct (validate_input_data (distillation_data request)) as [b|e] eqn:V;
      cbn [and_then] in H;
      [|injection H as ->; destruct (validate_input_data_raises _ _ V); discriminate].
    destruct (str_in (upper (input_type request)) ["D86"; "D2887"; "TBP"]%string) eqn:T;
      cbn [negb] in H; [|discriminate].
    destruct (Oil.__init__ _ (density_kg_m3 request) (input_type request)) as [oil|e] eqn:O;
      [discriminate|].
    injection H as ->.
    exact (accepted_tag_dispatched _ _ _ (api_tag_accepted _ T) _ O).
  - intros oil H.
    destruct (validate_input_data (distillation_data request)) as [b|e];
      cbn [and_then] in H; [|discriminate].
    destruct (str_in (upper (input_type request)) ["D86"; "D2887"; "TBP"]%string);
      [reflexivity | discriminate].
  - intros E V. rewrite V, E. cbn [and_then]. split; reflexivity.
Qed.

(** X23.  The route [convert_curves] checks the family tag itself, more
    strictly than the class: a sample is returned only for a tag that reads
    D86, D2887 or TBP in upper case, the unknown-family error of [Oil] never
    comes out of the route, and a SIMDIS tag, which [Oil] accepts, is refused
    with "Invalid input_type" once the data are validated. *)
Theorem convert_curves_checks_the_tag_first (request : ConversionRequest) :
  (forall t, convert_curves_oil request <> Raises (FromOil (UnknownInputType t)))
  /\ (forall oil, convert_curves_oil request = Returns oil ->
        str_in (upper (input_type request)) ["D86"; "D2887"; "TBP"]%string = true)
  /\ (upper (input_type request) = "SIMDIS"%string ->
      validate_input_data (distillation_data request) = Returns true ->
      str_in (upper (input_type request)) accepted_tags = true
      /\ convert_curves_oil request = Raises (InvalidInputType (input_type request))).
Proof. exact (convert_curves_tag request). Qed.

Lemma curve3_request_validates :
  validate_input_data
    [mkDistillationPoint 0 160; mkDistillationPoint 50 225; mkDistillationPoint 100 290]
  = Returns true.
Proof.
  apply (proj1 (validate_input_data_cases _)). exact curve3_request_temperatures.
Qed.

Lemma convert_curves_checks_the_tag_first_witness :
  convert_curves_oil
    (mkConversionRequest
       [mkDistillationPoint 0 160; mkDistillationPoint 50 225; mkDistillationPoint 100 290]
       820 "SimDis" ["D86"; "TBP"]%string)
  = Raises (InvalidInputType "SimDis").
Proof.
  apply (convert_curves_checks_the_tag_first
           (mkConversionRequest
              [mkDistillationPoint 0 160; mkDistillationPoint 50 225;
               mkDistillationPoint 100 290]
              820 "SimDis" ["D86"; "TBP"]%string)).
  - reflexivity.
  - exact curve3_request_validates.
Defined.

Lemma convert_curves_status (request : ConversionRequest) (e : exception) :
  convert_curves_oil request = Raises e -> status_code e = 400%Z.
Proof.
  unfold convert_curves_oil. cbv zeta. intros H.
  destruct (validate_input_data (distillation_data request)) as [b|e0] eqn:V;
    cbn [and_then] in H.
  - destruct (negb (str_in (upper (input_type request)) ["D86"; "D2887"; "TBP"]%string)).
    + injection H as <-. reflexivity.
    + destruct (Oil.__init__ _ (density_kg_m3 request) (input_type request))
        as [oil|e1] eqn:O; [discriminate|].
      injection H as <-.
      pose proof (no_KeyError_Oil _ _ _ e1 O) as Hv. unfold not_KeyError in Hv.
      destruct e1; try reflexivity. contradiction.
  - injection H as <-.
    destruct (validate_input_data_raises _ _ V) as [-> | ->]; reflexivity.
Qed.

(** X24.  Whatever makes the route [convert_curves] fail before its response
    is built (a validation error, a refused tag, or an exception of the
    constructor) is a [ValueError], so the route answers with status 400 and
    never with 500 on that path. *)
Theorem convert_curves_answers_400 (request : ConversionRequest) (e : exception) :
  convert_curves_oil request = Raises e -> status_code e = 400%Z.
Proof. exact (convert_curves_status request e). Qed.

Lemma convert_curves_answers_400_witness :
  status_code (InvalidInputType "SimDis") = 400%Z.
Proof.
  apply (convert_curves_answers_400
           (mkConversionRequest
              [mkDistillationPoint 0 160; mkDistillationPoint 50 225;
               mkDistillationPoint 100 290]
              820 "SimDis" ["D86"; "TBP"]%string)).
  unfold convert_curves_oil. cbn [distillation_data input_type].
  rewrite curve3_request_validates. reflexivity.
Defined.






